(** * Triangular arbitrage bot: opportunity discovery and profitability decision

    A shallow embedding of the JavaScript classes of the bot:
    - [RPCManager]: the endpoint pool;
    - [NetworkService]: the gas price query and the health of the network;
    - [PriceService] and [TokenService]: reference prices and token metadata;
    - [ProfitCalculator]: the profitability evaluator;
    - [ArbitrageChecker]: the scanner;
    - [ProviderService]: the connection service;
    - [Pairs]: the BiSwap pair table;
    - [FileManager]: the execution history and the statistics;
    - [ArbitrageExecutor]: the executor;
    - [ArbitrageBot]: the scan coordinator.

    JavaScript numbers are IEEE-754 binary64 values and are modelled by the
    primitive floats of Rocq; [ethers.BigNumber] values that the ABI types as
    [uint] are modelled by [N]; time stamps ([Date.now()]) by [Z].  Calls of
    the logger are left out: they change none of the values modelled. *)

From Stdlib Require Import ZArith NArith QArith Qabs PrimFloat FloatOps SpecFloat.
From stdpp Require Import gmap strings list.
From Stdlib Require FloatAxioms.

Local Open Scope Z_scope.

(** ** Results of calls that may throw, and the state-and-exception monad

    Every [async] method of the bot is sequential code over the mutable
    fields of the service objects and over the outside world (the chain, the
    clock).  A computation takes the current state and gives a result, which
    is a value or a thrown error carrying [error.message], and the next
    state. *)

Inductive Res (A : Type) : Type :=
| Ok (a : A)
| Throw (message : string).
Arguments Ok {A} a.
Arguments Throw {A} message.

Definition M (S A : Type) : Type := S -> Res A * S.

Definition ret {S A} (a : A) : M S A := fun s => (Ok a, s).

Definition throw {S A} (message : string) : M S A := fun s => (Throw message, s).

Definition bind {S A B} (m : M S A) (k : A -> M S B) : M S B :=
  fun s =>
    match m s with
    | (Ok a, s') => k a s'
    | (Throw e, s') => (Throw e, s')
    end.

(** [try { m } catch (error) { h error.message }] *)
Definition tryCatch {S A} (m : M S A) (h : string -> M S A) : M S A :=
  fun s =>
    match m s with
    | (Ok a, s') => (Ok a, s')
    | (Throw e, s') => h e s'
    end.

(** [promise.catch(() => null)] *)
Definition catchNull {S A} (m : M S A) : M S (option A) :=
  fun s =>
    match m s with
    | (Ok a, s') => (Ok (Some a), s')
    | (Throw _, s') => (Ok None, s')
    end.

Definition get {S} : M S S := fun s => (Ok s, s).
Definition modify {S} (f : S -> S) : M S unit := fun s => (Ok tt, f s).

Notation "'let*' x ':=' m 'in' k" := (bind m (fun x => k))
  (at level 10, x name, m at level 100, k at level 200).
Notation "'let*' ' p ':=' m 'in' k" := (bind m (fun x => match x with p => k end))
  (at level 10, p pattern, m at level 100, k at level 200).
Notation "m1 ';;;' m2" := (bind m1 (fun _ => m2))
  (at level 100, m2 at level 200, right associativity).

(** A computation that returns normally from every state. *)
Definition returns {S A} (m : M S A) : Prop :=
  forall s, exists a s', m s = (Ok a, s').

(** A computation that keeps a property of the state, however it ends. *)
Definition preserves {S A} (P : S -> Prop) (m : M S A) : Prop :=
  forall s r s', m s = (r, s') -> P s -> P s'.

(** A pure call that may throw, used inside a computation. *)
Definition liftRes {S A} (r : Res A) : M S A := fun s => (r, s).

(** ** The endpoint pool (class RPCManager) *)

Module RPCManager.

(** The fields of the object.  [providers] is one provider per URL, so an
    endpoint is named by its index; [cooldownTimers] holds the due times of
    the pending [setTimeout] callbacks registered by [reportFailure]. *)
Record t : Type := mk {
  rpcUrls : list string;
  currentIndex : nat;
  failCounts : list nat;
  lastUsed : list Z;
  healthStatus : list bool;
  cooldownTimers : list Z
}.

Definition providersLength (m : t) : nat := length (rpcUrls m).

Definition setCurrentIndex (i : nat) (m : t) : t :=
  mk (rpcUrls m) i (failCounts m) (lastUsed m) (healthStatus m) (cooldownTimers m).
Definition setFailCounts (fc : list nat) (m : t) : t :=
  mk (rpcUrls m) (currentIndex m) fc (lastUsed m) (healthStatus m) (cooldownTimers m).
Definition setLastUsed (lu : list Z) (m : t) : t :=
  mk (rpcUrls m) (currentIndex m) (failCounts m) lu (healthStatus m) (cooldownTimers m).
Definition setHealthStatus (hs : list bool) (m : t) : t :=
  mk (rpcUrls m) (currentIndex m) (failCounts m) (lastUsed m) hs (cooldownTimers m).
Definition setCooldownTimers (ts : list Z) (m : t) : t :=
  mk (rpcUrls m) (currentIndex m) (failCounts m) (lastUsed m) (healthStatus m) ts.

(** The constructor builds the four arrays with one slot per URL, and the
    URL list is the primary followed by the backups, hence not empty. *)
Definition wf (m : t) : Prop :=
  length (failCounts m) = providersLength m /\
  length (lastUsed m) = providersLength m /\
  length (healthStatus m) = providersLength m /\
  (currentIndex m < providersLength m)%nat.

(** [this.healthStatus[i] && this.failCounts[i] < 3 &&
     now - this.lastUsed[i] > 500]; a slot that does not exist reads
    [undefined], which makes the conjunction false. *)
Definition usable (m : t) (now : Z) (i : nat) : bool :=
  match healthStatus m !! i, failCounts m !! i, lastUsed m !! i with
  | Some h, Some c, Some u => h && (c <? 3)%nat && (500 <? now - u)
  | _, _, _ => false
  end.

(** The indices visited by the loop
    [for (i = 0; i < providers.length; i++) idx = (currentIndex + i + 1) % providers.length]. *)
Definition rotation (m : t) : list nat :=
  map (fun i => ((currentIndex m + i + 1) mod providersLength m)%nat)
      (seq 0 (providersLength m)).

(** [getProvider()]: the index of the provider returned and the object
    after the call; [now] is the value read from [Date.now()]. *)
Definition getProvider (m : t) (now : Z) : nat * t :=
  let cur := currentIndex m in
  if usable m now cur then
    (cur, setLastUsed (<[cur := now]> (lastUsed m)) m)
  else
    match List.find (usable m now) (rotation m) with
    | Some idx =>
        (idx, setLastUsed (<[idx := now]> (lastUsed m)) (setCurrentIndex idx m))
    | None =>
        (0%nat,
         setLastUsed (<[0%nat := now]> (lastUsed m))
           (setCurrentIndex 0
              (setFailCounts (map (fun _ => 0%nat) (failCounts m)) m)))
    end.

(** [reportFailure()]; [now + cooldown] is when the timer registered by
    [setTimeout(..., RPC_COOLDOWN_MS)] falls due. *)
Definition reportFailure (cooldown : Z) (m : t) (now : Z) : t :=
  let cur := currentIndex m in
  let m1 := setFailCounts (alter S cur (failCounts m)) m in
  match failCounts m1 !! cur with
  | Some c =>
      if (3 <=? c)%nat then
        setCurrentIndex ((cur + 1) mod providersLength m)%nat
          (setCooldownTimers (cooldownTimers m1 ++ [now + cooldown])
             (setHealthStatus (<[cur := false]> (healthStatus m1)) m1))
      else m1
  | None => m1
  end.

(** The body of the timer callback: it reads [this.currentIndex] when it
    runs. *)
Definition cooldownCallback (m : t) : t :=
  setFailCounts (<[currentIndex m := 0%nat]> (failCounts m))
    (setHealthStatus (<[currentIndex m := true]> (healthStatus m)) m).

(** The event loop at time [now]: every timer that is due runs its
    callback and is removed. *)
Definition runTimers (m : t) (now : Z) : t :=
  let due := filter (fun d => d <= now) (cooldownTimers m) in
  let pending := filter (fun d => now < d) (cooldownTimers m) in
  fold_left (fun acc _ => cooldownCallback acc) due (setCooldownTimers pending m).

(** [reportSuccess()] *)
Definition reportSuccess (m : t) : t :=
  setFailCounts (<[currentIndex m := 0%nat]> (failCounts m)) m.

(** One turn of the loop of [_checkHealth()]: [reachable] tells whether
    endpoint [i] answered the block number request before the timeout of
    five seconds. *)
Definition probe (reachable : bool) (i : nat) (m : t) : t :=
  setHealthStatus (<[i := reachable]> (healthStatus m)) m.

(** [_checkHealth()], for the answers [reachable i] of the endpoints. *)
Definition _checkHealth (reachable : nat -> bool) (m : t) : t :=
  fold_left (fun acc i => probe (reachable i) i acc) (seq 0 (providersLength m)) m.

(** The wait before the next attempt of [getGasPrice()]:
    [Math.min(1000 * Math.pow(2, attempts - 1), 10000)], computed after
    [attempts++]. *)
Definition waitTime (attempts : nat) : Z :=
  Z.min (1000 * 2 ^ (Z.of_nat attempts - 1)) 10000.

(** [ethers.utils.parseUnits('5', 'gwei')] *)
Definition defaultGasPrice : N := 5000000000%N.

(** The outside world of the pool, over a state [E] that every call may
    change: the clock, the gas price request of one endpoint raced against
    the timeout of [RPC_TIMEOUT_MS], and the wait between two attempts. *)
Record Endpoints (E : Type) : Type := mkEndpoints {
  clock : E -> Z * E;
  requestGasPrice : nat -> E -> Res N * E;
  sleep : Z -> E -> E
}.
Arguments clock {E} _ _.
Arguments requestGasPrice {E} _ _ _.
Arguments sleep {E} _ _ _.

Section WithEndpoints.
Context {E : Type} (rpc : Endpoints E).
Context (RPC_RETRY_COUNT : nat) (RPC_COOLDOWN_MS : Z).

(** [await this.getProvider()], with the clock read by [Date.now()]. *)
Definition selectProvider : M (t * E) nat :=
  fun s =>
    let (now, e) := clock rpc s.2 in
    let (idx, m) := getProvider s.1 now in
    (Ok idx, (m, e)).

(** [Promise.race([provider.getGasPrice(), timeoutPromise])] *)
Definition raceGasPrice (idx : nat) : M (t * E) N :=
  fun s => let (r, e) := requestGasPrice rpc idx s.2 in (r, (s.1, e)).

(** [this.reportFailure()]; the clock gives the time at which [setTimeout]
    registers the cooldown timer. *)
Definition recordFailure : M (t * E) unit :=
  fun s =>
    let (now, e) := clock rpc s.2 in
    (Ok tt, (reportFailure RPC_COOLDOWN_MS s.1 now, e)).

(** The loop [while (attempts < RPC_RETRY_COUNT)] of [getGasPrice()],
    counted by the attempts that are left: [attempts] is
    [RPC_RETRY_COUNT - remaining].  [None] is the value [undefined] of a call
    that leaves the loop without a [return]. *)
Fixpoint retryGasPrice (remaining : nat) : M (t * E) (option N) :=
  match remaining with
  | O => ret None
  | S remaining =>
      let* answer :=
        catchNull
          (let* idx := selectProvider in
           let* gasPrice := raceGasPrice idx in
           modify (fun s => (reportSuccess s.1, s.2)) ;;;
           ret gasPrice) in
      match answer with
      | Some gasPrice => ret (Some gasPrice)
      | None =>
          let attempts := (RPC_RETRY_COUNT - remaining)%nat in
          recordFailure ;;;
          if (attempts <? RPC_RETRY_COUNT)%nat then
            modify (fun s => (s.1, sleep rpc (waitTime attempts) s.2)) ;;;
            retryGasPrice remaining
          else ret (Some defaultGasPrice)
      end
  end.

(** [getGasPrice()] *)
Definition getGasPrice : M (t * E) (option N) := retryGasPrice RPC_RETRY_COUNT.

End WithEndpoints.

(** A pool as the constructor builds it from a primary and one backup. *)
Definition freshPool : t :=
  mk ["https://bsc-dataseed.binance.org/"; "https://bsc-dataseed1.defibit.io/"]
     0 [0; 0]%nat [0; 0] [true; true] [].

(** A pool of three endpoints in the middle of a run: the selected endpoint
    has failed three times, and the next one was used 100 ms before time 1000. *)
Definition busyPool : t :=
  mk ["https://bsc-dataseed.binance.org/"; "https://bsc-dataseed1.defibit.io/";
      "https://bsc-dataseed1.ninicoin.io/"]
     0 [3; 0; 0]%nat [0; 900; 0] [false; true; true] [].

End RPCManager.

(** ** The outside world and the mutable state of the services *)

Inductive Exchange : Type := PancakeSwap | BiSwap.

Record CacheEntry : Type := mkCacheEntry {
  price : float;
  timestamp : Z
}.

Record NetworkHealth : Type := mkNetworkHealth {
  lastCheckTime : Z;
  isHealthy : bool;
  failedAttempts : nat;
  gasPrice : N
}.

Record FeeParameters : Type := mkFeeParameters {
  pancakeSwapFeeNumerator : N;
  pancakeSwapFeeDenominator : N;
  biswapFeeNumerator : N;
  biswapFeeDenominator : N
}.

Record TokenDetails : Type := mkTokenDetails {
  address : string;
  decimals : nat;
  symbol : string;
  name : string
}.

Record ArbitrageData : Type := mkArbitrageData {
  path1 : list string;
  path2 : list string;
  path3 : list string;
  minAmountsOut : list N;
  direction : bool
}.

(** The four fee getters of the flash-arbitrage contract. *)
Inductive FeeGetter : Type :=
| PancakeSwapFeeNumerator
| PancakeSwapFeeDenominator
| BiswapFeeNumerator
| BiswapFeeDenominator.

(** The values of config/constants.js that the modelled code reads. *)
Record Constants : Type := mkConstants {
  MIN_PROFIT_PERCENTAGE : float;
  GAS_LIMIT : N;
  BUSD : string;
  USDT : string;
  USDC : string;
  DAI : string;
  WBNB : string
}.

(** The collaborators outside the process, over a state [E] of the outside
    world that every call may change: the clock, the two routers, the
    provider, the flash-arbitrage contract and the token contracts.  The last
    two fields are the pure conversions of the ethers library:
    [formatUnits x d] is [parseFloat(ethers.utils.formatUnits(x, d))] and
    [parseUnits a d] is [ethers.utils.parseUnits(a.toString(), d)]. *)
Record Chain (E : Type) : Type := mkChain {
  dateNow : E -> Z * E;
  getAmountsOut : Exchange -> N -> list string -> E -> Res (list N) * E;
  providerGetGasPrice : E -> Res N * E;
  checkArbitrageProfitability : ArbitrageData -> N -> bool -> E -> Res (list N) * E;
  contractFee : FeeGetter -> E -> Res N * E;
  tokenDecimals : string -> E -> Res nat * E;
  tokenSymbol : string -> E -> Res string * E;
  tokenName : string -> E -> Res string * E;
  formatUnits : N -> nat -> float;
  parseUnits : float -> nat -> Res N
}.
Arguments dateNow {E} _ _.
Arguments getAmountsOut {E} _ _ _ _ _.
Arguments providerGetGasPrice {E} _ _.
Arguments checkArbitrageProfitability {E} _ _ _ _ _.
Arguments contractFee {E} _ _ _.
Arguments tokenDecimals {E} _ _ _.
Arguments tokenSymbol {E} _ _ _.
Arguments tokenName {E} _ _ _.
Arguments formatUnits {E} _ _ _.
Arguments parseUnits {E} _ _ _.

(** The fields of PriceService, NetworkService, ProfitCalculator and
    TokenService, with the state of the outside world.  The price cache is
    keyed by the token address: the source key is the address followed by the
    fixed suffix [:USD]. *)
Record World (E : Type) : Type := mkWorld {
  env : E;
  bnbPrice : float;
  lastUpdated : Z;
  priceCache : gmap string CacheEntry;
  networkHealth : NetworkHealth;
  feeParameters : FeeParameters;
  tokenCache : gmap string TokenDetails
}.
Arguments mkWorld {E} _ _ _ _ _ _ _.
Arguments env {E} _.
Arguments bnbPrice {E} _.
Arguments lastUpdated {E} _.
Arguments priceCache {E} _.
Arguments networkHealth {E} _.
Arguments feeParameters {E} _.
Arguments tokenCache {E} _.

Section WorldUpdates.
Context {E : Type}.

Definition setEnv (e : E) (w : World E) : World E :=
  mkWorld e (bnbPrice w) (lastUpdated w) (priceCache w) (networkHealth w)
    (feeParameters w) (tokenCache w).
Definition setBnbPrice (p : float) (w : World E) : World E :=
  mkWorld (env w) p (lastUpdated w) (priceCache w) (networkHealth w)
    (feeParameters w) (tokenCache w).
Definition setLastUpdated (t : Z) (w : World E) : World E :=
  mkWorld (env w) (bnbPrice w) t (priceCache w) (networkHealth w)
    (feeParameters w) (tokenCache w).
Definition setPriceCache (c : gmap string CacheEntry) (w : World E) : World E :=
  mkWorld (env w) (bnbPrice w) (lastUpdated w) c (networkHealth w)
    (feeParameters w) (tokenCache w).
Definition setNetworkHealth (h : NetworkHealth) (w : World E) : World E :=
  mkWorld (env w) (bnbPrice w) (lastUpdated w) (priceCache w) h
    (feeParameters w) (tokenCache w).
Definition setFeeParameters (f : FeeParameters) (w : World E) : World E :=
  mkWorld (env w) (bnbPrice w) (lastUpdated w) (priceCache w) (networkHealth w)
    f (tokenCache w).
Definition setTokenCache (c : gmap string TokenDetails) (w : World E) : World E :=
  mkWorld (env w) (bnbPrice w) (lastUpdated w) (priceCache w) (networkHealth w)
    (feeParameters w) c.

(** A call to a collaborator: it reads and advances the outside world. *)
Definition call {A} (f : E -> Res A * E) : M (World E) A :=
  fun w => let (r, e') := f (env w) in (r, setEnv e' w).

(** A call that cannot fail, such as [Date.now()]. *)
Definition callTotal {A} (f : E -> A * E) : M (World E) A :=
  fun w => let (a, e') := f (env w) in (Ok a, setEnv e' w).

(** A computation that neither reads nor writes the fee parameters: run
    from a state with other fee parameters it gives the same result and the
    same final state, but for the fee parameters. *)
Definition feeFrame {A} (m : M (World E) A) : Prop :=
  forall F w, m (setFeeParameters F w) = ((m w).1, setFeeParameters F (m w).2).

End WorldUpdates.

(** ** The network condition monitor (class NetworkService) *)

Module NetworkService.

(** [Math.floor] of a number, as an integer; [None] for NaN and the
    infinities. *)
Definition mathFloor (x : float) : option Z :=
  match Prim2SF x with
  | S754_zero _ => Some 0
  | S754_finite s m e =>
      let v := if s then Z.neg m else Z.pos m in
      Some (if 0 <=? e then v * 2 ^ e else v / 2 ^ (- e))
  | S754_infinity _ => None
  | S754_nan => None
  end.

(** The conversion that [BigNumber.mul] applies to a number argument:
    ethers refuses NaN, the infinities and every number outside the safe
    integers. *)
Definition bigNumberFrom (x : option Z) : Res Z :=
  match x with
  | Some k =>
      if (k <? 9007199254740991) && (-9007199254740991 <? k) then Ok k
      else Throw "overflow"
  | None => Throw "invalid BigNumber value"
  end.

(** [price.mul(Math.floor(multiplier * 100)).div(100)] *)
Definition withBuffer (price : N) (multiplier : float) : Res N :=
  match bigNumberFrom (mathFloor (multiplier * 100)%float) with
  | Ok k => Ok (Z.to_N (Z.quot (Z.of_N price * k) 100))
  | Throw e => Throw e
  end.

(** The reading of the specification: the multiplier rounded to two
    fractional digits, counted in hundredths, is the integer nearest to one
    hundred times the multiplier; the returned amount is the price times the
    rounded multiplier. *)
Definition roundedHundredths (multiplier : float) : option Z :=
  match Prim2SF multiplier with
  | S754_zero _ => Some 0
  | S754_finite s m e =>
      let v := (if s then Z.neg m else Z.pos m) * 100 in
      Some (if 0 <=? e then v * 2 ^ e else (2 * v + 2 ^ (- e)) / (2 * 2 ^ (- e)))
  | S754_infinity _ => None
  | S754_nan => None
  end.

Definition statedBuffer (price returned : N) (multiplier : float) : Prop :=
  exists h, roundedHundredths multiplier = Some h /\
            Z.of_N returned * 100 = Z.of_N price * h.

Section WithChain.
Context {E : Type} (chain : Chain E).

Definition setGasPrice (p : N) (w : World E) : World E :=
  let h := networkHealth w in
  setNetworkHealth
    (mkNetworkHealth (lastCheckTime h) (isHealthy h) (failedAttempts h) p) w.

(** [getGasPrice(multiplier = 1.1)] *)
Definition getGasPrice (multiplier : float) : M (World E) N :=
  tryCatch
    (let* now := callTotal (dateNow chain) in
     let* w := get in
     if now - lastCheckTime (networkHealth w) <? 2 * 60 * 1000 then
       let price := gasPrice (networkHealth w) in
       if (1 <? multiplier)%float then liftRes (withBuffer price multiplier)
       else ret price
     else
       let* gasPrice := call (providerGetGasPrice chain) in
       modify (setGasPrice gasPrice) ;;;
       if (1 <? multiplier)%float then liftRes (withBuffer gasPrice multiplier)
       else ret gasPrice)
    (fun _ => let* w := get in ret (gasPrice (networkHealth w))).

(** The object [this.networkHealth] with one field replaced. *)
Definition setLastCheckTime (now : Z) (w : World E) : World E :=
  let h := networkHealth w in
  setNetworkHealth (mkNetworkHealth now (isHealthy h) (failedAttempts h) (gasPrice h)) w.
Definition setIsHealthy (b : bool) (w : World E) : World E :=
  let h := networkHealth w in
  setNetworkHealth (mkNetworkHealth (lastCheckTime h) b (failedAttempts h) (gasPrice h)) w.
Definition setFailedAttempts (n : nat) (w : World E) : World E :=
  let h := networkHealth w in
  setNetworkHealth (mkNetworkHealth (lastCheckTime h) (isHealthy h) n (gasPrice h)) w.

(** [checkNetworkHealth()]; the ceiling [MAX_GAS_PRICE_GWEI] of
    config/constants.js is a parameter. *)
Definition checkNetworkHealth (MAX_GAS_PRICE_GWEI : float) : M (World E) bool :=
  tryCatch
    (let* gasPrice := call (providerGetGasPrice chain) in
     let gasPriceGwei := formatUnits chain gasPrice 9 in
     let* now := callTotal (dateNow chain) in
     modify (setLastCheckTime now) ;;;
     modify (setGasPrice gasPrice) ;;;
     (if (MAX_GAS_PRICE_GWEI <? gasPriceGwei)%float then
        modify (setIsHealthy false)
      else
        modify (setIsHealthy true) ;;;
        modify (setFailedAttempts 0)) ;;;
     let* w := get in
     ret (isHealthy (networkHealth w)))
    (fun _ =>
       modify (fun w => setFailedAttempts (failedAttempts (networkHealth w) + 1) w) ;;;
       let* w := get in
       (if (3 <=? failedAttempts (networkHealth w))%nat then modify (setIsHealthy false)
        else ret tt) ;;;
       ret false).

(** [isNetworkReadyForArbitrage()] *)
Definition isNetworkReadyForArbitrage (MAX_GAS_PRICE_GWEI : float) : M (World E) bool :=
  let* now := callTotal (dateNow chain) in
  let* w := get in
  (if 5 * 60 * 1000 <? now - lastCheckTime (networkHealth w) then
     checkNetworkHealth MAX_GAS_PRICE_GWEI ;;; ret tt
   else ret tt) ;;;
  let* w := get in
  ret (isHealthy (networkHealth w)).

End WithChain.

End NetworkService.

(** ** The market data service (class PriceService) *)

Module PriceService.
Section WithChain.
Context {E : Type} (chain : Chain E) (K : Constants).

(** [updateBnbPrice()]: one WBNB quoted in BUSD on PancakeSwap. *)
Definition updateBnbPrice : M (World E) float :=
  tryCatch
    (let* amounts :=
       call (getAmountsOut chain PancakeSwap (10 ^ 18)%N [WBNB K; BUSD K]) in
     match amounts !! 1%nat with
     | Some a =>
         let bnbPrice := formatUnits chain a 18 in
         modify (setBnbPrice bnbPrice) ;;;
         let* now := callTotal (dateNow chain) in
         modify (setLastUpdated now) ;;;
         ret bnbPrice
     | None => throw "invalid BigNumber value"
     end)
    (fun _ => let* w := get in ret (bnbPrice w)).

Definition isStablecoin (tokenAddress : string) : bool :=
  bool_decide (tokenAddress = BUSD K) || bool_decide (tokenAddress = USDT K) ||
  bool_decide (tokenAddress = USDC K) || bool_decide (tokenAddress = DAI K).

(** [if (Date.now() - this.lastUpdated > 10 * 60 * 1000) await this.updateBnbPrice()] *)
Definition refreshBnbPriceIfStale : M (World E) unit :=
  let* now := callTotal (dateNow chain) in
  let* w := get in
  if 10 * 60 * 1000 <? now - lastUpdated w then updateBnbPrice ;;; ret tt
  else ret tt.

(** [this.priceCache.set(cacheKey, { price, timestamp: Date.now() })] *)
Definition cachePrice (tokenAddress : string) (price : float) : M (World E) unit :=
  let* now := callTotal (dateNow chain) in
  modify (fun w =>
    setPriceCache (<[tokenAddress := mkCacheEntry price now]> (priceCache w)) w).

(** The cache test that opens [getTokenPriceUSD]: the clock is read only
    when there is an entry. *)
Definition cachedPrice (tokenAddress : string) : M (World E) (option float) :=
  let* w := get in
  match priceCache w !! tokenAddress with
  | Some c =>
      let* now := callTotal (dateNow chain) in
      ret (if now - timestamp c <? 5 * 60 * 1000 then Some (price c) else None)
  | None => ret None
  end.

(** [getTokenPriceUSD(tokenAddress, decimals = 18)] *)
Definition getTokenPriceUSD (tokenAddress : string) (decimals : nat)
  : M (World E) float :=
  let* hit := cachedPrice tokenAddress in
  match hit with
  | Some p => ret p
  | None =>
    tryCatch
      (if isStablecoin tokenAddress then ret 1%float
       else if bool_decide (tokenAddress = WBNB K) then
         refreshBnbPriceIfStale ;;;
         let* w := get in ret (bnbPrice w)
       else
         let amountIn := (10 ^ N.of_nat decimals)%N in
         let* amounts :=
           catchNull (call (getAmountsOut chain PancakeSwap amountIn
                              [tokenAddress; BUSD K])) in
         match amounts ≫= (fun l => l !! 1%nat) with
         | Some a =>
             let price := formatUnits chain a 18 in
             cachePrice tokenAddress price ;;;
             ret price
         | None =>
             let* bnbAmounts :=
               catchNull (call (getAmountsOut chain PancakeSwap amountIn
                                  [tokenAddress; WBNB K])) in
             match bnbAmounts ≫= (fun l => l !! 1%nat) with
             | Some b =>
                 refreshBnbPriceIfStale ;;;
                 let bnbValue := formatUnits chain b 18 in
                 let* w := get in
                 let price := (bnbValue * bnbPrice w)%float in
                 cachePrice tokenAddress price ;;;
                 ret price
             | None => ret 0%float
             end
         end)
      (fun _ => ret 0%float)
  end.

(** [convertToUSD(amount, tokenAddress, decimals = 18)] *)
Definition convertToUSD (amount : N) (tokenAddress : string) (decimals : nat)
  : M (World E) float :=
  let amountFloat := formatUnits chain amount decimals in
  let* price := getTokenPriceUSD tokenAddress decimals in
  ret (amountFloat * price)%float.

(** The state of the cache that every run keeps: the stablecoins and the
    wrapped native asset have no entry, because their prices are returned
    before the code that stores an entry. *)
Definition cacheClean (w : World E) : Prop :=
  forall t, isStablecoin t = true \/ t = WBNB K -> priceCache w !! t = None.

End WithChain.

(** A quote that gives no price: the call is rejected, or the array of
    amounts has fewer than two entries. *)
Definition noQuote (r : Res (list N)) : Prop :=
  match r with
  | Ok amounts => amounts !! 1%nat = None
  | Throw _ => True
  end.

End PriceService.

(** ** Token metadata (class TokenService) *)

Module TokenService.
Section WithChain.
Context {E : Type} (chain : Chain E).

(** [getTokenDetails(tokenAddress)] *)
Definition getTokenDetails (tokenAddress : string) : M (World E) TokenDetails :=
  let* w := get in
  match tokenCache w !! tokenAddress with
  | Some details => ret details
  | None =>
      tryCatch
        (let* decimals := call (tokenDecimals chain tokenAddress) in
         let* symbol := call (tokenSymbol chain tokenAddress) in
         let* name :=
           tryCatch (call (tokenName chain tokenAddress)) (fun _ => ret symbol) in
         let details := mkTokenDetails tokenAddress decimals symbol name in
         modify (fun w => setTokenCache (<[tokenAddress := details]> (tokenCache w)) w) ;;;
         ret details)
        (fun _ => ret (mkTokenDetails tokenAddress 18 "UNKNOWN" "Unknown Token"))
  end.

End WithChain.
End TokenService.

(** ** The profitability evaluator (class ProfitCalculator) *)

Module ProfitCalculator.

(** The object returned by [calculateProfit] when no exception was raised. *)
Record Breakdown : Type := mkBreakdown {
  expectedProfit : N;
  expectedPlatformFee : N;
  expectedUserProfit : N;
  profitUSD : float;
  netProfitUSD : float;
  gasCostUSD : float;
  loanAmountUSD : float;
  profitPercentage : float;
  isProfit : bool
}.

(** [Rejected message] is the object [{ isProfit: false, error: message }]
    built by the [catch] block. *)
Inductive ProfitResult : Type :=
| Evaluated (b : Breakdown)
| Rejected (error : string).

(** [BigNumber.div], which throws on a zero divisor. *)
Definition bnDiv (a b : N) : Res N :=
  if (b =? 0)%N then Throw "division-by-zero" else Ok (a / b)%N.

(** [loanAmount.mul(numerator).div(denominator).add(1)] *)
Definition flashLoanFeeOf (loanAmount numerator denominator : N) : Res N :=
  match bnDiv (loanAmount * numerator) denominator with
  | Ok q => Ok (q + 1)%N
  | Throw e => Throw e
  end.

(** The buffer [1.1] passed to [getGasPrice], as the double it denotes. *)
Definition gasBuffer : float := 0x1.199999999999ap+0%float.

(** The arithmetic of the last part of [calculateProfit], on the three
    converted values. *)
Definition netProfitOf (profitUSD gasCostUSD : float) : float :=
  (profitUSD - gasCostUSD)%float.

Definition profitPercentageOf (netProfitUSD loanAmountUSD : float) : float :=
  if (0 <? loanAmountUSD)%float then (netProfitUSD / loanAmountUSD * 100)%float
  else 0%float.

(** The denominator that [calculateProfit] divides by. *)
Definition selectedDenominator (fromPancake : bool) (fees : FeeParameters) : N :=
  if fromPancake then pancakeSwapFeeDenominator fees else biswapFeeDenominator fees.

Section WithChain.
Context {E : Type} (chain : Chain E) (K : Constants).

(** [updateFeeParameters()] *)
Definition updateFeeParameters : M (World E) unit :=
  tryCatch
    (let* pn := call (contractFee chain PancakeSwapFeeNumerator) in
     let* pd := call (contractFee chain PancakeSwapFeeDenominator) in
     let* bn := call (contractFee chain BiswapFeeNumerator) in
     let* bd := call (contractFee chain BiswapFeeDenominator) in
     modify (setFeeParameters (mkFeeParameters pn pd bn bd)))
    (fun _ => ret tt).

(** [calculateProfit(arbitrageData, loanAmount, fromPancake, tokenADetails)] *)
Definition calculateProfit (arbitrageData : ArbitrageData) (loanAmount : N)
    (fromPancake : bool) (tokenADetails : TokenDetails)
  : M (World E) ProfitResult :=
  tryCatch
    (let* profitabilityResult :=
       call (checkArbitrageProfitability chain arbitrageData loanAmount fromPancake) in
     match profitabilityResult with
     | [expectedProfit; expectedPlatformFee; expectedUserProfit] =>
         let* gasPrice := NetworkService.getGasPrice chain gasBuffer in
         let gasCostWei := (gasPrice * GAS_LIMIT K)%N in
         let gasCostBNB := formatUnits chain gasCostWei 18 in
         let* w := get in
         let gasCostUSD := (gasCostBNB * bnbPrice w)%float in
         let fees := feeParameters w in
         let* flashLoanFee :=
           liftRes
             (if fromPancake then
                flashLoanFeeOf loanAmount (pancakeSwapFeeNumerator fees)
                  (pancakeSwapFeeDenominator fees)
              else
                flashLoanFeeOf loanAmount (biswapFeeNumerator fees)
                  (biswapFeeDenominator fees)) in
         let* profitUSD :=
           PriceService.convertToUSD chain K expectedUserProfit
             (address tokenADetails) (decimals tokenADetails) in
         let* loanAmountUSD :=
           PriceService.convertToUSD chain K loanAmount
             (address tokenADetails) (decimals tokenADetails) in
         let netProfitUSD := netProfitOf profitUSD gasCostUSD in
         let profitPercentage := profitPercentageOf netProfitUSD loanAmountUSD in
         ret (Evaluated
                (mkBreakdown expectedProfit expectedPlatformFee expectedUserProfit
                   profitUSD netProfitUSD gasCostUSD loanAmountUSD profitPercentage
                   (MIN_PROFIT_PERCENTAGE K <=? profitPercentage)%float))
     | _ =>
         throw ("Invalid profitability result for " +:+ symbol tokenADetails)
     end)
    (fun message => ret (Rejected message)).

(** [isProfitable(profitResult)]: an object with a non-empty [error] is
    refused at once, and one with an empty [error] has [isProfit] false. *)
Definition isProfitable (profitResult : ProfitResult) : bool :=
  match profitResult with
  | Rejected _ => false
  | Evaluated b =>
      isProfit b && (MIN_PROFIT_PERCENTAGE K <=? profitPercentage b)%float
  end.

End WithChain.
End ProfitCalculator.

(** ** The triangular arbitrage scanner (class ArbitrageChecker) *)

Module ArbitrageChecker.
Import ProfitCalculator.

(** One entry of config/pairs.js.  [tokens] keeps the order of the keys of
    the source object; the keys of the two pair tables, written [X-Y] in the
    source, are kept split at the dash. *)
Record PairConfig : Type := mkPairConfig {
  pairName : string;
  tokens : list (string * string);
  pancakeswapPairs : list ((string * string) * string);
  biswapPairs : list ((string * string) * string);
  priority : nat;
  testAmounts : option (list float)
}.

(** The object that [calculateSwapOutputs] returns with [success: true]. *)
Record SwapOutputs : Type := mkSwapOutputs {
  amountOut1 : N;
  amountOut2 : N;
  amountOut3 : N;
  swapLoanAmount : N
}.

Record Opportunity : Type := mkOpportunity {
  pairConfig : PairConfig;
  flashLoanPair : string;
  tokenA : string;
  tokenB : string;
  tokenC : string;
  tokenADetails : TokenDetails;
  tokenBDetails : TokenDetails;
  tokenCDetails : TokenDetails;
  loanAmount : N;
  arbitrageData : ArbitrageData;
  profitResult : ProfitResult;
  oppDirection : bool;
  directionReversed : bool;
  priceGap : N
}.

(** The four variables that hold the best candidate of the sweep. *)
Record Best : Type := mkBest {
  bestResult : option SwapOutputs;
  bestLoanAmount : N;
  bestMinAmountsOut : list N;
  bestProfitResult : option ProfitResult
}.

Definition noBest : Best := mkBest None 0%N [0%N; 0%N; 0%N] None.

(** [profitResult.profitPercentage]; the field is missing from a rejected
    result, and a missing field compares as NaN. *)
Definition percentageOf (r : ProfitResult) : float :=
  match r with
  | Evaluated b => profitPercentage b
  | Rejected _ => nan
  end.

(** [pairConfig.tokens[key]] *)
Definition tokenOf (tokens : list (string * string)) (key : string) : option string :=
  snd <$> List.find (fun kv => bool_decide (kv.1 = key)) tokens.

(** The loop over the keys of a pair table that looks for the pair of
    [tokenA] and [tokenB], in either order. *)
Definition findFlashLoanPair (tokens : list (string * string))
    (pairs : list ((string * string) * string)) (tokenA tokenB : string)
  : option string :=
  snd <$>
    List.find
      (fun entry =>
         let '(token1, token2) := entry.1 in
         (bool_decide (tokenOf tokens token1 = Some tokenA) &&
          bool_decide (tokenOf tokens token2 = Some tokenB)) ||
         (bool_decide (tokenOf tokens token1 = Some tokenB) &&
          bool_decide (tokenOf tokens token2 = Some tokenA)))
      pairs.

(** The reading of the specification: the gap between the two cycle outputs
    is |priceA - priceB| / priceA * 100, a rational number. *)
Definition exactGap (priceA priceB : N) : Q :=
  (Qabs (inject_Z (Z.of_N priceA) - inject_Z (Z.of_N priceB))
   / inject_Z (Z.of_N priceA) * 100)%Q.

(** [if (priceGap >= 5.0) direction = !direction] *)
Definition chooseDirection (direction : bool) (priceGap : N) : bool :=
  if (5 <=? priceGap)%N then negb direction else direction.

(** [x.mul(99).div(100)] *)
Definition minAmountOut (amountOut : N) : N := (amountOut * 99 / 100)%N.

(** The symbol test [symbol.includes('USD')]. *)
Fixpoint includes (needle s : string) : bool :=
  String.prefix needle s ||
  match s with
  | EmptyString => false
  | String _ rest => includes needle rest
  end.

(** The test amounts used when the pair has none configured. *)
Definition defaultTestAmounts (symbol : string) : list float :=
  if includes "USD" symbol then [1000; 10000; 50000; 100000]%float
  else [0.5; 1; 2; 5]%float.

(** [testAmounts.map(amount => parseUnits(amount.toString(), decimals))] *)
Fixpoint mapRes {A B} (f : A -> Res B) (l : list A) : Res (list B) :=
  match l with
  | [] => Ok []
  | x :: rest =>
      match f x with
      | Throw e => Throw e
      | Ok y =>
          match mapRes f rest with
          | Throw e => Throw e
          | Ok ys => Ok (y :: ys)
          end
      end
  end.

Section WithChain.
Context {E : Type} (chain : Chain E) (K : Constants).

(** The body of the loop of [checkTriangularPrice]. *)
Fixpoint triangularHops (router : Exchange) (amountOut : N) (path : list string)
  : M (World E) (option N) :=
  match path with
  | tokenIn :: rest =>
      match rest with
      | tokenOut :: _ =>
          let* amounts := call (getAmountsOut chain router amountOut [tokenIn; tokenOut]) in
          match amounts !! 1%nat with
          | Some out => triangularHops router out rest
          | None => ret None
          end
      | [] => ret (Some amountOut)
      end
  | [] => ret (Some amountOut)
  end.

(** [checkTriangularPrice(router, amountIn, path)] *)
Definition checkTriangularPrice (router : Exchange) (amountIn : N) (path : list string)
  : M (World E) (option N) :=
  tryCatch (triangularHops router amountIn path) (fun _ => ret None).

(** The percentage computed from the two cycle outputs, in whole percent:
    [pancakePrice.sub(biswapPrice).abs().mul(100).div(pancakePrice)]. *)
Definition percentageDiff (pancakePrice biswapPrice : N) : N :=
  (Z.to_N (Z.abs (Z.of_N pancakePrice - Z.of_N biswapPrice)) * 100 / pancakePrice)%N.

(** [checkPriceGap(tokenA, tokenB, tokenC, tokenADetails)].  The result is
    [parseFloat(formatUnits(percentageDiff, 0))], the number that denotes
    the integer [percentageDiff]; the model keeps the integer. *)
Definition checkPriceGap (tokenA tokenB tokenC : string) (tokenADetails : TokenDetails)
  : M (World E) N :=
  tryCatch
    (let testAmount := (10 ^ N.of_nat (decimals tokenADetails))%N in
     let* pancakePrice :=
       checkTriangularPrice PancakeSwap testAmount [tokenA; tokenB; tokenC; tokenA] in
     let* biswapPrice :=
       checkTriangularPrice BiSwap testAmount [tokenA; tokenB; tokenC; tokenA] in
     match pancakePrice, biswapPrice with
     | Some p, Some b =>
         if (p =? 0)%N then ret 0%N else ret (percentageDiff p b)
     | _, _ => ret 0%N
     end)
    (fun _ => ret 0%N).

(** One hop of [calculateSwapOutputs]: the quote, the test on the length
    of the result, and the [catch] of that hop. *)
Definition quoteHop (router : Exchange) (amountIn : N) (path : list string)
  : M (World E) (option N) :=
  tryCatch
    (let* amounts := call (getAmountsOut chain router amountIn path) in
     ret (amounts !! 1%nat))
    (fun _ => ret None).

(** [calculateSwapOutputs(direction, loanAmount, path1, path2, path3, ...)];
    [None] is the object [{ success: false }]. *)
Definition calculateSwapOutputs (direction : bool) (loanAmount : N)
    (path1 path2 path3 : list string) : M (World E) (option SwapOutputs) :=
  let* amountOut1 :=
    quoteHop (if direction then PancakeSwap else BiSwap) loanAmount path1 in
  match amountOut1 with
  | None => ret None
  | Some amountOut1 =>
      let* amountOut2 :=
        quoteHop (if direction then BiSwap else PancakeSwap) amountOut1 path2 in
      match amountOut2 with
      | None => ret None
      | Some amountOut2 =>
          let* amountOut3 :=
            quoteHop (if direction then PancakeSwap else BiSwap) amountOut2 path3 in
          match amountOut3 with
          | None => ret None
          | Some amountOut3 =>
              ret (Some (mkSwapOutputs amountOut1 amountOut2 amountOut3 loanAmount))
          end
      end
  end.

(** The body of the loop over the loan amounts. *)
Definition sweepStep (direction : bool) (path1 path2 path3 : list string)
    (tokenADetails : TokenDetails) (best : Best) (loanAmount : N)
  : M (World E) Best :=
  let* result := calculateSwapOutputs direction loanAmount path1 path2 path3 in
  match result with
  | None => ret best
  | Some result =>
      let minAmountOut1 := minAmountOut (amountOut1 result) in
      let minAmountOut2 := minAmountOut (amountOut2 result) in
      let minAmountOut3 := minAmountOut (amountOut3 result) in
      if (minAmountOut1 =? 0)%N || (minAmountOut2 =? 0)%N || (minAmountOut3 =? 0)%N
      then ret best
      else
        let arbitrageData :=
          mkArbitrageData path1 path2 path3
            [minAmountOut1; minAmountOut2; minAmountOut3] direction in
        let* profitResult :=
          calculateProfit chain K arbitrageData loanAmount direction tokenADetails in
        if isProfitable K profitResult &&
           match bestProfitResult best with
           | None => true
           | Some bestSoFar =>
               (percentageOf bestSoFar <? percentageOf profitResult)%float
           end
        then
          ret (mkBest (Some result) loanAmount
                 [minAmountOut1; minAmountOut2; minAmountOut3] (Some profitResult))
        else ret best
  end.

(** [for (const loanAmount of loanAmounts) { ... }] *)
Fixpoint sweep (direction : bool) (path1 path2 path3 : list string)
    (tokenADetails : TokenDetails) (best : Best) (loanAmounts : list N)
  : M (World E) Best :=
  match loanAmounts with
  | [] => ret best
  | loanAmount :: rest =>
      let* best' := sweepStep direction path1 path2 path3 tokenADetails best loanAmount in
      sweep direction path1 path2 path3 tokenADetails best' rest
  end.

(** [checkArbitrageLoop(pairConfig, tokenA, tokenB, tokenC, direction)].
    The test of the three paths is left out: each is an array of two
    entries, so the test never fails. *)
Definition checkArbitrageLoop (pairConfig : PairConfig) (tokenA tokenB tokenC : string)
    (direction : bool) : M (World E) (option Opportunity) :=
  tryCatch
    (let* tokenADetails := TokenService.getTokenDetails chain tokenA in
     let* tokenBDetails := TokenService.getTokenDetails chain tokenB in
     let* tokenCDetails := TokenService.getTokenDetails chain tokenC in
     let* priceGap := checkPriceGap tokenA tokenB tokenC tokenADetails in
     let originalDirection := direction in
     let direction := chooseDirection direction priceGap in
     let path1 := [tokenA; tokenB] in
     let path2 := [tokenB; tokenC] in
     let path3 := [tokenC; tokenA] in
     let flashLoanPair :=
       findFlashLoanPair (tokens pairConfig)
         (if direction then pancakeswapPairs pairConfig else biswapPairs pairConfig)
         tokenA tokenB in
     match flashLoanPair with
     | None => ret None
     | Some flashLoanPair =>
         if bool_decide (flashLoanPair = EmptyString) then ret None
         else
           let testAmounts :=
             match testAmounts pairConfig with
             | Some amounts => amounts
             | None => defaultTestAmounts (symbol tokenADetails)
             end in
           let* loanAmounts :=
             liftRes (mapRes (fun amount => parseUnits chain amount (decimals tokenADetails))
                        testAmounts) in
           let* best := sweep direction path1 path2 path3 tokenADetails noBest loanAmounts in
           match bestProfitResult best with
           | Some bestProfit =>
               if isProfitable K bestProfit then
                 ret (Some
                        (mkOpportunity pairConfig flashLoanPair tokenA tokenB tokenC
                           tokenADetails tokenBDetails tokenCDetails
                           (bestLoanAmount best)
                           (mkArbitrageData path1 path2 path3
                              (bestMinAmountsOut best) direction)
                           bestProfit direction
                           (negb (Bool.eqb originalDirection direction)) priceGap))
               else ret None
           | None => ret None
           end
     end)
    (fun _ => ret None).

(** The address under the [i]-th key of [tokens], counted cyclically. *)
Definition tokenAt (tokens : list (string * string)) (i : nat) : string :=
  match tokens !! (i mod length tokens)%nat with
  | Some kv => kv.2
  | None => EmptyString
  end.

(** The loop of [checkTriangularArbitrage] over the start positions. *)
Fixpoint rotations (pairConfig : PairConfig) (direction : bool) (starts : list nat)
  : M (World E) (list Opportunity) :=
  match starts with
  | [] => ret []
  | i :: rest =>
      let* opportunity :=
        checkArbitrageLoop pairConfig
          (tokenAt (tokens pairConfig) i)
          (tokenAt (tokens pairConfig) (i + 1))
          (tokenAt (tokens pairConfig) (i + 2))
          direction in
      let* others := rotations pairConfig direction rest in
      ret (match opportunity with
           | Some o => o :: others
           | None => others
           end)
  end.

(** [checkTriangularArbitrage(pairConfig, direction)] *)
Definition checkTriangularArbitrage (pairConfig : PairConfig) (direction : bool)
  : M (World E) (list Opportunity) :=
  rotations pairConfig direction (seq 0 (length (tokens pairConfig))).

(** [opportunities.sort((a, b) => b.profitResult.profitPercentage -
    a.profitResult.profitPercentage)], as a stable insertion sort. *)
Fixpoint insertByProfit (o : Opportunity) (sorted : list Opportunity)
  : list Opportunity :=
  match sorted with
  | [] => [o]
  | o' :: rest =>
      if (percentageOf (profitResult o) <? percentageOf (profitResult o'))%float
      then o' :: insertByProfit o rest
      else o :: sorted
  end.

Definition sortByProfit (l : list Opportunity) : list Opportunity :=
  foldr insertByProfit [] l.

(** The loop of [checkArbitrageOpportunities] over the pairs. *)
Fixpoint scanPairs (tokenPairs : list PairConfig) : M (World E) (list Opportunity) :=
  match tokenPairs with
  | [] => ret []
  | pairConfig :: rest =>
      let* pancakeToBiswap := checkTriangularArbitrage pairConfig true in
      let* biswapToPancake := checkTriangularArbitrage pairConfig false in
      let* others := scanPairs rest in
      ret (pancakeToBiswap ++ biswapToPancake ++ others)
  end.

(** A candidate kept by the sweep: it passed [isProfitable], and its
    minimum outputs are 99 percent of the three outputs of one simulation of
    its loan amount and are not zero. *)
Definition bestSound (direction : bool) (path1 path2 path3 : list string) (best : Best)
  : Prop :=
  match bestProfitResult best with
  | None => True
  | Some profitResult =>
      isProfitable K profitResult = true /\
      exists (w0 w1 : World E) outs,
        calculateSwapOutputs direction (bestLoanAmount best) path1 path2 path3 w0
          = (Ok (Some outs), w1) /\
        bestMinAmountsOut best =
          [(amountOut1 outs * 99 / 100)%N; (amountOut2 outs * 99 / 100)%N;
           (amountOut3 outs * 99 / 100)%N] /\
        Forall (fun m => (0 < m)%N) (bestMinAmountsOut best)
  end.

(** What the scan promises of an opportunity that it returns. *)
Definition accepted (o : Opportunity) : Prop :=
  (exists b, profitResult o = Evaluated b /\
             (MIN_PROFIT_PERCENTAGE K <=? profitPercentage b)%float = true) /\
  exists (w0 w1 : World E) outs,
    calculateSwapOutputs (direction (arbitrageData o)) (loanAmount o)
      (path1 (arbitrageData o)) (path2 (arbitrageData o)) (path3 (arbitrageData o)) w0
      = (Ok (Some outs), w1) /\
    minAmountsOut (arbitrageData o) =
      [(amountOut1 outs * 99 / 100)%N; (amountOut2 outs * 99 / 100)%N;
       (amountOut3 outs * 99 / 100)%N] /\
    Forall (fun m => (0 < m)%N) (minAmountsOut (arbitrageData o)).

(** [checkArbitrageOpportunities(tokenPairs)] *)
Definition checkArbitrageOpportunities (tokenPairs : list PairConfig)
  : M (World E) (list Opportunity) :=
  let* opportunities := scanPairs tokenPairs in
  ret (sortByProfit opportunities).

(** A list in which no opportunity has a lower profit percentage than one
    that comes after it. *)
Fixpoint descending (l : list Opportunity) : Prop :=
  match l with
  | [] => True
  | o :: rest =>
      Forall (fun o' => (percentageOf (profitResult o') <=?
                         percentageOf (profitResult o))%float = true) rest /\
      descending rest
  end.

End WithChain.
End ArbitrageChecker.

(** ** The connection service (class ProviderService of services/provider.js) *)

Module ProviderService.

(** The argument of [new ethers.providers.JsonRpcProvider(url)]: a URL, or
    [undefined], for which ethers takes its default URL. *)
Inductive Target : Type :=
| Url (url : string)
| DefaultUrl.

(** The fields of the object; [provider] is [None] for [null] and otherwise
    names the endpoint the provider object was built for. *)
Record t : Type := mk {
  provider : option Target;
  failedAttempts : nat
}.

(** The object built by the constructor. *)
Definition created : t := mk None 0.

Definition setProvider (p : option Target) (s : t) : t := mk p (failedAttempts s).
Definition setFailedAttempts (n : nat) (s : t) : t := mk (provider s) n.

(** The answers of the endpoints, over a state [E] of the outside world. *)
Record Network (E : Type) : Type := mkNetwork {
  getNetwork : Target -> E -> Res unit * E;
  getBlockNumber : Target -> E -> Res N * E
}.
Arguments getNetwork {E} _ _ _.
Arguments getBlockNumber {E} _ _ _.

Section WithNetwork.
Context {E : Type} (network : Network E).
Context (BSC_RPC_URL : string) (BACKUP_RPC_URLS : list string).

Definition ask {A} (f : E -> Res A * E) : M (t * E) A :=
  fun s => let (r, e) := f s.2 in (r, (s.1, e)).

Definition update (f : t -> t) : M (t * E) unit :=
  modify (fun s => (f s.1, s.2)).

(** [this.provider = new ethers.providers.JsonRpcProvider(url);
     await this.provider.getNetwork()] *)
Definition connect (target : Target) : M (t * E) unit :=
  update (setProvider (Some target)) ;;;
  ask (getNetwork network target).

(** The loop of [initialize()] over the backup URLs, and the [throw] that
    follows it. *)
Fixpoint tryBackups (backupUrls : list string) : M (t * E) Target :=
  match backupUrls with
  | [] => throw "Could not connect to any RPC node"
  | backupUrl :: rest =>
      tryCatch (connect (Url backupUrl) ;;; ret (Url backupUrl))
        (fun _ => tryBackups rest)
  end.

(** [initialize()] *)
Definition initialize : M (t * E) Target :=
  tryCatch (connect (Url BSC_RPC_URL) ;;; ret (Url BSC_RPC_URL))
    (fun _ => tryBackups BACKUP_RPC_URLS).

(** [getProvider()] *)
Definition getProvider : M (t * E) Target :=
  let* s := get in
  match provider s.1 with
  | None => initialize
  | Some p => ret p
  end.

(** The endpoint that [reconnect()] tries when [this.failedAttempts], after
    its increment, is [attempt].  The remainder by the length of an empty
    list is NaN, and the entry read at NaN is [undefined]. *)
Definition reconnectTarget (attempt : nat) : Target :=
  if (attempt <=? 3)%nat then Url BSC_RPC_URL
  else
    match BACKUP_RPC_URLS !! ((attempt - 4) mod length BACKUP_RPC_URLS)%nat with
    | Some backupUrl => Url backupUrl
    | None => DefaultUrl
    end.

(** [reconnect()] *)
Definition reconnect : M (t * E) bool :=
  update (fun s => setFailedAttempts (failedAttempts s + 1) s) ;;;
  tryCatch
    (let* s := get in
     connect (reconnectTarget (failedAttempts s.1)) ;;;
     update (setFailedAttempts 0) ;;;
     ret true)
    (fun _ => ret false).

(** [checkHealth()] *)
Definition checkHealth : M (t * E) bool :=
  tryCatch
    (let* s := get in
     match provider s.1 with
     | None => ret false
     | Some p => ask (getBlockNumber network p) ;;; ret true
     end)
    (fun _ => ret false).

End WithNetwork.
End ProviderService.

(** ** The BiSwap pair table (config/pairs.js) *)

Module Pairs.

Record BiswapPair : Type := mkBiswapPair {
  pid : nat;
  symbolA : string;
  symbolB : string;
  pairAddress : string;
  percent : string;
  enabled : bool
}.

Definition BISWAP_PAIRS : list BiswapPair :=
  [mkBiswapPair 0 "USDT" "BUSD" "0xDA8ceb724A06819c0A5cDb4304ea0cB27F8304cF" "70" true;
   mkBiswapPair 1 "USDT" "WBNB" "0x8840C6252e2e86e545deFb6da98B2a0E26d8C1BA" "70" true;
   mkBiswapPair 2 "WBNB" "BUSD" "0xaCAac9311b0096E04Dfe96b6D87dec867d3883Dc" "70" true;
   mkBiswapPair 3 "USDT" "USDC" "0x1483767E665B3591677Fd49F724bf7430C18Bf83" "80" true;
   mkBiswapPair 4 "ETH" "USDT" "0x63b30de1A998e9E64FD58A21F68D323B9BcD8F85" "80" true;
   mkBiswapPair 5 "USDT" "BTCB" "0xa987f0b7098585c735cD943ee07544a84e923d1D" "80" true;
   mkBiswapPair 6 "ETH" "BTCB" "0x6216E04cd40DB2c6FBEd64f1B5830A98D3A91740" "80" true;
   mkBiswapPair 7 "BTCB" "WBNB" "0xC7e9d76ba11099AF3F330ff829c5F442d571e057" "80" true;
   mkBiswapPair 8 "USDT" "BSW" "0x2b30c317ceDFb554Ec525F85E79538D59970BEb0" "49" true;
   mkBiswapPair 9 "BSW" "WBNB" "0x46492B26639Df0cda9b2769429845cb991591E0A" "49" true;
   mkBiswapPair 10 "Cake" "WBNB" "0x3d94d03eb9ea2D4726886aB8Ac9fc0F18355Fd13" "80" true;
   mkBiswapPair 21 "ETH" "WBNB" "0x5bf6941f029424674bb93A43b79fc46bF4A67c21" "80" true].

(** The search of [findBiswapPairAddress] in a table; [None] is [null]. *)
Definition findPairAddress (table : list BiswapPair) (a b : string) : option string :=
  pairAddress <$>
    List.find
      (fun p =>
         (bool_decide (symbolA p = a) && bool_decide (symbolB p = b)) ||
         (bool_decide (symbolA p = b) && bool_decide (symbolB p = a)))
      table.

(** [findBiswapPairAddress(symbolA, symbolB)] *)
Definition findBiswapPairAddress (a b : string) : option string :=
  findPairAddress BISWAP_PAIRS a b.

End Pairs.

(** ** The execution history and the statistics (class FileManager) *)

Module FileManager.

(** One entry of [performanceStats.profitByPair]. *)
Record PairStats : Type := mkPairStats {
  pairTotalProfit : float;
  trades : N
}.

(** The object [this.performanceStats].  [profitByPair] is keyed by the
    symbol of the borrowed token; the keys that name a member of
    [Object.prototype] are not token symbols and are left out of the
    model. *)
Record PerformanceStats : Type := mkPerformanceStats {
  totalProfit : float;
  totalFees : float;
  successfulTrades : N;
  failedTrades : N;
  startDate : string;
  statsLastUpdated : string;
  profitByPair : gmap string PairStats
}.

(** The record built by [executeArbitrage].  [borrowAmount] is the decimal
    string of the loan amount, kept as the amount and the number of decimals;
    a number field is [None] when the source stores [undefined];
    [succeeded] is the field [status], ['Success'] or ['Failed']. *)
Record ExecutionRecord : Type := mkExecutionRecord {
  recordTimestamp : string;
  txHash : string;
  recordTokenSymbol : string;
  borrowAmount : N * nat;
  recordProfitUSD : option float;
  recordProfitPercentage : option float;
  recordGasUsed : N;
  recordGasPrice : N;
  recordGasCostUSD : option float;
  succeeded : bool
}.

Record t : Type := mk {
  executionHistory : list ExecutionRecord;
  performanceStats : PerformanceStats
}.

Definition setExecutionHistory (h : list ExecutionRecord) (f : t) : t :=
  mk h (performanceStats f).
Definition setPerformanceStats (p : PerformanceStats) (f : t) : t :=
  mk (executionHistory f) p.

(** The statistics set by the constructor at the date [date], before the
    files are read. *)
Definition initialStats (date : string) : PerformanceStats :=
  mkPerformanceStats 0 0 0 0 date date ∅.

(** A number that may be [undefined], as an operand of [+=]. *)
Definition operand (x : option float) : float :=
  match x with
  | Some v => v
  | None => nan
  end.

(** The assignments of [updatePerformanceStats] before the file is
    written. *)
Definition recordTrade (pairName : string) (profitUSD gasCostUSD : option float)
    (success : bool) (p : PerformanceStats) : PerformanceStats :=
  if success then
    let entry := default (mkPairStats 0 0) (profitByPair p !! pairName) in
    mkPerformanceStats
      (totalProfit p + operand profitUSD)
      (totalFees p + operand gasCostUSD)
      (successfulTrades p + 1)
      (failedTrades p)
      (startDate p) (statsLastUpdated p)
      (<[pairName := mkPairStats (pairTotalProfit entry + operand profitUSD)
                       (trades entry + 1)]> (profitByPair p))
  else
    mkPerformanceStats
      (totalProfit p)
      (totalFees p + operand gasCostUSD)
      (successfulTrades p)
      (failedTrades p + 1)
      (startDate p) (statsLastUpdated p) (profitByPair p).

(** The number of trades recorded in the table of the pairs. *)
Definition tradesByPair (p : PerformanceStats) : N :=
  map_fold (fun _ entry total => (trades entry + total)%N) 0%N (profitByPair p).

(** The local machine, over a state [E] of the outside world: the date
    written by [new Date().toISOString()] and the two files written by
    [fs.writeFileSync]. *)
Record Disk (E : Type) : Type := mkDisk {
  toISOString : E -> string * E;
  writeHistoryFile : list ExecutionRecord -> E -> Res unit * E;
  writeStatsFile : PerformanceStats -> E -> Res unit * E
}.
Arguments toISOString {E} _ _.
Arguments writeHistoryFile {E} _ _ _.
Arguments writeStatsFile {E} _ _ _.

Section WithDisk.
Context {E : Type} (disk : Disk E).

(** [saveExecutionHistory()] *)
Definition saveExecutionHistory : M (t * E) unit :=
  tryCatch
    (fun s =>
       let (r, e) := writeHistoryFile disk (executionHistory s.1) s.2 in
       (r, (s.1, e)))
    (fun _ => ret tt).

(** [addExecutionRecord(record)] *)
Definition addExecutionRecord (record : ExecutionRecord) : M (t * E) unit :=
  modify (fun s => (setExecutionHistory (executionHistory s.1 ++ [record]) s.1, s.2)) ;;;
  saveExecutionHistory.

(** [savePerformanceStats()] *)
Definition savePerformanceStats : M (t * E) unit :=
  tryCatch
    (fun s =>
       let (date, e) := toISOString disk s.2 in
       let p := performanceStats s.1 in
       let p' :=
         mkPerformanceStats (totalProfit p) (totalFees p) (successfulTrades p)
           (failedTrades p) (startDate p) date (profitByPair p) in
       let (r, e') := writeStatsFile disk p' e in
       (r, (setPerformanceStats p' s.1, e')))
    (fun _ => ret tt).

(** [updatePerformanceStats(pairName, profitUSD, gasCostUSD, success)] *)
Definition updatePerformanceStats (pairName : string)
    (profitUSD gasCostUSD : option float) (success : bool) : M (t * E) unit :=
  modify (fun s =>
    (setPerformanceStats
       (recordTrade pairName profitUSD gasCostUSD success (performanceStats s.1)) s.1,
     s.2)) ;;;
  savePerformanceStats.

End WithDisk.
End FileManager.

(** ** The services and the file manager together *)

Record Runtime (E : Type) : Type := mkRuntime {
  services : World E;
  fileManager : FileManager.t
}.
Arguments mkRuntime {E} _ _.
Arguments services {E} _.
Arguments fileManager {E} _.

Section RuntimeLifts.
Context {E : Type}.

(** A method of a service, run among the services. *)
Definition inWorld {A} (m : M (World E) A) : M (Runtime E) A :=
  fun s => let (r, w) := m (services s) in (r, mkRuntime w (fileManager s)).

(** A method of the file manager. *)
Definition inFiles {A} (m : M (FileManager.t * E) A) : M (Runtime E) A :=
  fun s =>
    let (r, s') := m (fileManager s, env (services s)) in
    (r, mkRuntime (setEnv s'.2 (services s)) s'.1).

End RuntimeLifts.

(** ** The executor (class ArbitrageExecutor) *)

Module ArbitrageExecutor.
Import ProfitCalculator ArbitrageChecker FileManager.

(** The fields of the receipt of a mined transaction that the code
    reads. *)
Record Receipt : Type := mkReceipt {
  transactionHash : string;
  gasUsed : N;
  status : Z
}.

(** The flash-arbitrage contract, the WBNB contract and the wallet, over
    the state [E] of the outside world, with the two pure functions
    [ethers.utils.isAddress] and [String.prototype.toLowerCase].  A
    transaction is one call: the [await] of the send and the [await] of
    [tx.wait()]. *)
Record Contract (E : Type) : Type := mkContract {
  paused : E -> Res bool * E;
  authorizedPancakeswapPairs : string -> E -> Res bool * E;
  authorizedBiswapPairs : string -> E -> Res bool * E;
  owner : E -> Res string * E;
  updateAuthorizedPair : string -> bool -> bool -> E -> Res unit * E;
  executeFlashLoan : string -> N -> ArbitrageData -> bool -> N -> N -> E -> Res Receipt * E;
  wbnbBalanceOf : string -> E -> Res N * E;
  wbnbWithdraw : N -> E -> Res Receipt * E;
  walletAddress : string;
  isAddress : string -> bool;
  toLowerCase : string -> string
}.
Arguments paused {E} _ _.
Arguments authorizedPancakeswapPairs {E} _ _ _.
Arguments authorizedBiswapPairs {E} _ _ _.
Arguments owner {E} _ _.
Arguments updateAuthorizedPair {E} _ _ _ _ _.
Arguments executeFlashLoan {E} _ _ _ _ _ _ _ _.
Arguments wbnbBalanceOf {E} _ _ _.
Arguments wbnbWithdraw {E} _ _ _.
Arguments walletAddress {E} _.
Arguments isAddress {E} _ _.
Arguments toLowerCase {E} _ _.

(** The same collaborators with another flash-arbitrage entry point. *)
Definition withExecuteFlashLoan {E}
    (f : string -> N -> ArbitrageData -> bool -> N -> N -> E -> Res Receipt * E)
    (c : Contract E) : Contract E :=
  mkContract E (paused c) (authorizedPancakeswapPairs c) (authorizedBiswapPairs c)
    (owner c) (updateAuthorizedPair c) f (wbnbBalanceOf c) (wbnbWithdraw c)
    (walletAddress c) (isAddress c) (toLowerCase c).

(** A field of the profit result; [None] is [undefined], the value of a
    field that the object built by the [catch] block does not have. *)
Definition field (f : Breakdown -> float) (r : ProfitResult) : option float :=
  match r with
  | Evaluated b => Some (f b)
  | Rejected _ => None
  end.

(** [x.toFixed(2)] inside a log line: it throws on [undefined]. *)
Definition toFixed {S} (x : option float) : M S unit :=
  match x with
  | Some _ => ret tt
  | None => throw "Cannot read properties of undefined (reading 'toFixed')"
  end.

Section WithContract.
Context {E : Type} (chain : Chain E) (K : Constants).
Context (contract : Contract E) (disk : Disk E).

(** [isContractPaused()] *)
Definition isContractPaused : M (World E) bool :=
  tryCatch (call (paused contract)) (fun _ => ret true).

(** [isPairAuthorized(pairAddress, isPancakeswap)] *)
Definition isPairAuthorized (pairAddress : string) (isPancakeswap : bool)
  : M (World E) bool :=
  tryCatch
    (if isPancakeswap then call (authorizedPancakeswapPairs contract pairAddress)
     else call (authorizedBiswapPairs contract pairAddress))
    (fun _ => ret false).

(** [authorizePair(pairAddress, isPancakeswap)] *)
Definition authorizePair (pairAddress : string) (isPancakeswap : bool)
  : M (World E) bool :=
  tryCatch
    (let* contractOwner := call (owner contract) in
     if bool_decide (toLowerCase contract contractOwner
                     = toLowerCase contract (walletAddress contract))
     then
       call (updateAuthorizedPair contract pairAddress true isPancakeswap) ;;;
       ret true
     else ret false)
    (fun _ => ret false).

(** [convertWBNBtoBNB()] *)
Definition convertWBNBtoBNB : M (World E) bool :=
  tryCatch
    (let* wbnbBalance := call (wbnbBalanceOf contract (walletAddress contract)) in
     if (wbnbBalance =? 0)%N then ret false
     else
       let* receipt := call (wbnbWithdraw contract wbnbBalance) in
       ret (status receipt =? 1))
    (fun _ => ret false).

(** [path.length >= 2 && path.every((addr) => ethers.utils.isAddress(addr))] *)
Definition pathValid (path : list string) : bool :=
  (2 <=? length path)%nat && forallb (isAddress contract) path.

(** The end of the [try] block of [executeArbitrage], from the receipt of
    the mined transaction on: the record of the execution, the statistics,
    the conversion of a profit in WBNB and the value returned.  The two log
    lines that format a field of the profit result are kept, because they
    throw when the field is missing. *)
Definition recordExecution (opportunity : Opportunity) (gasPrice : N)
    (receipt : Receipt) : M (Runtime E) bool :=
  let loanAmount := loanAmount opportunity in
  let tokenADetails := tokenADetails opportunity in
  let profitResult := profitResult opportunity in
  let gasCostUSD := field ProfitCalculator.gasCostUSD profitResult in
  let* timestamp := inWorld (callTotal (toISOString disk)) in
  let executionRecord :=
    mkExecutionRecord timestamp (transactionHash receipt)
      (symbol tokenADetails) (loanAmount, decimals tokenADetails)
      (field ProfitCalculator.profitUSD profitResult)
      (field profitPercentage profitResult)
      (gasUsed receipt) gasPrice gasCostUSD (status receipt =? 1) in
  inFiles (addExecutionRecord disk executionRecord) ;;;
  inFiles (updatePerformanceStats disk (symbol tokenADetails)
             (field ProfitCalculator.profitUSD profitResult) gasCostUSD
             (status receipt =? 1)) ;;;
  (if status receipt =? 1 then
     toFixed (field ProfitCalculator.profitUSD profitResult) ;;;
     if bool_decide (symbol tokenADetails = "WBNB") then
       inWorld convertWBNBtoBNB ;;; ret tt
     else ret tt
   else ret tt) ;;;
  toFixed gasCostUSD ;;;
  ret (status receipt =? 1).

(** [executeArbitrage(opportunity)].  The tests of [arbitrageData] and of
    its four arrays for a missing value are left out: the values exist in
    every opportunity. *)
Definition executeArbitrage (opportunity : Opportunity) : M (Runtime E) bool :=
  tryCatch
    (let flashLoanPair := flashLoanPair opportunity in
     let loanAmount := loanAmount opportunity in
     let arbitrageData := arbitrageData opportunity in
     let direction := oppDirection opportunity in
     if bool_decide (flashLoanPair = EmptyString) || negb (isAddress contract flashLoanPair)
     then ret false
     else if (loanAmount =? 0)%N then ret false
     else if negb (pathValid (path1 arbitrageData)) ||
             negb (pathValid (path2 arbitrageData)) ||
             negb (pathValid (path3 arbitrageData))
     then ret false
     else
       let* isAuthorized := inWorld (isPairAuthorized flashLoanPair direction) in
       let* authSuccess :=
         if isAuthorized then ret true
         else inWorld (authorizePair flashLoanPair direction) in
       if negb authSuccess then ret false
       else
         let* isPaused := inWorld isContractPaused in
         if isPaused then ret false
         else
           let* gasPrice := inWorld (NetworkService.getGasPrice chain gasBuffer) in
           let* receipt :=
             inWorld (call (executeFlashLoan contract flashLoanPair loanAmount
                              arbitrageData direction (GAS_LIMIT K) gasPrice)) in
           recordExecution opportunity gasPrice receipt)
    (fun _ => ret false).

End WithContract.

(** What an execution that reached the chain leaves in the file manager:
    one more record, whose status is that of the receipt, and one more trade
    counted, successful or failed as the record says.  The value [returned]
    is true only for a successful record, and for an opportunity with an
    evaluated profit result it is the status of the record. *)
Definition recorded (opportunity : Opportunity) (before after : FileManager.t)
    (returned : bool) : Prop :=
  exists record,
    executionHistory after = executionHistory before ++ [record] /\
    (returned = true -> succeeded record = true) /\
    (forall b, profitResult opportunity = Evaluated b -> succeeded record = returned) /\
    successfulTrades (performanceStats after) =
      (successfulTrades (performanceStats before) +
       if succeeded record then 1 else 0)%N /\
    failedTrades (performanceStats after) =
      (failedTrades (performanceStats before) +
       if succeeded record then 0 else 1)%N /\
    (tradesByPair (performanceStats before) = successfulTrades (performanceStats before) ->
     tradesByPair (performanceStats after) = successfulTrades (performanceStats after)).

End ArbitrageExecutor.

(** ** The scan coordinator (class ArbitrageBot)

    The callbacks run on one thread and give up control only at an [await].
    A started cycle is therefore a sequence of segments, each of which runs
    without interruption; between two segments of one cycle, timers may fire
    and segments of other cycles may run. *)

Module ArbitrageBot.

Inductive Cadence : Type := HighPriority | LowPriority.

Inductive Origin : Type :=
| Scheduled (cadence : Cadence)
| Startup.

(** The [await] at which a started cycle is suspended. *)
Inductive Stage : Type :=
| AwaitNetworkReady    (* isNetworkReadyForArbitrage() *)
| AwaitContractPaused  (* isContractPaused() *)
| AwaitScan.           (* checkAndExecuteArbitrage(pairs) *)

Record Cycle : Type := mkCycle {
  origin : Origin;
  stage : Stage
}.

(** How an awaited call settles. *)
Inductive Outcome : Type :=
| Resolved (value : bool)
| Failed.

(** [isRunning] is the field of the object; [cycles] lists the cycles that
    have set the flag and have not reached the end of their [finally]. *)
Record t : Type := mk {
  isRunning : bool;
  cycles : list Cycle
}.

(** The state built by the constructor. *)
Definition created : t := mk false [].

(** The first segment of the callback of a cron schedule: the test of the
    flag, and, when it is clear, the assignment and the first call. *)
Definition scheduledCheck (cadence : Cadence) (bot : t) : t :=
  if isRunning bot then bot
  else mk true (cycles bot ++ [mkCycle (Scheduled cadence) AwaitNetworkReady]).

(** The first segment of [runInitialCheck()]: the assignment, with no test,
    and the call of [isContractPaused]. *)
Definition runInitialCheck (bot : t) : t :=
  mk true (cycles bot ++ [mkCycle Startup AwaitContractPaused]).

(** The next segment of a suspended cycle: [Some] is the next [await],
    [None] is the end of the cycle through its [finally] block. *)
Definition continue (cycle : Cycle) (outcome : Outcome) : option Cycle :=
  match stage cycle, outcome with
  | AwaitNetworkReady, Resolved true => Some (mkCycle (origin cycle) AwaitContractPaused)
  | AwaitNetworkReady, _ => None
  | AwaitContractPaused, Resolved false => Some (mkCycle (origin cycle) AwaitScan)
  | AwaitContractPaused, _ => None
  | AwaitScan, _ => None
  end.

(** The awaited call of the [i]-th suspended cycle settles and the cycle
    runs its next segment; reaching the end runs [this.isRunning = false]. *)
Definition settle (i : nat) (outcome : Outcome) (bot : t) : t :=
  match cycles bot !! i with
  | Some cycle =>
      match continue cycle outcome with
      | Some cycle' => mk (isRunning bot) (<[i := cycle']> (cycles bot))
      | None => mk false (delete i (cycles bot))
      end
  | None => bot
  end.

(** What can happen once [start()] has registered the two schedules. *)
Inductive Event : Type :=
| Tick (cadence : Cadence)
| Settle (i : nat) (outcome : Outcome).

Definition step (bot : t) (event : Event) : t :=
  match event with
  | Tick cadence => scheduledCheck cadence bot
  | Settle i outcome => settle i outcome bot
  end.

(** [start()] registers the schedules and calls [runInitialCheck()] in one
    segment, so the startup cycle begins from the state of the
    constructor. *)
Definition started : t := runInitialCheck created.

Definition run (events : list Event) : t := fold_left step events started.

(** At most one cycle holds the flag, and the flag is set exactly when one
    does. *)
Definition singleFlight (bot : t) : Prop :=
  (isRunning bot = false /\ cycles bot = []) \/
  (isRunning bot = true /\ exists cycle, cycles bot = [cycle]).

(** The cycles that are inside [checkAndExecuteArbitrage]. *)
Definition scanning (bot : t) : list Cycle :=
  List.filter (fun c => match stage c with AwaitScan => true | _ => false end)
    (cycles bot).

(** [TOKEN_PAIRS.filter(pair => pair.priority === 1)] and
    [TOKEN_PAIRS.filter(pair => pair.priority > 1)], the pairs scanned by the
    two schedules. *)
Definition highPriorityPairs (tokenPairs : list ArbitrageChecker.PairConfig)
  : list ArbitrageChecker.PairConfig :=
  List.filter (fun pair => (ArbitrageChecker.priority pair =? 1)%nat) tokenPairs.

Definition lowerPriorityPairs (tokenPairs : list ArbitrageChecker.PairConfig)
  : list ArbitrageChecker.PairConfig :=
  List.filter (fun pair => (1 <? ArbitrageChecker.priority pair)%nat) tokenPairs.

Section WithExecutor.
Context {E : Type} (chain : Chain E) (K : Constants).
Context (contract : ArbitrageExecutor.Contract E) (disk : FileManager.Disk E).
Context (EXECUTION_ENABLED : bool).

(** [checkAndExecuteArbitrage(pairsToCheck)].  The log of the first three
    opportunities formats [netProfitUSD] and [profitPercentage] of each. *)
Definition checkAndExecuteArbitrage (pairsToCheck : list ArbitrageChecker.PairConfig)
  : M (Runtime E) unit :=
  tryCatch
    (let* opportunities :=
       inWorld (ArbitrageChecker.checkArbitrageOpportunities chain K pairsToCheck) in
     match opportunities with
     | [] => ret tt
     | _ :: _ =>
         let opportunities := ArbitrageChecker.sortByProfit opportunities in
         foldr
           (fun opp rest =>
              ArbitrageExecutor.toFixed
                (ArbitrageExecutor.field ProfitCalculator.netProfitUSD
                   (ArbitrageChecker.profitResult opp)) ;;;
              ArbitrageExecutor.toFixed
                (ArbitrageExecutor.field ProfitCalculator.profitPercentage
                   (ArbitrageChecker.profitResult opp)) ;;;
              rest)
           (ret tt) (take 3 opportunities) ;;;
         if negb EXECUTION_ENABLED then ret tt
         else
           match opportunities with
           | bestOpportunity :: _ =>
               ArbitrageExecutor.executeArbitrage chain K contract disk bestOpportunity ;;;
               ret tt
           | [] => throw "Cannot read properties of undefined (reading 'tokenADetails')"
           end
     end)
    (fun _ => ret tt).

(** The triples that the callback of a schedule scans. *)
Definition scheduledPairs (cadence : Cadence)
    (TOKEN_PAIRS : list ArbitrageChecker.PairConfig)
  : list ArbitrageChecker.PairConfig :=
  match cadence with
  | HighPriority => highPriorityPairs TOKEN_PAIRS
  | LowPriority => lowerPriorityPairs TOKEN_PAIRS
  end.

(** The [try] block of the callback of a schedule, with its [catch]: the
    test of the network, the test of the pause and the scan of the triples of
    the schedule.  The flag that the callback sets before this block and
    clears after it is the subject of [scheduledCheck] and [settle]. *)
Definition scheduledScan (MAX_GAS_PRICE_GWEI : float) (cadence : Cadence)
    (TOKEN_PAIRS : list ArbitrageChecker.PairConfig) : M (Runtime E) unit :=
  tryCatch
    (let* isNetworkReady :=
       inWorld (NetworkService.isNetworkReadyForArbitrage chain MAX_GAS_PRICE_GWEI) in
     if negb isNetworkReady then ret tt
     else
       let* isPaused := inWorld (ArbitrageExecutor.isContractPaused contract) in
       if isPaused then ret tt
       else checkAndExecuteArbitrage (scheduledPairs cadence TOKEN_PAIRS))
    (fun _ => ret tt).

End WithExecutor.

End ArbitrageBot.

(** ** The order of the binary64 numbers

    The comparisons of JavaScript numbers are those of IEEE 754.  A number
    that is not NaN has a rank: the sign class, then the exponent and the
    mantissa, negated for the negative numbers; the comparison of two
    numbers is the lexicographic comparison of their ranks. *)

Module FloatOrder.

Definition rank (f : spec_float) : option (Z * Z * Z) :=
  match f with
  | S754_nan => None
  | S754_infinity s => Some (if s then -2 else 2, 0, 0)
  | S754_zero _ => Some (0, 0, 0)
  | S754_finite s m e => Some (if s then (-1, - e, Z.neg m) else (1, e, Z.pos m))
  end.

Definition lexLt (a b : Z * Z * Z) : Prop :=
  a.1.1 < b.1.1 \/
  (a.1.1 = b.1.1 /\ (a.1.2 < b.1.2 \/ (a.1.2 = b.1.2 /\ a.2 < b.2))).

(** [x < y] and [x <= y] on ranks. *)
Definition rankLt (x y : spec_float) : Prop :=
  match rank x, rank y with
  | Some a, Some b => lexLt a b
  | _, _ => False
  end.

Definition rankLe (x y : spec_float) : Prop :=
  match rank x, rank y with
  | Some a, Some b => ~ lexLt b a
  | _, _ => False
  end.

End FloatOrder.


(** ** A concrete outside world

    A chain on which the clock stands still at the time held in the state,
    both routers quote a fixed rate in percent of the input, the provider
    answers [gas] to a gas price request and the contract answers [oracle] to
    a profitability request.  The conversions are the correctly rounded
    quotient by the power of ten and the product by it. *)

Module Scenario.

Definition ofZ (z : Z) : float := SF2Prim (binary_normalize prec emax z 0 false).

Definition toFloat (x : N) (d : nat) : float :=
  (ofZ (Z.of_N x) / ofZ (10 ^ Z.of_nat d))%float.

Definition fromFloat (a : float) (d : nat) : Res N :=
  match Prim2SF a with
  | S754_finite false m e =>
      if 0 <=? e then Ok (Z.to_N (Z.pos m * 2 ^ e * 10 ^ Z.of_nat d))
      else if (Z.pos m * 10 ^ Z.of_nat d) mod 2 ^ (- e) =? 0
           then Ok (Z.to_N (Z.pos m * 10 ^ Z.of_nat d / 2 ^ (- e)))
           else Throw "fractional component exceeds decimals"
  | S754_zero _ => Ok 0%N
  | _ => Throw "invalid decimal value"
  end.

Definition chain (tokenDecimals : nat) (rate : Exchange -> N) (gas : Res N)
    (oracle : Res (list N)) (fees : FeeParameters) : Chain Z :=
  mkChain Z
    (fun now => (now, now))
    (fun router amountIn _ now => (Ok [amountIn; (amountIn * rate router / 100)%N], now))
    (fun now => (gas, now))
    (fun _ _ _ now => (oracle, now))
    (fun getter now =>
       (Ok match getter with
           | PancakeSwapFeeNumerator => pancakeSwapFeeNumerator fees
           | PancakeSwapFeeDenominator => pancakeSwapFeeDenominator fees
           | BiswapFeeNumerator => biswapFeeNumerator fees
           | BiswapFeeDenominator => biswapFeeDenominator fees
           end, now))
    (fun _ now => (Ok tokenDecimals, now))
    (fun token now => (Ok token, now))
    (fun token now => (Ok token, now))
    toFloat
    fromFloat.

(** The fee parameters set by the constructor of ProfitCalculator, and fee
    parameters with zero denominators. *)
Definition defaultFees : FeeParameters := mkFeeParameters 25 9975 20 9980.
Definition zeroFees : FeeParameters := mkFeeParameters 25 0 20 0.

(** A threshold of one percent and a gas limit of one million. *)
Definition constants : Constants :=
  mkConstants 1 1000000 "BUSD" "USDT" "USDC" "DAI" "WBNB".

(** The services as their constructors leave them, at time [now], with
    [gasPrice] wei stored by a health check made at time [checked], and the
    reference rate [bnb] stored at time [updated]. *)
Definition world (now checked : Z) (gasPrice : N) (bnb : float) (updated : Z)
    (fees : FeeParameters) : World Z :=
  mkWorld now bnb updated ∅ (mkNetworkHealth checked true 0 gasPrice) fees ∅.

(** The number written [1.15] in JavaScript, as the double it denotes. *)
Definition oneFifteen : float := 0x1.2666666666666p+0%float.

(** A world at time 1000 whose last health check, at time 0, stored a gas
    price of 100 wei. *)
Definition checkedWorld : World Z := world 1000 0 100 300 0 defaultFees.

(** Both routers return the input unchanged; the gas price request and the
    profitability request fail. *)
Definition quietChain : Chain Z :=
  chain 18 (fun _ => 100%N) (Throw "timeout") (Throw "call revert exception") defaultFees.

(** The candidate of the worked example: a loan of 1000 BUSD with a user
    profit of 10 BUSD; the stored gas price, with the buffer, is 10 gwei, so
    that one million gas cost 0.01 BNB, which is 2 USD at 200 USD per BNB. *)
Definition busd : TokenDetails := mkTokenDetails "BUSD" 18 "BUSD" "BUSD Token".

Definition loan1000 : N := (1000 * 10 ^ 18)%N.

Definition candidate : ArbitrageData :=
  mkArbitrageData ["BUSD"; "USDT"] ["USDT"; "WBNB"] ["WBNB"; "BUSD"]
    [990 * 10 ^ 18; 990 * 10 ^ 18; 990 * 10 ^ 18]%N true.

Definition thinChain : Chain Z :=
  chain 18 (fun _ => 100%N) (Throw "timeout")
    (Ok [12 * 10 ^ 18; 2 * 10 ^ 18; 10 * 10 ^ 18]%N) defaultFees.

Definition pricedWorld (fees : FeeParameters) : World Z :=
  world 1000 0 9090909091 200 0 fees.

(** The same candidate with a user profit of 100 BUSD. *)
Definition richChain : Chain Z :=
  chain 18 (fun _ => 100%N) (Throw "timeout")
    (Ok [120 * 10 ^ 18; 20 * 10 ^ 18; 100 * 10 ^ 18]%N) defaultFees.

(** A token with two decimals, so that the unit input of the price gap is
    100, and chains on which PancakeSwap returns the input of a hop and BiSwap
    returns 98 or 99 percent of it: the cycle gives 100 on PancakeSwap and
    94 or 97 on BiSwap. *)
Definition cent : TokenDetails := mkTokenDetails "BUSD" 2 "BUSD" "BUSD Token".

Definition biswapRate (percent : N) (router : Exchange) : N :=
  match router with
  | PancakeSwap => 100%N
  | BiSwap => percent
  end.

Definition gapChain (percent : N) : Chain Z :=
  chain 2 (biswapRate percent) (Throw "timeout")
    (Ok [120 * 10 ^ 18; 20 * 10 ^ 18; 100 * 10 ^ 18]%N) defaultFees.

(** One configured triple, with a single test amount of 1000 tokens. *)
Definition triple : ArbitrageChecker.PairConfig :=
  ArbitrageChecker.mkPairConfig "BUSD-USDT-WBNB"
    [("BUSD", "BUSD"); ("USDT", "USDT"); ("WBNB", "WBNB")]
    [(("BUSD", "USDT"), "0x7EFaEf62fDdCCa950418312c6C91Aef321375A00");
     (("USDT", "WBNB"), "0x16b9a82891338f9bA80E2D6970FddA79D1eb0daE");
     (("WBNB", "BUSD"), "0x58F876857a02D6762E0101bb5C46A8c1ED44Dc16")]
    [(("USDT", "BUSD"), "0xDA8ceb724A06819c0A5cDb4304ea0cB27F8304cF");
     (("USDT", "WBNB"), "0x8840C6252e2e86e545deFb6da98B2a0E26d8C1BA");
     (("WBNB", "BUSD"), "0xaCAac9311b0096E04Dfe96b6D87dec867d3883Dc")]
    1 (Some [1000%float]).

(** Fee parameters as a later refresh could store them. *)
Definition otherFees : FeeParameters := mkFeeParameters 30 10000 17 10000.

End Scenario.

(** ** Further concrete states *)

Module Examples.

(** A pool of two endpoints whose backup was used at time 900. *)
Definition pacedPool : RPCManager.t :=
  RPCManager.mk
    ["https://bsc-dataseed.binance.org/"; "https://bsc-dataseed1.defibit.io/"]
    0 [0; 0]%nat [0; 900] [true; true] [].

(** A pool of three endpoints whose selected endpoint has failed twice in a
    row. *)
Definition strainedPool : RPCManager.t :=
  RPCManager.mk
    ["https://bsc-dataseed.binance.org/"; "https://bsc-dataseed1.defibit.io/";
     "https://bsc-dataseed1.ninicoin.io/"]
    0 [2; 0; 0]%nat [0; 0; 0] [true; true; true] [].

(** Endpoints that never answer a gas price request.  The state of the
    outside world is the time: the clock reads it and a wait advances it. *)
Definition deadEndpoints : RPCManager.Endpoints Z :=
  RPCManager.mkEndpoints Z
    (fun now => (now, now))
    (fun _ now => (Throw "timeout", now))
    (fun ms now => now + ms).

(** A chain whose provider answers a gas price of 5 gwei, and the services
    at time 1000000 with a last health check at time 0. *)
Definition gweiChain : Chain Z :=
  Scenario.chain 18 (fun _ => 100%N) (Ok 5000000000%N)
    (Throw "call revert exception") Scenario.defaultFees.

Definition lateWorld : World Z :=
  Scenario.world 1000000 0 100 300 0 Scenario.defaultFees.

(** The triple of the scenario without its BiSwap pair table. *)
Definition lonelyTriple : ArbitrageChecker.PairConfig :=
  ArbitrageChecker.mkPairConfig "BUSD-USDT-WBNB"
    [("BUSD", "BUSD"); ("USDT", "USDT"); ("WBNB", "WBNB")]
    [(("BUSD", "USDT"), "0x7EFaEf62fDdCCa950418312c6C91Aef321375A00");
     (("USDT", "WBNB"), "0x16b9a82891338f9bA80E2D6970FddA79D1eb0daE");
     (("WBNB", "BUSD"), "0x58F876857a02D6762E0101bb5C46A8c1ED44Dc16")]
    []
    1 (Some [1000%float]).

(** A network on which no endpoint answers. *)
Definition deafNetwork : ProviderService.Network unit :=
  ProviderService.mkNetwork unit
    (fun _ e => (Throw "could not detect network", e))
    (fun _ e => (Throw "could not detect network", e)).

(** The addresses of BUSD, USDT, USDC, DAI and WBNB on the BNB Smart
    Chain, written without capital letters, and the constants of the scenario
    with these addresses. *)
Definition busdAddress : string := "0xe9e7cea3dedca5984780bafc599bd69add087d56".
Definition usdtAddress : string := "0x55d398326f99059ff775485246999027b3197955".
Definition usdcAddress : string := "0x8ac76a51cc950d9822d68b83fe1ad97b32cd580d".
Definition daiAddress : string := "0x1af3f329e8be154074d8769d1ffa4ee058b1dbc3".
Definition wbnbAddress : string := "0xbb4cdb9cbd36b01bd1cbaebf2de08d9173bc095c".

Definition mainnet : Constants :=
  mkConstants 1 1000000 busdAddress usdtAddress usdcAddress daiAddress wbnbAddress.

(** The symbol that the token contract at an address answers. *)
Definition symbolAt (address : string) : string :=
  if bool_decide (address = busdAddress) then "BUSD"
  else if bool_decide (address = usdtAddress) then "USDT"
  else if bool_decide (address = wbnbAddress) then "WBNB"
  else "TOKEN".

(** The chain of the candidate with a user profit of 100 tokens, on which
    each token contract answers its symbol. *)
Definition mainnetChain : Chain Z :=
  mkChain Z
    (dateNow Scenario.richChain)
    (getAmountsOut Scenario.richChain)
    (providerGetGasPrice Scenario.richChain)
    (checkArbitrageProfitability Scenario.richChain)
    (contractFee Scenario.richChain)
    (tokenDecimals Scenario.richChain)
    (fun token now => (Ok (symbolAt token), now))
    (fun token now => (Ok (symbolAt token), now))
    (formatUnits Scenario.richChain)
    (parseUnits Scenario.richChain).

(** The triple of the scenario with the addresses of its tokens and of its
    pairs, written without capital letters. *)
Definition mainnetTriple : ArbitrageChecker.PairConfig :=
  ArbitrageChecker.mkPairConfig "BUSD-USDT-WBNB"
    [("BUSD", busdAddress); ("USDT", usdtAddress); ("WBNB", wbnbAddress)]
    [(("BUSD", "USDT"), "0x7efaef62fddcca950418312c6c91aef321375a00");
     (("USDT", "WBNB"), "0x16b9a82891338f9ba80e2d6970fdda79d1eb0dae");
     (("WBNB", "BUSD"), "0x58f876857a02d6762e0101bb5c46a8c1ed44dc16")]
    [(("USDT", "BUSD"), "0xda8ceb724a06819c0a5cdb4304ea0cb27f8304cf");
     (("USDT", "WBNB"), "0x8840c6252e2e86e545defb6da98b2a0e26d8c1ba");
     (("WBNB", "BUSD"), "0xacaac9311b0096e04dfe96b6d87dec867d3883dc")]
    1 (Some [1000%float]).

(** [ethers.utils.isAddress] on the strings of these examples.  A string
    of [0x] and forty hexadecimal digits without capital letters is an
    address for ethers, and a string that is not made of [0x] and forty
    hexadecimal digits is none for this function.  A string with capital
    letters, which ethers accepts when it has no small letter or when its
    checksum is right, is refused here; no example passes one. *)
Definition isHexDigit (c : Ascii.ascii) : bool :=
  let n := Ascii.nat_of_ascii c in
  ((48 <=? n)%nat && (n <=? 57)%nat) || ((97 <=? n)%nat && (n <=? 102)%nat).

Fixpoint allHexDigits (s : string) : bool :=
  match s with
  | EmptyString => true
  | String c rest => isHexDigit c && allHexDigits rest
  end.

Definition isAddress (s : string) : bool :=
  String.prefix "0x" s && (String.length s =? 42)%nat &&
  allHexDigits (String.substring 2 40 s).

(** [String.prototype.toLowerCase] on the letters A to Z. *)
Definition toLowerCaseChar (c : Ascii.ascii) : Ascii.ascii :=
  let n := Ascii.nat_of_ascii c in
  if (65 <=? n)%nat && (n <=? 90)%nat then Ascii.ascii_of_nat (n + 32) else c.

Fixpoint toLowerCase (s : string) : string :=
  match s with
  | EmptyString => EmptyString
  | String c rest => String (toLowerCaseChar c) (toLowerCase rest)
  end.

(** A flash-arbitrage contract that answers every request: it is paused or
    not as [isPaused] says, every pair is authorised, and a flash loan is
    mined with the status 1.  The wallet owns the contract and holds no
    WBNB. *)
Definition contractWith (isPaused : bool) : ArbitrageExecutor.Contract Z :=
  ArbitrageExecutor.mkContract Z
    (fun now => (Ok isPaused, now))
    (fun _ now => (Ok true, now))
    (fun _ now => (Ok true, now))
    (fun now => (Ok "0x5FbDB2315678afecb367f032d93F642f64180aa3", now))
    (fun _ _ _ now => (Ok tt, now))
    (fun _ _ _ _ _ _ now =>
       (Ok (ArbitrageExecutor.mkReceipt "0x1c7d" 350000 1), now))
    (fun _ now => (Ok 0%N, now))
    (fun _ now => (Throw "insufficient funds", now))
    "0x5FbDB2315678afecb367f032d93F642f64180aa3"
    isAddress
    toLowerCase.

(** A disk on which both files can be written. *)
Definition disk : FileManager.Disk Z :=
  FileManager.mkDisk Z
    (fun now => ("2024-01-01T00:00:00.000Z", now))
    (fun _ now => (Ok tt, now))
    (fun _ now => (Ok tt, now)).

(** The services of the scenario with the file manager as its constructor
    builds it when there are no files. *)
Definition runtime : Runtime Z :=
  mkRuntime (Scenario.pricedWorld Scenario.defaultFees)
    (FileManager.mk [] (FileManager.initialStats "2024-01-01T00:00:00.000Z")).

(** An opportunity whose profit result is the object of the [catch] block
    of [calculateProfit]. *)
Definition unevaluated : ArbitrageChecker.Opportunity :=
  ArbitrageChecker.mkOpportunity mainnetTriple
    "0x7efaef62fddcca950418312c6c91aef321375a00" busdAddress usdtAddress wbnbAddress
    (mkTokenDetails busdAddress 18 "BUSD" "BUSD")
    (mkTokenDetails usdtAddress 18 "USDT" "USDT")
    (mkTokenDetails wbnbAddress 18 "WBNB" "WBNB")
    Scenario.loan1000
    (mkArbitrageData [busdAddress; usdtAddress] [usdtAddress; wbnbAddress]
       [wbnbAddress; busdAddress]
       [990 * 10 ^ 18; 990 * 10 ^ 18; 990 * 10 ^ 18]%N true)
    (ProfitCalculator.Rejected "call revert exception") true false 0.

(** A chain on which one WBNB is quoted at 250 BUSD. *)
Definition bnbChain : Chain Z :=
  Scenario.chain 18 (fun _ => 25000%N) (Throw "timeout")
    (Throw "call revert exception") Scenario.defaultFees.

(** A chain of tokens with two decimals on which the routers refuse to
    quote an input of 1000 tokens and return every other input unchanged,
    and two triples: one whose test amount, the number written [0.001], has
    three fractional digits, which [parseUnits] refuses for a token of two
    decimals, and one with the test amounts 1000 and 2000. *)
Definition flakyChain : Chain Z :=
  let steady :=
    Scenario.chain 2 (fun _ => 100%N) (Throw "timeout")
      (Ok [120 * 10 ^ 18; 20 * 10 ^ 18; 100 * 10 ^ 18]%N) Scenario.defaultFees in
  mkChain Z
    (dateNow steady)
    (fun router amountIn path now =>
       if (amountIn =? 100000)%N then (Throw "execution reverted", now)
       else getAmountsOut steady router amountIn path now)
    (providerGetGasPrice steady)
    (checkArbitrageProfitability steady)
    (contractFee steady)
    (tokenDecimals steady)
    (tokenSymbol steady)
    (tokenName steady)
    (formatUnits steady)
    (parseUnits steady).

Definition unparsableTriple : ArbitrageChecker.PairConfig :=
  ArbitrageChecker.mkPairConfig "BUSD-USDT-WBNB"
    (ArbitrageChecker.tokens Scenario.triple)
    (ArbitrageChecker.pancakeswapPairs Scenario.triple)
    (ArbitrageChecker.biswapPairs Scenario.triple)
    1 (Some [0x1.0624dd2f1a9fcp-10%float]).

Definition twoAmountTriple : ArbitrageChecker.PairConfig :=
  ArbitrageChecker.mkPairConfig "BUSD-USDT-WBNB"
    (ArbitrageChecker.tokens Scenario.triple)
    (ArbitrageChecker.pancakeswapPairs Scenario.triple)
    (ArbitrageChecker.biswapPairs Scenario.triple)
    1 (Some [1000; 2000]%float).

End Examples.
(** * Properties *)

(** ** Computations that return *)

Lemma returns_ret {S A} (a : A) : returns (@ret S A a).
Proof. intros s. by exists a, s. Qed.

Lemma returns_bind {S A B} (m : M S A) (k : A -> M S B) :
  returns m -> (forall a, returns (k a)) -> returns (bind m k).
Proof.
  intros Hm Hk s. unfold bind.
  destruct (Hm s) as (a & s' & ->). apply Hk.
Qed.

Lemma returns_tryCatch {S A} (m : M S A) (h : string -> M S A) :
  (forall e, returns (h e)) -> returns (tryCatch m h).
Proof.
  intros Hh s. unfold tryCatch.
  destruct (m s) as [[a|e] s']; [by exists a, s' | apply Hh].
Qed.

Lemma returns_catchNull {S A} (m : M S A) : returns (catchNull m).
Proof.
  intros s. unfold catchNull.
  destruct (m s) as [[a|e] s']; eauto.
Qed.

Lemma returns_get {S} : returns (@get S).
Proof. intros s. by exists s, s. Qed.

Lemma returns_modify {S} (f : S -> S) : returns (modify f).
Proof. intros s. by exists tt, (f s). Qed.

Lemma returns_callTotal {E A} (f : E -> A * E) : returns (callTotal f).
Proof. intros w. unfold callTotal. destruct (f (env w)) as [a e']. eauto. Qed.

Lemma returns_match_option {S A B} (o : option A) (f : A -> M S B) (d : M S B) :
  (forall a, returns (f a)) -> returns d ->
  returns (match o with Some a => f a | None => d end).
Proof. by destruct o. Qed.

Lemma returns_if {S A} (b : bool) (m1 m2 : M S A) :
  returns m1 -> returns m2 -> returns (if b then m1 else m2).
Proof. by destruct b. Qed.

Create HintDb returns discriminated.
#[export] Hint Resolve returns_ret returns_bind returns_tryCatch returns_catchNull
  returns_get returns_modify returns_callTotal returns_match_option returns_if
  : returns.

(** ** Computations that end normally *)

Lemma bind_inv {S A B} (m : M S A) (k : A -> M S B) s b s' :
  bind m k s = (Ok b, s') ->
  exists a s1, m s = (Ok a, s1) /\ k a s1 = (Ok b, s').
Proof.
  unfold bind. destruct (m s) as [[a|e] s1]; [eauto|done].
Qed.

Lemma bind_ok {S A B} (m : M S A) (k : A -> M S B) s a s' :
  m s = (Ok a, s') -> bind m k s = k a s'.
Proof. intros H. unfold bind. by rewrite H. Qed.

Lemma bind_throw {S A B} (m : M S A) (k : A -> M S B) s e s' :
  m s = (Throw e, s') -> bind m k s = (Throw e, s').
Proof. intros H. unfold bind. by rewrite H. Qed.

Lemma callTotal_eq {E A} (f : E -> A * E) (w : World E) a e' :
  f (env w) = (a, e') -> callTotal f w = (Ok a, setEnv e' w).
Proof. intros H. unfold callTotal. by rewrite H. Qed.

Lemma call_eq {E A} (f : E -> Res A * E) (w : World E) r e' :
  f (env w) = (r, e') -> call f w = (r, setEnv e' w).
Proof. intros H. unfold call. by rewrite H. Qed.

(** ** Computations that keep a property of the state *)

Lemma preserves_ret {S A} (P : S -> Prop) (a : A) : preserves P (ret a).
Proof. intros s r s' [= <- <-]. done. Qed.

Lemma preserves_throw {S A} (P : S -> Prop) e : preserves P (@throw S A e).
Proof. intros s r s' [= <- <-]. done. Qed.

Lemma preserves_liftRes {S A} (P : S -> Prop) (x : Res A) : preserves P (liftRes x).
Proof. intros s r s' [= <- <-]. done. Qed.

Lemma preserves_get {S} (P : S -> Prop) : preserves P get.
Proof. intros s r s' [= <- <-]. done. Qed.

Lemma preserves_modify {S} (P : S -> Prop) (f : S -> S) :
  (forall s, P s -> P (f s)) -> preserves P (modify f).
Proof. intros Hf s r s' [= <- <-]. auto. Qed.

Lemma preserves_bind {S A B} (P : S -> Prop) (m : M S A) (k : A -> M S B) :
  preserves P m -> (forall a, preserves P (k a)) -> preserves P (bind m k).
Proof.
  intros Hm Hk s r s'. unfold bind.
  destruct (m s) as [[a|e] s1] eqn:Hms.
  - intros Hks HP. eapply Hk; eauto.
  - intros [= <- <-] HP. eauto.
Qed.

Lemma preserves_tryCatch {S A} (P : S -> Prop) (m : M S A) (h : string -> M S A) :
  preserves P m -> (forall e, preserves P (h e)) -> preserves P (tryCatch m h).
Proof.
  intros Hm Hh s r s'. unfold tryCatch.
  destruct (m s) as [[a|e] s1] eqn:Hms.
  - intros [= <- <-] HP. eauto.
  - intros Hhs HP. eapply Hh; eauto.
Qed.

Lemma preserves_catchNull {S A} (P : S -> Prop) (m : M S A) :
  preserves P m -> preserves P (catchNull m).
Proof.
  intros Hm s r s'. unfold catchNull.
  destruct (m s) as [[a|e] s1] eqn:Hms; intros [= <- <-] HP; eauto.
Qed.

Lemma preserves_call {E A} (P : World E -> Prop) (f : E -> Res A * E) :
  (forall e w, P w -> P (setEnv e w)) -> preserves P (call f).
Proof.
  intros HP w r w'. unfold call. destruct (f (env w)). intros [= <- <-]. auto.
Qed.

Lemma preserves_callTotal {E A} (P : World E -> Prop) (f : E -> A * E) :
  (forall e w, P w -> P (setEnv e w)) -> preserves P (callTotal f).
Proof.
  intros HP w r w'. unfold callTotal. destruct (f (env w)). intros [= <- <-]. auto.
Qed.

Lemma preserves_match_option {S A B} (P : S -> Prop) (o : option A)
    (f : A -> M S B) (d : M S B) :
  (forall a, preserves P (f a)) -> preserves P d ->
  preserves P (match o with Some a => f a | None => d end).
Proof. by destruct o. Qed.

Lemma preserves_if {S A} (P : S -> Prop) (b : bool) (m1 m2 : M S A) :
  preserves P m1 -> preserves P m2 -> preserves P (if b then m1 else m2).
Proof. by destruct b. Qed.

Create HintDb preserves discriminated.
#[export] Hint Resolve preserves_ret preserves_throw preserves_liftRes preserves_get
  preserves_modify preserves_bind preserves_tryCatch preserves_catchNull
  preserves_call preserves_callTotal preserves_match_option preserves_if
  : preserves.

(** ** Computations that do not touch the fee parameters *)

Section FeeFrame.
Context {E : Type}.

Lemma feeFrame_ret {A} (a : A) : feeFrame (E := E) (ret a).
Proof. done. Qed.

Lemma feeFrame_throw {A} e : feeFrame (E := E) (@throw _ A e).
Proof. done. Qed.

Lemma feeFrame_liftRes {A} (r : Res A) : feeFrame (E := E) (liftRes r).
Proof. done. Qed.

Lemma feeFrame_bind {A B} (m : M (World E) A) (k : A -> M (World E) B) :
  feeFrame m -> (forall a, feeFrame (k a)) -> feeFrame (bind m k).
Proof.
  intros Hm Hk F w. unfold bind. rewrite Hm.
  destruct (m w) as [[a|e] w']; simpl; [apply Hk | done].
Qed.

Lemma feeFrame_tryCatch {A} (m : M (World E) A) (h : string -> M (World E) A) :
  feeFrame m -> (forall e, feeFrame (h e)) -> feeFrame (tryCatch m h).
Proof.
  intros Hm Hh F w. unfold tryCatch. rewrite Hm.
  destruct (m w) as [[a|e] w']; simpl; [done | apply Hh].
Qed.

Lemma feeFrame_catchNull {A} (m : M (World E) A) :
  feeFrame m -> feeFrame (catchNull m).
Proof.
  intros Hm F w. unfold catchNull. rewrite Hm.
  by destruct (m w) as [[a|e] w'].
Qed.

Lemma feeFrame_call {A} (f : E -> Res A * E) : feeFrame (call f).
Proof. intros F w. unfold call. simpl. by destruct (f (env w)). Qed.

Lemma feeFrame_callTotal {A} (f : E -> A * E) : feeFrame (callTotal f).
Proof. intros F w. unfold callTotal. simpl. by destruct (f (env w)). Qed.

Lemma feeFrame_modify (f : World E -> World E) :
  (forall F w, f (setFeeParameters F w) = setFeeParameters F (f w)) ->
  feeFrame (modify f).
Proof. intros Hf F w. unfold modify. simpl. by rewrite Hf. Qed.

(** Reading the state and using only fields other than the fee
    parameters. *)
Lemma feeFrame_get_bind {A} (k : World E -> M (World E) A) :
  (forall F w, k (setFeeParameters F w) = k w) ->
  (forall w, feeFrame (k w)) ->
  feeFrame (bind get k).
Proof.
  intros Hk Hf F w. unfold bind, get. rewrite Hk. apply Hf.
Qed.

Lemma feeFrame_match_option {A B} (o : option A) (f : A -> M (World E) B) d :
  (forall a, feeFrame (f a)) -> feeFrame d ->
  feeFrame (match o with Some a => f a | None => d end).
Proof. by destruct o. Qed.

Lemma feeFrame_if {A} (b : bool) (m1 m2 : M (World E) A) :
  feeFrame m1 -> feeFrame m2 -> feeFrame (if b then m1 else m2).
Proof. by destruct b. Qed.

Lemma setFeeParameters_same (w : World E) : setFeeParameters (feeParameters w) w = w.
Proof. by destruct w. Qed.

Lemma feeFrame_keeps {A} (m : M (World E) A) (w w' : World E) r :
  feeFrame m -> m w = (r, w') -> feeParameters w' = feeParameters w.
Proof.
  intros Hm Hrun. specialize (Hm (feeParameters w) w).
  rewrite setFeeParameters_same, Hrun in Hm. simpl in Hm.
  injection Hm as Hw. by rewrite Hw.
Qed.

End FeeFrame.

Create HintDb feeFrame discriminated.
#[export] Hint Resolve feeFrame_ret feeFrame_throw feeFrame_liftRes feeFrame_bind
  feeFrame_tryCatch feeFrame_catchNull feeFrame_call feeFrame_callTotal
  feeFrame_modify feeFrame_get_bind feeFrame_match_option feeFrame_if : feeFrame.
#[export] Hint Extern 1 (_ = _) => reflexivity : feeFrame.

(** ** The endpoint pool *)

Section RPCManagerFacts.
Import RPCManager.

Lemma usable_lt m now i : wf m -> usable m now i = true -> (i < providersLength m)%nat.
Proof.
  intros (_ & _ & Hh & _) Hu. unfold usable in Hu.
  destruct (healthStatus m !! i) eqn:Hl; [|done].
  apply lookup_lt_Some in Hl. lia.
Qed.

Lemma find_map_seq_first (f : nat -> bool) (g : nat -> nat) n a k :
  (a <= k < a + n)%nat ->
  f (g k) = true ->
  (forall j, (a <= j < k)%nat -> f (g j) = false) ->
  List.find f (map g (seq a n)) = Some (g k).
Proof.
  revert a. induction n as [|n IH]; intros a Hk Hfk Hbefore; [lia|].
  simpl. destruct (decide (a = k)) as [->|Hne].
  - by rewrite Hfk.
  - rewrite Hbefore by lia. apply IH; [lia|done|]. intros j Hj. apply Hbefore. lia.
Qed.

Lemma find_map_seq_none (f : nat -> bool) (g : nat -> nat) n a :
  (forall j, (a <= j < a + n)%nat -> f (g j) = false) ->
  List.find f (map g (seq a n)) = None.
Proof.
  revert a. induction n as [|n IH]; intros a Hall; [done|].
  simpl. rewrite Hall by lia. apply IH. intros j Hj. apply Hall. lia.
Qed.

Lemma rotation_lt m idx :
  wf m -> In idx (rotation m) -> (idx < providersLength m)%nat.
Proof.
  intros (_ & _ & _ & Hc) Hin. unfold rotation in Hin.
  apply in_map_iff in Hin as (i & <- & _).
  apply Nat.mod_upper_bound. lia.
Qed.

(** The loop visits every endpoint of the pool. *)
Lemma rotation_complete m j :
  wf m -> (j < providersLength m)%nat -> In j (rotation m).
Proof.
  intros (_ & _ & _ & Hc) Hj. unfold rotation. apply in_map_iff.
  set (n := providersLength m) in *. set (cur := currentIndex m) in *.
  destruct (decide (cur < j)%nat) as [Hlt|Hge].
  - exists (j - cur - 1)%nat. split; [|apply in_seq; lia].
    replace (cur + (j - cur - 1) + 1)%nat with j by lia.
    by apply Nat.mod_small.
  - exists (j + n - cur - 1)%nat. split; [|apply in_seq; lia].
    replace (cur + (j + n - cur - 1) + 1)%nat with (j + 1 * n)%nat by lia.
    rewrite Nat.Div0.mod_add. by apply Nat.mod_small.
Qed.

Lemma map_const_replicate {A B} (b : B) (l : list A) :
  map (fun _ => b) l = replicate (length l) b.
Proof. induction l as [|x l IH]; simpl; congruence. Qed.

(** The index returned by [getProvider] in its three cases. *)
Lemma getProvider_current m now :
  usable m now (currentIndex m) = true ->
  getProvider m now =
    (currentIndex m, setLastUsed (<[currentIndex m := now]> (lastUsed m)) m).
Proof. intros Hu. unfold getProvider. by rewrite Hu. Qed.

Lemma getProvider_rotated m now k :
  usable m now (currentIndex m) = false ->
  (k < providersLength m)%nat ->
  usable m now ((currentIndex m + k + 1) mod providersLength m) = true ->
  (forall j, (j < k)%nat ->
     usable m now ((currentIndex m + j + 1) mod providersLength m) = false) ->
  let idx := ((currentIndex m + k + 1) mod providersLength m)%nat in
  getProvider m now =
    (idx, setLastUsed (<[idx := now]> (lastUsed m)) (setCurrentIndex idx m)).
Proof.
  intros Hcur Hk Hu Hbefore idx. unfold getProvider. rewrite Hcur.
  unfold rotation.
  rewrite (find_map_seq_first (usable m now)
             (fun i => ((currentIndex m + i + 1) mod providersLength m)%nat)
             (providersLength m) 0 k); [done|lia|done|].
  intros j Hj. apply Hbefore. lia.
Qed.

Lemma getProvider_reset m now :
  wf m ->
  (forall i, (i < providersLength m)%nat -> usable m now i = false) ->
  getProvider m now =
    (0%nat,
     setLastUsed (<[0%nat := now]> (lastUsed m))
       (setCurrentIndex 0
          (setFailCounts (replicate (providersLength m) 0%nat) m))).
Proof.
  intros Hwf Hall. pose proof Hwf as (Hfc & _ & _ & Hc).
  unfold getProvider. rewrite (Hall _ Hc).
  unfold rotation. rewrite find_map_seq_none.
  - by rewrite map_const_replicate, Hfc.
  - intros j _. apply Hall, Nat.mod_upper_bound. lia.
Qed.

(** In every case the provider returned exists, is the selected one, and
    is stamped with the time of the call. *)
Lemma getProvider_returns m now :
  wf m ->
  let idx := (getProvider m now).1 in
  let m' := (getProvider m now).2 in
  (idx < providersLength m)%nat /\ currentIndex m' = idx /\
  lastUsed m' !! idx = Some now /\ wf m'.
Proof.
  intros Hwf. pose proof Hwf as (Hfc & Hlu & Hhs & Hc).
  assert (Hwf' : forall i k fc, length fc = providersLength m ->
            (i < providersLength m)%nat ->
            wf (setLastUsed (<[k := now]> (lastUsed m))
                  (setCurrentIndex i (setFailCounts fc m)))).
  { intros i k fc Hlen Hi. unfold wf, providersLength in *. simpl.
    rewrite length_insert. auto. }
  unfold getProvider.
  destruct (usable m now (currentIndex m)) eqn:Hcur; simpl.
  - split; [done|]. split; [done|]. split.
    + apply list_lookup_insert_eq. lia.
    + by apply (Hwf' (currentIndex m) (currentIndex m) (failCounts m)).
  - destruct (List.find (usable m now) (rotation m)) as [idx|] eqn:Hfind; simpl.
    + apply find_some in Hfind as [Hin Hu].
      pose proof (rotation_lt m idx Hwf Hin) as Hlt.
      split; [done|]. split; [done|]. split.
      * apply list_lookup_insert_eq. lia.
      * by apply (Hwf' idx idx (failCounts m)).
    + split; [lia|]. split; [done|]. split.
      * apply list_lookup_insert_eq. lia.
      * apply (Hwf' 0%nat 0%nat); [by rewrite length_map | lia].
Qed.

(** C6: [getProvider] returns the selected endpoint when it is healthy,
    has fewer than three failures and was last used more than 500 ms ago;
    otherwise the first endpoint after it, in rotation order, that meets the
    three conditions; and when no endpoint meets them it resets every
    failure count, selects the primary endpoint and returns it.  In every
    case it returns an endpoint of the pool. *)
Theorem getProvider_selection (m : t) (now : Z) :
  wf m ->
  let cur := currentIndex m in
  let n := providersLength m in
  let idx := (getProvider m now).1 in
  let m' := (getProvider m now).2 in
  ((idx < n)%nat /\ currentIndex m' = idx /\ lastUsed m' !! idx = Some now) /\
  (usable m now cur = true ->
     idx = cur /\ failCounts m' = failCounts m) /\
  (usable m now cur = false ->
     forall k, (k < n)%nat ->
       usable m now ((cur + k + 1) mod n) = true ->
       (forall j, (j < k)%nat -> usable m now ((cur + j + 1) mod n) = false) ->
       idx = ((cur + k + 1) mod n)%nat /\ failCounts m' = failCounts m) /\
  ((forall i, (i < n)%nat -> usable m now i = false) ->
     idx = 0%nat /\ failCounts m' = replicate n 0%nat).
Proof.
  intros Hwf cur n idx m'. subst idx m'. split; [|split; [|split]].
  - destruct (getProvider_returns m now Hwf) as (H1 & H2 & H3 & _). done.
  - intros Hu. by rewrite getProvider_current.
  - intros Hcur k Hk Hu Hbefore.
    by rewrite (getProvider_rotated m now k Hcur Hk Hu Hbefore).
  - intros Hall. by rewrite getProvider_reset.
Qed.

Lemma getProvider_selection_witness :
  wf busyPool /\ (getProvider busyPool 1000).1 = 2%nat.
Proof.
  assert (Hwf : wf busyPool) by (unfold wf; vm_compute; repeat split; lia).
  split; [exact Hwf|].
  destruct (getProvider_selection busyPool 1000 Hwf) as (_ & _ & Hrot & _).
  destruct (Hrot eq_refl 1%nat) as [Hidx _].
  - vm_compute. lia.
  - reflexivity.
  - intros j Hj. assert (j = 0%nat) as -> by lia. reflexivity.
  - exact Hidx.
Defined.

(** The third failure in a row on the selected endpoint marks it unhealthy,
    registers the cooldown timer and moves the pointer to the next
    endpoint. *)
Lemma reportFailure_third cooldown m now :
  wf m ->
  failCounts m !! currentIndex m = Some 2%nat ->
  let m' := reportFailure cooldown m now in
  healthStatus m' !! currentIndex m = Some false /\
  failCounts m' !! currentIndex m = Some 3%nat /\
  currentIndex m' = ((currentIndex m + 1) mod providersLength m)%nat /\
  cooldownTimers m' = cooldownTimers m ++ [now + cooldown] /\
  wf m'.
Proof.
  intros (Hfc & Hlu & Hhs & Hc) H2. unfold reportFailure. simpl.
  rewrite list_lookup_alter_eq, H2. simpl.
  split; [apply list_lookup_insert_eq; lia|].
  split; [by rewrite list_lookup_alter_eq, H2|].
  split; [done|]. split; [done|].
  unfold wf, providersLength in *. simpl.
  rewrite length_alter, length_insert.
  repeat split; try done. apply Nat.mod_upper_bound. lia.
Qed.

(** An endpoint that is marked unhealthy is not returned by [getProvider]
    while some endpoint of the pool meets the three conditions. *)
Lemma getProvider_avoids_unhealthy m now i j :
  wf m ->
  healthStatus m !! i = Some false ->
  usable m now j = true ->
  (getProvider m now).1 <> i.
Proof.
  intros Hwf Hbad Hj.
  assert (Hi : usable m now i = false).
  { unfold usable. rewrite Hbad.
    by destruct (failCounts m !! i), (lastUsed m !! i). }
  unfold getProvider.
  destruct (usable m now (currentIndex m)) eqn:Hcur; simpl.
  - intros <-. congruence.
  - destruct (List.find (usable m now) (rotation m)) as [idx|] eqn:Hfind; simpl.
    + apply find_some in Hfind as [_ Hu]. intros <-. congruence.
    + pose proof (usable_lt m now j Hwf Hj) as Hlt.
      pose proof (find_none _ _ Hfind j (rotation_complete m j Hwf Hlt)).
      congruence.
Qed.

Lemma next_index_differs cur n :
  (cur < n)%nat -> (2 <= n)%nat -> ((cur + 1) mod n)%nat <> cur.
Proof.
  intros Hc Hn. destruct (decide (cur + 1 < n)%nat) as [Hlt|Hge].
  - rewrite Nat.mod_small by done. lia.
  - replace (cur + 1)%nat with n by lia. rewrite Nat.Div0.mod_same. lia.
Qed.

(** In a pool of two or more endpoints, the callback of the cooldown timer,
    run when the timer falls due and nothing else has touched the pool, leaves
    the endpoint that failed as it was: unhealthy, with three failures. *)
Lemma cooldown_misses_failed_endpoint cooldown m now :
  wf m ->
  (2 <= providersLength m)%nat ->
  cooldownTimers m = [] ->
  failCounts m !! currentIndex m = Some 2%nat ->
  let m' := runTimers (reportFailure cooldown m now) (now + cooldown) in
  healthStatus m' !! currentIndex m = Some false /\
  failCounts m' !! currentIndex m = Some 3%nat.
Proof.
  intros Hwf Hn Hts H2.
  destruct (reportFailure_third cooldown m now Hwf H2) as (Hh & Hf & Hc & Ht & _).
  pose proof Hwf as (_ & _ & _ & Hcur).
  pose proof (next_index_differs _ _ Hcur Hn) as Hne.
  simpl. unfold runTimers. rewrite Ht, Hts. simpl.
  rewrite filter_cons_True by lia. rewrite filter_cons_False by lia.
  rewrite !filter_nil. simpl. rewrite Hc.
  split; rewrite list_lookup_insert_ne by done; assumption.
Qed.

(** C5: at the pool of a primary and one backup endpoint, three failures in
    a row on the primary mark it unhealthy and select the backup; when the
    cooldown has elapsed, the timer callback resets the backup, the endpoint
    selected at that time, and the primary stays unhealthy with a failure
    count of three. *)
Theorem cooldown_resets_other_endpoint (cooldown : Z) :
  let failed :=
    reportFailure cooldown
      (reportFailure cooldown (reportFailure cooldown freshPool 0) 0) 0 in
  let cooled := runTimers failed (0 + cooldown) in
  healthStatus failed = [false; true] /\
  currentIndex failed = 1%nat /\
  healthStatus cooled = [false; true] /\
  failCounts cooled = [3; 0]%nat.
Proof.
  simpl. unfold runTimers. simpl.
  rewrite filter_cons_True by lia. rewrite filter_cons_False by lia.
  rewrite !filter_nil. done.
Qed.

End RPCManagerFacts.

(** ** The gas price query *)

Section NetworkServiceFacts.
Import NetworkService.

Lemma withBuffer_floor price multiplier k :
  mathFloor (multiplier * 100) = Some k ->
  0 <= k < 9007199254740991 ->
  withBuffer price multiplier = Ok (price * Z.to_N k / 100)%N.
Proof.
  intros Hk Hrange. unfold withBuffer, bigNumberFrom. rewrite Hk.
  replace (k <? 9007199254740991) with true by (symmetry; apply Z.ltb_lt; lia).
  replace (-9007199254740991 <? k) with true by (symmetry; apply Z.ltb_lt; lia).
  simpl. f_equal.
  rewrite Z.quot_div_nonneg by lia.
  rewrite <- (Z2N.id k) at 1 by lia.
  rewrite <- N2Z.inj_mul. change 100 with (Z.of_N 100).
  rewrite <- N2Z.inj_div. apply N2Z.id.
Qed.

(** The buffer of ten percent used by the evaluator is 110 hundredths. *)
Lemma gasBuffer_hundredths :
  mathFloor (ProfitCalculator.gasBuffer * 100) = Some 110.
Proof. reflexivity. Qed.

Lemma getGasPrice_cached {E} (chain : Chain E) (w : World E) (m : float) now e1 :
  dateNow chain (env w) = (now, e1) ->
  now - lastCheckTime (networkHealth w) < 120000 ->
  getGasPrice chain m w =
    tryCatch
      (if (1 <? m)%float then liftRes (withBuffer (gasPrice (networkHealth w)) m)
       else ret (gasPrice (networkHealth w)))
      (fun _ => let* w := get in ret (gasPrice (networkHealth w)))
      (setEnv e1 w).
Proof.
  intros Hnow Hage. unfold getGasPrice, tryCatch.
  rewrite (bind_ok _ _ _ _ _ (callTotal_eq _ _ _ _ Hnow)).
  unfold get at 1. unfold bind at 1. simpl.
  replace (now - lastCheckTime (networkHealth w) <? 2 * 60 * 1000) with true
    by (symmetry; apply Z.ltb_lt; lia).
  done.
Qed.

Lemma getGasPrice_sampled {E} (chain : Chain E) (w : World E) (m : float) now e1 r e2 :
  dateNow chain (env w) = (now, e1) ->
  120000 <= now - lastCheckTime (networkHealth w) ->
  providerGetGasPrice chain e1 = (r, e2) ->
  getGasPrice chain m w =
    match r with
    | Ok p =>
        tryCatch
          (if (1 <? m)%float then liftRes (withBuffer p m) else ret p)
          (fun _ => let* w := get in ret (gasPrice (networkHealth w)))
          (setGasPrice p (setEnv e2 w))
    | Throw _ => (Ok (gasPrice (networkHealth w)), setEnv e2 w)
    end.
Proof.
  intros Hnow Hage Hsample. unfold getGasPrice, tryCatch.
  rewrite (bind_ok _ _ _ _ _ (callTotal_eq _ _ _ _ Hnow)).
  unfold get at 1. unfold bind at 1. simpl.
  replace (now - lastCheckTime (networkHealth w) <? 2 * 60 * 1000) with false
    by (symmetry; apply Z.ltb_ge; lia).
  unfold bind at 1. unfold call. simpl. rewrite Hsample.
  destruct r as [p|e]; [|done].
  unfold bind at 1. unfold modify. done.
Qed.

(** When the sample fails, the stored price is returned as it is. *)
Lemma getGasPrice_sampling_fails {E} (chain : Chain E) (w : World E) m now e1 e e2 :
  dateNow chain (env w) = (now, e1) ->
  120000 <= now - lastCheckTime (networkHealth w) ->
  providerGetGasPrice chain e1 = (Throw e, e2) ->
  getGasPrice chain m w = (Ok (gasPrice (networkHealth w)), setEnv e2 w).
Proof. intros Hnow Hage Hs. by rewrite (getGasPrice_sampled _ _ _ _ _ _ _ Hnow Hage Hs). Qed.

(** [getGasPrice] returns from every state. *)
Lemma getGasPrice_returns {E} (chain : Chain E) m : returns (getGasPrice chain m).
Proof. unfold getGasPrice. auto 10 with returns. Qed.

Lemma getGasPrice_feeFrame {E} (chain : Chain E) m : feeFrame (getGasPrice chain m).
Proof. unfold getGasPrice. auto 20 with feeFrame. Qed.

(** Rounding to the nearest double keeps the sign. *)
Lemma binary_round_aux_sign prec emax sx mx ex lx :
  match binary_round_aux prec emax sx mx ex lx with
  | S754_finite s _ _ => s = sx
  | _ => True
  end.
Proof.
  unfold binary_round_aux.
  destruct (shr_fexp _ _ _ _ _) as [mrs' e'].
  destruct (shr_fexp _ _ _ _ _) as [mrs'' e''].
  destruct (shr_m mrs''); try exact I.
  destruct (_ <=? _); [reflexivity|exact I].
Qed.

(** One hundred times a multiplier greater than one is not negative. *)
Lemma mathFloor_hundredfold_nonneg (m : float) k :
  (1 <? m)%float = true -> mathFloor (m * 100) = Some k -> 0 <= k.
Proof.
  intros Hm Hk. rewrite FloatAxioms.ltb_spec in Hm.
  unfold mathFloor in Hk. rewrite FloatAxioms.mul_spec in Hk.
  change (Prim2SF 100) with (S754_finite false 7036874417766400 (-46)) in Hk.
  change (Prim2SF 1) with (S754_finite false 4503599627370496 (-52)) in Hm.
  destruct (Prim2SF m) as [s|s| |s mm e].
  - simpl in Hk. injection Hk as <-. lia.
  - simpl in Hk. destruct s; discriminate.
  - discriminate.
  - destruct s; [simpl in Hm; discriminate|].
    unfold FloatAxioms.SF64mul, SFmul in Hk. cbn [xorb] in Hk.
    pose proof (binary_round_aux_sign prec emax false
                  (Z.pos (mm * 7036874417766400)) (e + -46) loc_Exact) as Hs.
    destruct (binary_round_aux _ _ _ _ _ _) as [s'|s'| |s' m' e']; try discriminate.
    + injection Hk as <-. lia.
    + subst s'. injection Hk as <-.
      destruct (Z.leb_spec 0 e').
      * pose proof (Z.pow_nonneg 2 e' ltac:(lia)) as Hpow.
        destruct (2 ^ e')%Z; lia.
      * apply Z.div_pos; [lia|]. apply Z.pow_pos_nonneg; lia.
Qed.

(** The buffer of a multiplier greater than one whose hundredfold is a safe
    integer. *)
Lemma withBuffer_safe price (m : float) k :
  (1 <? m)%float = true -> mathFloor (m * 100) = Some k -> k < 9007199254740991 ->
  withBuffer price m = Ok (price * Z.to_N k / 100)%N.
Proof.
  intros Hm Hk Hsafe. apply withBuffer_floor; [done|].
  pose proof (mathFloor_hundredfold_nonneg m k Hm Hk). lia.
Qed.

(** A multiplier whose hundredfold is not a safe integer makes the
    conversion throw. *)
Lemma withBuffer_unsafe price (m : float) :
  mathFloor (m * 100) = None \/
  (exists k, mathFloor (m * 100) = Some k /\ 9007199254740991 <= k) ->
  exists e, withBuffer price m = Throw e.
Proof.
  intros [Hk|(k & Hk & Hbig)]; unfold withBuffer, bigNumberFrom; rewrite Hk.
  - by eexists.
  - replace (k <? 9007199254740991) with false by (symmetry; apply Z.ltb_ge; lia).
    by eexists.
Qed.

(** C9, as amended: the price selected is the stored one when the last
    health check is less than two minutes old, and otherwise a fresh sample,
    which is stored.  For a multiplier greater than one whose hundredfold,
    rounded down by [Math.floor], is below 9007199254740991, the value
    returned is the integer quotient by 100 of the price times that integer.
    For a multiplier greater than one whose hundredfold is infinite or
    rounds down to 9007199254740991 or more, the conversion of ethers throws
    and the [catch] block returns the selected price without the buffer.
    For any other multiplier the price is returned unchanged.  When the
    sample fails, the stored price is returned without the buffer, whatever
    the multiplier. *)
Theorem getGasPrice_buffer {E} (chain : Chain E) (w : World E) (m : float) now e1 :
  dateNow chain (env w) = (now, e1) ->
  let stored := gasPrice (networkHealth w) in
  let unsafe :=
    mathFloor (m * 100) = None \/
    (exists k, mathFloor (m * 100) = Some k /\ 9007199254740991 <= k) in
  (now - lastCheckTime (networkHealth w) < 120000 ->
     ((1 <? m)%float = false ->
        getGasPrice chain m w = (Ok stored, setEnv e1 w)) /\
     (forall k, (1 <? m)%float = true ->
        mathFloor (m * 100) = Some k -> k < 9007199254740991 ->
        getGasPrice chain m w = (Ok (stored * Z.to_N k / 100)%N, setEnv e1 w)) /\
     ((1 <? m)%float = true -> unsafe ->
        getGasPrice chain m w = (Ok stored, setEnv e1 w))) /\
  (120000 <= now - lastCheckTime (networkHealth w) ->
     (forall sampled e2, providerGetGasPrice chain e1 = (Ok sampled, e2) ->
        ((1 <? m)%float = false ->
           getGasPrice chain m w = (Ok sampled, setGasPrice sampled (setEnv e2 w))) /\
        (forall k, (1 <? m)%float = true ->
           mathFloor (m * 100) = Some k -> k < 9007199254740991 ->
           getGasPrice chain m w =
             (Ok (sampled * Z.to_N k / 100)%N, setGasPrice sampled (setEnv e2 w))) /\
        ((1 <? m)%float = true -> unsafe ->
           getGasPrice chain m w = (Ok sampled, setGasPrice sampled (setEnv e2 w)))) /\
     (forall e e2, providerGetGasPrice chain e1 = (Throw e, e2) ->
        getGasPrice chain m w = (Ok stored, setEnv e2 w))).
Proof.
  intros Hnow stored unsafe. subst stored unsafe. split.
  - intros Hage. rewrite (getGasPrice_cached _ _ _ _ _ Hnow Hage).
    split; [|split].
    + intros ->. done.
    + intros k Hm Hk Hsafe. rewrite Hm. unfold tryCatch, liftRes.
      by rewrite (withBuffer_safe _ _ _ Hm Hk Hsafe).
    + intros -> Hunsafe. unfold tryCatch, liftRes.
      destruct (withBuffer_unsafe (gasPrice (networkHealth w)) m Hunsafe) as [e ->].
      done.
  - intros Hage. split.
    + intros sampled e2 Hs.
      rewrite (getGasPrice_sampled _ _ _ _ _ _ _ Hnow Hage Hs). split; [|split].
      * intros ->. done.
      * intros k Hm Hk Hsafe. rewrite Hm. unfold tryCatch, liftRes.
        by rewrite (withBuffer_safe _ _ _ Hm Hk Hsafe).
      * intros -> Hunsafe. unfold tryCatch, liftRes.
        destruct (withBuffer_unsafe sampled m Hunsafe) as [e ->]. done.
    + intros e e2 Hs. by apply (getGasPrice_sampling_fails chain w m now e1 e e2).
Qed.

Lemma getGasPrice_buffer_witness :
  getGasPrice Scenario.quietChain ProfitCalculator.gasBuffer Scenario.checkedWorld
    = (Ok 110%N, Scenario.checkedWorld) /\
  getGasPrice Scenario.quietChain 1e14 Scenario.checkedWorld
    = (Ok 100%N, Scenario.checkedWorld) /\
  getGasPrice Scenario.quietChain infinity Scenario.checkedWorld
    = (Ok 100%N, Scenario.checkedWorld).
Proof.
  split; [|split].
  - destruct (getGasPrice_buffer Scenario.quietChain Scenario.checkedWorld
                ProfitCalculator.gasBuffer 1000 1000 eq_refl) as [Hcached _].
    destruct Hcached as (_ & Hbuffered & _); [vm_compute; reflexivity|].
    apply (Hbuffered 110); [reflexivity | reflexivity | lia].
  - destruct (getGasPrice_buffer Scenario.quietChain Scenario.checkedWorld
                1e14 1000 1000 eq_refl) as [Hcached _].
    destruct Hcached as (_ & _ & Hunsafe); [vm_compute; reflexivity|].
    apply Hunsafe; [reflexivity|].
    right. exists 10000000000000000. split; [reflexivity|lia].
  - destruct (getGasPrice_buffer Scenario.quietChain Scenario.checkedWorld
                infinity 1000 1000 eq_refl) as [Hcached _].
    destruct Hcached as (_ & _ & Hunsafe); [vm_compute; reflexivity|].
    apply Hunsafe; [reflexivity|]. left. reflexivity.
Defined.

(** The value returned is not the price times the rounded multiplier: with a
    stored price of 100 wei, the multiplier 1.15 gives 114 and the multiplier
    0.5 gives 100; and when the last check is more than two minutes old and
    the sample fails, the multiplier 1.1 gives 100. *)
Lemma getGasPrice_not_stated_buffer :
  (exists v w', getGasPrice Scenario.quietChain Scenario.oneFifteen
                  Scenario.checkedWorld = (Ok v, w') /\
                ~ statedBuffer 100 v Scenario.oneFifteen) /\
  (exists v w', getGasPrice Scenario.quietChain 0.5 Scenario.checkedWorld = (Ok v, w') /\
                ~ statedBuffer 100 v 0.5) /\
  (exists v w', getGasPrice Scenario.quietChain ProfitCalculator.gasBuffer
                  Examples.lateWorld = (Ok v, w') /\
                ~ statedBuffer 100 v ProfitCalculator.gasBuffer).
Proof.
  split; [|split].
  - exists 114%N, Scenario.checkedWorld. split; [reflexivity|].
    intros (h & Hh & Heq). vm_compute in Hh. injection Hh as <-. lia.
  - exists 100%N, Scenario.checkedWorld. split; [reflexivity|].
    intros (h & Hh & Heq). vm_compute in Hh. injection Hh as <-. lia.
  - exists 100%N, Examples.lateWorld. split; [reflexivity|].
    intros (h & Hh & Heq). vm_compute in Hh. injection Hh as <-. lia.
Qed.

End NetworkServiceFacts.

(** ** Reference prices *)

Section PriceServiceFacts.
Import PriceService.
Context {E : Type} (chain : Chain E) (K : Constants).

Lemma updateBnbPrice_returns : returns (updateBnbPrice chain K).
Proof. unfold updateBnbPrice. auto 10 with returns. Qed.

Lemma refreshBnbPriceIfStale_returns : returns (refreshBnbPriceIfStale chain K).
Proof.
  unfold refreshBnbPriceIfStale.
  pose proof updateBnbPrice_returns. auto 10 with returns.
Qed.

Lemma cachePrice_returns t p : returns (cachePrice chain t p).
Proof. unfold cachePrice. auto 10 with returns. Qed.

Lemma cachedPrice_returns t : returns (cachedPrice chain t).
Proof. unfold cachedPrice. auto 10 with returns. Qed.

(** [getTokenPriceUSD] returns a number from every state. *)
Lemma getTokenPriceUSD_returns t d : returns (getTokenPriceUSD chain K t d).
Proof.
  unfold getTokenPriceUSD.
  pose proof cachedPrice_returns. auto 10 with returns.
Qed.

Lemma convertToUSD_returns a t d : returns (convertToUSD chain K a t d).
Proof.
  unfold convertToUSD.
  pose proof getTokenPriceUSD_returns. auto 10 with returns.
Qed.

Lemma cachedPrice_absent t (w : World E) :
  priceCache w !! t = None -> cachedPrice chain t w = (Ok None, w).
Proof. intros H. unfold cachedPrice, bind, get. by rewrite H. Qed.

Lemma cachedPrice_present t (w : World E) c now e1 :
  priceCache w !! t = Some c ->
  dateNow chain (env w) = (now, e1) ->
  cachedPrice chain t w =
    (Ok (if now - timestamp c <? 300000 then Some (price c) else None), setEnv e1 w).
Proof.
  intros H Hnow. unfold cachedPrice, bind, get. rewrite H.
  unfold callTotal. by rewrite Hnow.
Qed.

(** The reference rate is refreshed exactly when it is more than ten minutes
    old. *)
Lemma refreshBnbPriceIfStale_eq (w : World E) now e1 :
  dateNow chain (env w) = (now, e1) ->
  refreshBnbPriceIfStale chain K w =
    if 600000 <? now - lastUpdated w
    then (Ok tt, (updateBnbPrice chain K (setEnv e1 w)).2)
    else (Ok tt, setEnv e1 w).
Proof.
  intros Hnow. unfold refreshBnbPriceIfStale.
  rewrite (bind_ok _ _ _ _ _ (callTotal_eq _ _ _ _ Hnow)).
  unfold get at 1. unfold bind at 1. simpl.
  change (10 * 60 * 1000) with 600000.
  destruct (600000 <? now - lastUpdated w); [|done].
  destruct (updateBnbPrice_returns (setEnv e1 w)) as (p & w' & Hu).
  unfold bind. by rewrite Hu.
Qed.

Lemma catchNull_call_quote (f : E -> Res (list N) * E) (w : World E) r e' :
  f (env w) = (r, e') ->
  catchNull (call f) w =
    (Ok match r with Ok l => Some l | Throw _ => None end, setEnv e' w).
Proof.
  intros H. unfold catchNull, call. rewrite H. by destruct r.
Qed.

Lemma getTokenPriceUSD_hit t d (w w1 : World E) p :
  cachedPrice chain t w = (Ok (Some p), w1) ->
  getTokenPriceUSD chain K t d w = (Ok p, w1).
Proof. intros H. unfold getTokenPriceUSD. by rewrite (bind_ok _ _ _ _ _ H). Qed.

Lemma getTokenPriceUSD_stable t d (w w1 : World E) :
  cachedPrice chain t w = (Ok None, w1) ->
  isStablecoin K t = true ->
  getTokenPriceUSD chain K t d w = (Ok 1%float, w1).
Proof.
  intros H Hs. unfold getTokenPriceUSD. rewrite (bind_ok _ _ _ _ _ H).
  unfold tryCatch. by rewrite Hs.
Qed.

Lemma getTokenPriceUSD_native d (w w1 w2 : World E) :
  cachedPrice chain (WBNB K) w = (Ok None, w1) ->
  isStablecoin K (WBNB K) = false ->
  refreshBnbPriceIfStale chain K w1 = (Ok tt, w2) ->
  getTokenPriceUSD chain K (WBNB K) d w = (Ok (bnbPrice w2), w2).
Proof.
  intros H Hs Hr. unfold getTokenPriceUSD. rewrite (bind_ok _ _ _ _ _ H).
  unfold tryCatch. rewrite Hs, bool_decide_eq_true_2 by done.
  by rewrite (bind_ok _ _ _ _ _ Hr).
Qed.

Lemma getTokenPriceUSD_one_hop t d (w w1 : World E) l a e2 now e3 :
  cachedPrice chain t w = (Ok None, w1) ->
  isStablecoin K t = false -> t <> WBNB K ->
  getAmountsOut chain PancakeSwap (10 ^ N.of_nat d) [t; BUSD K] (env w1) = (Ok l, e2) ->
  l !! 1%nat = Some a ->
  dateNow chain e2 = (now, e3) ->
  let p := formatUnits chain a 18 in
  getTokenPriceUSD chain K t d w =
    (Ok p, setPriceCache (<[t := mkCacheEntry p now]> (priceCache w1)) (setEnv e3 w1)).
Proof.
  intros H Hs Hn Hq Ha Hnow p. unfold getTokenPriceUSD.
  rewrite (bind_ok _ _ _ _ _ H).
  unfold tryCatch. rewrite Hs, bool_decide_eq_false_2 by done.
  rewrite (bind_ok _ _ _ _ _ (catchNull_call_quote _ _ _ _ Hq)). simpl.
  rewrite Ha. unfold cachePrice.
  unfold bind at 1. unfold bind at 1. unfold callTotal. simpl. rewrite Hnow.
  done.
Qed.

Lemma getTokenPriceUSD_two_hop t d (w w1 w2 : World E) r1 e2 l b e3 now e4 :
  cachedPrice chain t w = (Ok None, w1) ->
  isStablecoin K t = false -> t <> WBNB K ->
  getAmountsOut chain PancakeSwap (10 ^ N.of_nat d) [t; BUSD K] (env w1) = (r1, e2) ->
  noQuote r1 ->
  getAmountsOut chain PancakeSwap (10 ^ N.of_nat d) [t; WBNB K] e2 = (Ok l, e3) ->
  l !! 1%nat = Some b ->
  refreshBnbPriceIfStale chain K (setEnv e3 w1) = (Ok tt, w2) ->
  dateNow chain (env w2) = (now, e4) ->
  let p := (formatUnits chain b 18 * bnbPrice w2)%float in
  getTokenPriceUSD chain K t d w =
    (Ok p, setPriceCache (<[t := mkCacheEntry p now]> (priceCache w2)) (setEnv e4 w2)).
Proof.
  intros H Hs Hn Hq1 Hno Hq2 Hb Hr Hnow p. unfold getTokenPriceUSD.
  rewrite (bind_ok _ _ _ _ _ H).
  unfold tryCatch. rewrite Hs, bool_decide_eq_false_2 by done.
  rewrite (bind_ok _ _ _ _ _ (catchNull_call_quote _ _ _ _ Hq1)).
  replace (match r1 with Ok l0 => Some l0 | Throw _ => None end ≫= (fun l0 => l0 !! 1%nat))
    with (@None N) by (destruct r1; simpl in *; done).
  assert (Hq2' : getAmountsOut chain PancakeSwap (10 ^ N.of_nat d) [t; WBNB K]
                   (env (setEnv e2 w1)) = (Ok l, e3)) by done.
  rewrite (bind_ok _ _ _ _ _ (catchNull_call_quote _ _ _ _ Hq2')). simpl.
  rewrite Hb.
  rewrite (bind_ok _ _ _ _ _ Hr).
  unfold get at 1. unfold bind at 1.
  unfold cachePrice.
  unfold bind at 1. unfold bind at 1. unfold callTotal. rewrite Hnow.
  done.
Qed.

Lemma getTokenPriceUSD_unpriced t d (w w1 : World E) r1 e2 r2 e3 :
  cachedPrice chain t w = (Ok None, w1) ->
  isStablecoin K t = false -> t <> WBNB K ->
  getAmountsOut chain PancakeSwap (10 ^ N.of_nat d) [t; BUSD K] (env w1) = (r1, e2) ->
  noQuote r1 ->
  getAmountsOut chain PancakeSwap (10 ^ N.of_nat d) [t; WBNB K] e2 = (r2, e3) ->
  noQuote r2 ->
  getTokenPriceUSD chain K t d w = (Ok 0%float, setEnv e3 w1).
Proof.
  intros H Hs Hn Hq1 Hno1 Hq2 Hno2. unfold getTokenPriceUSD.
  rewrite (bind_ok _ _ _ _ _ H).
  unfold tryCatch. rewrite Hs, bool_decide_eq_false_2 by done.
  rewrite (bind_ok _ _ _ _ _ (catchNull_call_quote _ _ _ _ Hq1)).
  replace (match r1 with Ok l0 => Some l0 | Throw _ => None end ≫= (fun l0 => l0 !! 1%nat))
    with (@None N) by (destruct r1; simpl in *; done).
  assert (Hq2' : getAmountsOut chain PancakeSwap (10 ^ N.of_nat d) [t; WBNB K]
                   (env (setEnv e2 w1)) = (r2, e3)) by done.
  rewrite (bind_ok _ _ _ _ _ (catchNull_call_quote _ _ _ _ Hq2')).
  replace (match r2 with Ok l0 => Some l0 | Throw _ => None end ≫= (fun l0 => l0 !! 1%nat))
    with (@None N) by (destruct r2; simpl in *; done).
  done.
Qed.

Lemma getTokenPriceUSD_feeFrame t d : feeFrame (getTokenPriceUSD chain K t d).
Proof.
  unfold getTokenPriceUSD, cachedPrice, refreshBnbPriceIfStale, updateBnbPrice, cachePrice.
  auto 30 with feeFrame.
Qed.

Lemma convertToUSD_feeFrame a t d : feeFrame (convertToUSD chain K a t d).
Proof.
  unfold convertToUSD. pose proof getTokenPriceUSD_feeFrame. auto with feeFrame.
Qed.

(** The cache never holds an entry for a stablecoin or for the wrapped
    native asset. *)
Lemma getTokenPriceUSD_cacheClean t d :
  preserves (cacheClean K) (getTokenPriceUSD chain K t d).
Proof.
  assert (Henv : forall e (w : World E), cacheClean K w -> cacheClean K (setEnv e w))
    by (intros e w H; exact H).
  assert (Hbnb : forall p (w : World E), cacheClean K w -> cacheClean K (setBnbPrice p w))
    by (intros e w H; exact H).
  assert (Hupd : forall u (w : World E), cacheClean K w -> cacheClean K (setLastUpdated u w))
    by (intros e w H; exact H).
  assert (Hrefresh : preserves (cacheClean K) (refreshBnbPriceIfStale chain K)).
  { unfold refreshBnbPriceIfStale, updateBnbPrice. auto 15 with preserves. }
  assert (Hstore : isStablecoin K t = false -> t <> WBNB K ->
                   forall p, preserves (cacheClean K) (cachePrice chain t p)).
  { intros Hs Hn p. unfold cachePrice.
    apply preserves_bind; [auto with preserves|]. intros now.
    apply preserves_modify. intros w Hw t' Ht'. simpl.
    rewrite lookup_insert_ne; [by apply Hw|].
    intros <-. destruct Ht' as [Ht'|Ht']; congruence. }
  unfold getTokenPriceUSD.
  apply preserves_bind.
  { unfold cachedPrice. auto 10 with preserves. }
  intros [p|]; [auto with preserves|].
  apply preserves_tryCatch; [|auto with preserves].
  destruct (isStablecoin K t) eqn:Hs; [auto with preserves|].
  destruct (bool_decide (t = WBNB K)) eqn:Hn; [auto 10 with preserves|].
  apply bool_decide_eq_false_1 in Hn.
  auto 20 with preserves.
Qed.

(** A refresh that gets a quote of one WBNB in BUSD on PancakeSwap stores
    the price and the time read after the quote. *)
Lemma updateBnbPrice_quoted (w : World E) amounts a e1 now e2 :
  getAmountsOut chain PancakeSwap (10 ^ 18)%N [WBNB K; BUSD K] (env w)
    = (Ok amounts, e1) ->
  amounts !! 1%nat = Some a ->
  dateNow chain e1 = (now, e2) ->
  updateBnbPrice chain K w =
    (Ok (formatUnits chain a 18),
     setLastUpdated now (setBnbPrice (formatUnits chain a 18) (setEnv e2 w))).
Proof.
  intros Hquote Ha Hnow.
  unfold updateBnbPrice, tryCatch, bind, call, callTotal, modify, get, ret.
  rewrite Hquote, Ha. cbn [env setEnv setBnbPrice]. rewrite Hnow. reflexivity.
Qed.

(** A refresh that gets no quote leaves the rate and its time as they
    were. *)
Lemma updateBnbPrice_unquoted (w : World E) r e1 :
  getAmountsOut chain PancakeSwap (10 ^ 18)%N [WBNB K; BUSD K] (env w) = (r, e1) ->
  noQuote r ->
  updateBnbPrice chain K w = (Ok (bnbPrice w), setEnv e1 w).
Proof.
  intros Hquote Hno.
  unfold updateBnbPrice, tryCatch, bind, call, callTotal, modify, get, ret, throw.
  rewrite Hquote. destruct r as [amounts|msg]; [|reflexivity].
  simpl in Hno. rewrite Hno. reflexivity.
Qed.

Lemma refreshBnbPriceIfStale_fresh (w : World E) now e1 :
  dateNow chain (env w) = (now, e1) ->
  now - lastUpdated w <= 600000 ->
  refreshBnbPriceIfStale chain K w = (Ok tt, setEnv e1 w).
Proof.
  intros Hnow Hage. rewrite (refreshBnbPriceIfStale_eq _ _ _ Hnow).
  by replace (600000 <? now - lastUpdated w) with false
    by (symmetry; apply Z.ltb_ge; lia).
Qed.

Lemma refreshBnbPriceIfStale_quoted (w : World E) now e1 amounts a e2 now2 e3 :
  dateNow chain (env w) = (now, e1) ->
  600000 < now - lastUpdated w ->
  getAmountsOut chain PancakeSwap (10 ^ 18)%N [WBNB K; BUSD K] e1 = (Ok amounts, e2) ->
  amounts !! 1%nat = Some a ->
  dateNow chain e2 = (now2, e3) ->
  refreshBnbPriceIfStale chain K w =
    (Ok tt, setLastUpdated now2 (setBnbPrice (formatUnits chain a 18) (setEnv e3 w))).
Proof.
  intros Hnow Hage Hquote Ha Hnow2. rewrite (refreshBnbPriceIfStale_eq _ _ _ Hnow).
  replace (600000 <? now - lastUpdated w) with true
    by (symmetry; apply Z.ltb_lt; lia).
  by rewrite (updateBnbPrice_quoted (setEnv e1 w) amounts a e2 now2 e3 Hquote Ha Hnow2).
Qed.

Lemma refreshBnbPriceIfStale_unquoted (w : World E) now e1 r e2 :
  dateNow chain (env w) = (now, e1) ->
  600000 < now - lastUpdated w ->
  getAmountsOut chain PancakeSwap (10 ^ 18)%N [WBNB K; BUSD K] e1 = (r, e2) ->
  noQuote r ->
  refreshBnbPriceIfStale chain K w = (Ok tt, setEnv e2 w).
Proof.
  intros Hnow Hage Hquote Hno. rewrite (refreshBnbPriceIfStale_eq _ _ _ Hnow).
  replace (600000 <? now - lastUpdated w) with true
    by (symmetry; apply Z.ltb_lt; lia).
  by rewrite (updateBnbPrice_unquoted (setEnv e1 w) r e2 Hquote Hno).
Qed.


End PriceServiceFacts.


(** ** The profitability evaluator *)

Section ProfitCalculatorFacts.
Import ProfitCalculator.
Context {E : Type} (chain : Chain E) (K : Constants).

Lemma flashLoanFee_ok loanAmount fromPancake fees :
  selectedDenominator fromPancake fees <> 0%N ->
  exists fee,
    (if fromPancake then
       flashLoanFeeOf loanAmount (pancakeSwapFeeNumerator fees)
         (pancakeSwapFeeDenominator fees)
     else
       flashLoanFeeOf loanAmount (biswapFeeNumerator fees)
         (biswapFeeDenominator fees)) = Ok fee.
Proof.
  unfold selectedDenominator, flashLoanFeeOf, bnDiv.
  destruct fromPancake; intros Hd.
  - destruct (N.eqb_spec (pancakeSwapFeeDenominator fees) 0); [done|eauto].
  - destruct (N.eqb_spec (biswapFeeDenominator fees) 0); [done|eauto].
Qed.

Lemma flashLoanFee_zero loanAmount fromPancake fees :
  selectedDenominator fromPancake fees = 0%N ->
  (if fromPancake then
     flashLoanFeeOf loanAmount (pancakeSwapFeeNumerator fees)
       (pancakeSwapFeeDenominator fees)
   else
     flashLoanFeeOf loanAmount (biswapFeeNumerator fees)
       (biswapFeeDenominator fees)) = Throw "division-by-zero".
Proof.
  unfold selectedDenominator, flashLoanFeeOf, bnDiv.
  destruct fromPancake; intros ->; done.
Qed.

(** [calculateProfit] returns a result, never an exception. *)
Lemma calculateProfit_returns data loan fromPancake details :
  returns (calculateProfit chain K data loan fromPancake details).
Proof. unfold calculateProfit. auto with returns. Qed.

(** A rejected oracle call gives a rejected result. *)
Lemma calculateProfit_oracle_throws data loan fromPancake details (w : World E) e e1 :
  checkArbitrageProfitability chain data loan fromPancake (env w) = (Throw e, e1) ->
  calculateProfit chain K data loan fromPancake details w =
    (Ok (Rejected e), setEnv e1 w).
Proof.
  intros Hcall. unfold calculateProfit, tryCatch.
  by rewrite (bind_throw _ _ _ _ _ (call_eq _ _ _ _ Hcall)).
Qed.

(** The run of [calculateProfit] after an oracle answer of three values. *)
Lemma calculateProfit_steps data loan fromPancake details (w w1 w2 w3 : World E)
    p f u e1 g profit loanValue :
  checkArbitrageProfitability chain data loan fromPancake (env w) = (Ok [p; f; u], e1) ->
  NetworkService.getGasPrice chain gasBuffer (setEnv e1 w) = (Ok g, w1) ->
  PriceService.convertToUSD chain K u (address details) (decimals details) w1
    = (Ok profit, w2) ->
  PriceService.convertToUSD chain K loan (address details) (decimals details) w2
    = (Ok loanValue, w3) ->
  let gasCost := (formatUnits chain (g * GAS_LIMIT K) 18 * bnbPrice w1)%float in
  let net := netProfitOf profit gasCost in
  let percentage := profitPercentageOf net loanValue in
  calculateProfit chain K data loan fromPancake details w =
    if (selectedDenominator fromPancake (feeParameters w1) =? 0)%N
    then (Ok (Rejected "division-by-zero"), w1)
    else (Ok (Evaluated
                (mkBreakdown p f u profit net gasCost loanValue percentage
                   (MIN_PROFIT_PERCENTAGE K <=? percentage)%float)), w3).
Proof.
  intros Hcall Hgas Hprofit Hloan gasCost net percentage.
  unfold calculateProfit, tryCatch.
  rewrite (bind_ok _ _ _ _ _ (call_eq _ _ _ _ Hcall)).
  rewrite (bind_ok _ _ _ _ _ Hgas).
  unfold get at 1. unfold bind at 1.
  destruct (N.eqb_spec (selectedDenominator fromPancake (feeParameters w1)) 0) as [Hz|Hnz].
  - unfold bind at 1, liftRes. by rewrite (flashLoanFee_zero _ _ _ Hz).
  - destruct (flashLoanFee_ok loan _ _ Hnz) as [fee Hfee].
    unfold bind at 1, liftRes. rewrite Hfee.
    rewrite (bind_ok _ _ _ _ _ Hprofit). rewrite (bind_ok _ _ _ _ _ Hloan).
    done.
Qed.

(** An oracle answer that does not have three values gives a rejected
    result. *)
Lemma calculateProfit_bad_length data loan fromPancake details (w : World E) l e1 :
  checkArbitrageProfitability chain data loan fromPancake (env w) = (Ok l, e1) ->
  length l <> 3%nat ->
  calculateProfit chain K data loan fromPancake details w =
    (Ok (Rejected ("Invalid profitability result for " +:+ symbol details)),
     setEnv e1 w).
Proof.
  intros Hcall Hlen. unfold calculateProfit, tryCatch.
  rewrite (bind_ok _ _ _ _ _ (call_eq _ _ _ _ Hcall)).
  by destruct l as [|a [|b [|c [|d l]]]].
Qed.

Lemma calculateProfit_frame data loan fromPancake details (w : World E) F :
  selectedDenominator fromPancake (feeParameters w) <> 0%N ->
  selectedDenominator fromPancake F <> 0%N ->
  calculateProfit chain K data loan fromPancake details (setFeeParameters F w) =
    ((calculateProfit chain K data loan fromPancake details w).1,
     setFeeParameters F (calculateProfit chain K data loan fromPancake details w).2).
Proof.
  intros Hw HF.
  destruct (checkArbitrageProfitability chain data loan fromPancake (env w))
    as [r e1] eqn:Hcall.
  assert (Hcall' : checkArbitrageProfitability chain data loan fromPancake
                     (env (setFeeParameters F w)) = (r, e1)) by exact Hcall.
  destruct r as [l|e].
  - destruct (decide (length l = 3%nat)) as [Hlen|Hlen].
    + destruct l as [|p [|f [|u [|x l]]]]; try done. clear Hlen.
      destruct (NetworkService.getGasPrice chain gasBuffer (setEnv e1 w))
        as [[g|e] w1] eqn:Hg;
        [|by destruct (getGasPrice_returns chain gasBuffer (setEnv e1 w)) as (? & ? & ?);
            congruence].
      destruct (PriceService.convertToUSD chain K u (address details) (decimals details) w1)
        as [[pu|e] w2] eqn:Hp;
        [|by destruct (convertToUSD_returns chain K u (address details) (decimals details) w1)
              as (? & ? & ?); congruence].
      destruct (PriceService.convertToUSD chain K loan (address details) (decimals details) w2)
        as [[lu|e] w3] eqn:Hl;
        [|by destruct (convertToUSD_returns chain K loan (address details) (decimals details) w2)
              as (? & ? & ?); congruence].
      assert (Hg' : NetworkService.getGasPrice chain gasBuffer
                      (setEnv e1 (setFeeParameters F w)) = (Ok g, setFeeParameters F w1)).
      { change (setEnv e1 (setFeeParameters F w))
          with (setFeeParameters F (setEnv e1 w)).
        by rewrite getGasPrice_feeFrame, Hg. }
      assert (Hp' : PriceService.convertToUSD chain K u (address details) (decimals details)
                      (setFeeParameters F w1) = (Ok pu, setFeeParameters F w2))
        by (by rewrite convertToUSD_feeFrame, Hp).
      assert (Hl' : PriceService.convertToUSD chain K loan (address details) (decimals details)
                      (setFeeParameters F w2) = (Ok lu, setFeeParameters F w3))
        by (by rewrite convertToUSD_feeFrame, Hl).
      rewrite (calculateProfit_steps _ _ _ _ _ _ _ _ _ _ _ _ _ _ _ Hcall Hg Hp Hl).
      rewrite (calculateProfit_steps _ _ _ _ _ _ _ _ _ _ _ _ _ _ _ Hcall' Hg' Hp' Hl').
      rewrite (feeFrame_keeps _ _ _ _ (getGasPrice_feeFrame chain gasBuffer) Hg).
      simpl.
      destruct (N.eqb_spec (selectedDenominator fromPancake (feeParameters w)) 0);
        [done|].
      destruct (N.eqb_spec (selectedDenominator fromPancake F) 0); [done|].
      done.
    + rewrite (calculateProfit_bad_length _ _ _ _ _ _ _ Hcall Hlen).
      by rewrite (calculateProfit_bad_length _ _ _ _ _ _ _ Hcall' Hlen).
  - rewrite (calculateProfit_oracle_throws _ _ _ _ _ _ _ Hcall).
    by rewrite (calculateProfit_oracle_throws _ _ _ _ _ _ _ Hcall').
Qed.

(** C1, as amended: when the oracle call succeeds with three values and the
    stored fee denominator of the starting exchange is not zero, the
    evaluator returns the oracle's three amounts, a gas cost value, a profit
    value and a loan value obtained from the gas price query and the two
    conversions, and
    - net profit = profit value - gas cost value;
    - profit percentage = net profit / loan value * 100 when the loan value
      is positive, and 0 when the loan value is 0;
    - the accept flag is true exactly when the profit percentage is greater
      than or equal to the threshold.
    With gas cost value 2, profit value 10, loan value 1000 and threshold 1,
    net profit is 8, the percentage is 0.8 and the flag is false. *)
Theorem calculateProfit_breakdown data loan fromPancake details (w : World E) p f u e1 :
  checkArbitrageProfitability chain data loan fromPancake (env w) = (Ok [p; f; u], e1) ->
  selectedDenominator fromPancake (feeParameters w) <> 0%N ->
  (exists g w1 w2 w3 b,
     NetworkService.getGasPrice chain gasBuffer (setEnv e1 w) = (Ok g, w1) /\
     PriceService.convertToUSD chain K u (address details) (decimals details) w1
       = (Ok (profitUSD b), w2) /\
     PriceService.convertToUSD chain K loan (address details) (decimals details) w2
       = (Ok (loanAmountUSD b), w3) /\
     gasCostUSD b = (formatUnits chain (g * GAS_LIMIT K) 18 * bnbPrice w1)%float /\
     calculateProfit chain K data loan fromPancake details w = (Ok (Evaluated b), w3) /\
     (expectedProfit b, expectedPlatformFee b, expectedUserProfit b) = (p, f, u) /\
     netProfitUSD b = (profitUSD b - gasCostUSD b)%float /\
     ((0 <? loanAmountUSD b)%float = true ->
        profitPercentage b = (netProfitUSD b / loanAmountUSD b * 100)%float) /\
     (loanAmountUSD b = 0%float -> profitPercentage b = 0%float) /\
     (isProfit b = true <->
        (MIN_PROFIT_PERCENTAGE K <=? profitPercentage b)%float = true)) /\
  (netProfitOf 10 2 = 8%float /\
   profitPercentageOf 8 1000 = 0x1.999999999999ap-1%float /\
   (1 <=? profitPercentageOf 8 1000)%float = false).
Proof.
  intros Hcall Hden. split; [|by vm_compute].
  destruct (getGasPrice_returns chain gasBuffer (setEnv e1 w)) as (g & w1 & Hg).
  destruct (convertToUSD_returns chain K u (address details) (decimals details) w1)
    as (pu & w2 & Hp).
  destruct (convertToUSD_returns chain K loan (address details) (decimals details) w2)
    as (lu & w3 & Hl).
  pose proof (calculateProfit_steps _ _ _ _ _ _ _ _ _ _ _ _ _ _ _ Hcall Hg Hp Hl) as Hrun.
  simpl in Hrun.
  rewrite (feeFrame_keeps _ _ _ _ (getGasPrice_feeFrame chain gasBuffer) Hg) in Hrun.
  simpl in Hrun.
  destruct (N.eqb_spec (selectedDenominator fromPancake (feeParameters w)) 0); [done|].
  set (gc := (formatUnits chain (g * GAS_LIMIT K) 18 * bnbPrice w1)%float) in *.
  exists g, w1, w2, w3,
    (mkBreakdown p f u pu (netProfitOf pu gc) gc lu
       (profitPercentageOf (netProfitOf pu gc) lu)
       (MIN_PROFIT_PERCENTAGE K <=? profitPercentageOf (netProfitOf pu gc) lu)%float).
  split; [exact Hg|]. simpl.
  split; [exact Hp|]. split; [exact Hl|]. split; [reflexivity|].
  split; [exact Hrun|]. split; [reflexivity|]. split; [reflexivity|].
  split; [|split; [|reflexivity]].
  - unfold profitPercentageOf. by intros ->.
  - unfold profitPercentageOf. by intros ->.
Qed.

(** C10, as amended: two runs of the evaluator that differ only in the
    stored fee parameters return the same result, with the same profit value,
    net profit, percentage and accept flag, provided the fee denominator of
    the starting exchange is not zero in either run. *)
Theorem calculateProfit_fee_independent data loan fromPancake details (w : World E)
    (F1 F2 : FeeParameters) :
  selectedDenominator fromPancake F1 <> 0%N ->
  selectedDenominator fromPancake F2 <> 0%N ->
  let run1 := calculateProfit chain K data loan fromPancake details (setFeeParameters F1 w) in
  let run2 := calculateProfit chain K data loan fromPancake details (setFeeParameters F2 w) in
  run1.1 = run2.1 /\ run2.2 = setFeeParameters F2 run1.2.
Proof.
  intros H1 H2 run1 run2. subst run1 run2.
  change (setFeeParameters F2 w) with (setFeeParameters F2 (setFeeParameters F1 w)).
  by rewrite (calculateProfit_frame _ _ _ _ (setFeeParameters F1 w) F2).
Qed.

End ProfitCalculatorFacts.

Section ProfitCalculatorExamples.
Import ProfitCalculator Scenario.

Lemma calculateProfit_breakdown_witness :
  exists b w',
    calculateProfit thinChain constants candidate loan1000 true busd
      (pricedWorld defaultFees) = (Ok (Evaluated b), w') /\
    gasCostUSD b = 2%float /\ profitUSD b = 10%float /\ loanAmountUSD b = 1000%float /\
    netProfitUSD b = 8%float /\
    profitPercentage b = 0x1.999999999999ap-1%float /\
    isProfit b = false.
Proof.
  destruct (calculateProfit_breakdown thinChain constants candidate loan1000 true busd
              (pricedWorld defaultFees)
              (12 * 10 ^ 18)%N (2 * 10 ^ 18)%N (10 * 10 ^ 18)%N 1000 eq_refl)
    as [(g & w1 & w2 & w3 & b & _ & _ & _ & _ & Hrun & _) _].
  - vm_compute. discriminate.
  - exists b, w3. split; [exact Hrun|].
    vm_compute in Hrun. injection Hrun as Hb _. rewrite <- Hb.
    repeat split; reflexivity.
Defined.

(** With a zero fee denominator the candidate of the worked example is
    rejected, although the oracle call, the gas price query and the
    conversions succeed: no net profit and no percentage are returned. *)
Lemma calculateProfit_zero_denominator :
  let w := pricedWorld zeroFees in
  checkArbitrageProfitability thinChain candidate loan1000 true (env w)
    = (Ok [12 * 10 ^ 18; 2 * 10 ^ 18; 10 * 10 ^ 18]%N, 1000) /\
  (exists g w1, NetworkService.getGasPrice thinChain gasBuffer w = (Ok g, w1)) /\
  (exists v w1, PriceService.convertToUSD thinChain constants loan1000 "BUSD" 18 w
                  = (Ok v, w1)) /\
  ~ (exists b w', calculateProfit thinChain constants candidate loan1000 true busd w
                    = (Ok (Evaluated b), w')).
Proof.
  split; [reflexivity|]. split; [by eexists _, _; vm_compute|].
  split; [by eexists _, _; vm_compute|].
  intros (b & w' & Hrun). vm_compute in Hrun. discriminate.
Qed.

Lemma calculateProfit_fee_independent_witness :
  (calculateProfit richChain constants candidate loan1000 true busd
     (setFeeParameters defaultFees (pricedWorld defaultFees))).1 =
  (calculateProfit richChain constants candidate loan1000 true busd
     (setFeeParameters otherFees (pricedWorld defaultFees))).1.
Proof.
  apply (calculateProfit_fee_independent richChain constants candidate loan1000 true busd
           (pricedWorld defaultFees) defaultFees otherFees).
  - vm_compute. discriminate.
  - vm_compute. discriminate.
Defined.

(** Two runs that differ only in the stored fee parameters and do not return
    the same result: with the fee parameters of the constructor the candidate
    is accepted, with zero denominators it is rejected. *)
Lemma calculateProfit_fee_dependent :
  let run fees :=
    (calculateProfit richChain constants candidate loan1000 true busd
       (setFeeParameters fees (pricedWorld defaultFees))).1 in
  (exists b, run defaultFees = Ok (Evaluated b) /\ isProfit b = true) /\
  run zeroFees = Ok (Rejected "division-by-zero") /\
  run defaultFees <> run zeroFees.
Proof.
  split; [by eexists; split; vm_compute|].
  split; [by vm_compute|].
  vm_compute. discriminate.
Qed.

End ProfitCalculatorExamples.

(** ** The scanner *)

Section ArbitrageCheckerReturns.
Import ProfitCalculator ArbitrageChecker.
Context {E : Type} (chain : Chain E) (K : Constants).

Lemma getTokenDetails_returns t : returns (TokenService.getTokenDetails chain t).
Proof. unfold TokenService.getTokenDetails. auto 10 with returns. Qed.

Lemma checkTriangularPrice_returns router amountIn path :
  returns (checkTriangularPrice chain router amountIn path).
Proof. unfold checkTriangularPrice. auto with returns. Qed.

Lemma checkPriceGap_returns a b c details :
  returns (checkPriceGap chain a b c details).
Proof. unfold checkPriceGap. auto with returns. Qed.

Lemma quoteHop_returns router amountIn path :
  returns (quoteHop chain router amountIn path).
Proof. unfold quoteHop. auto with returns. Qed.

Lemma calculateSwapOutputs_returns direction loan p1 p2 p3 :
  returns (calculateSwapOutputs chain direction loan p1 p2 p3).
Proof.
  unfold calculateSwapOutputs. pose proof quoteHop_returns. auto 10 with returns.
Qed.

Lemma sweepStep_returns direction p1 p2 p3 details best loan :
  returns (sweepStep chain K direction p1 p2 p3 details best loan).
Proof.
  unfold sweepStep.
  pose proof calculateSwapOutputs_returns.
  pose proof (calculateProfit_returns chain K).
  auto 10 with returns.
Qed.

Lemma sweep_returns direction p1 p2 p3 details loans :
  forall best, returns (sweep chain K direction p1 p2 p3 details best loans).
Proof.
  induction loans as [|loan rest IH]; intros best; simpl.
  - auto with returns.
  - pose proof sweepStep_returns. auto with returns.
Qed.

Lemma checkArbitrageLoop_returns pairConfig a b c direction :
  returns (checkArbitrageLoop chain K pairConfig a b c direction).
Proof. unfold checkArbitrageLoop. auto with returns. Qed.

Lemma rotations_returns pairConfig direction starts :
  returns (rotations chain K pairConfig direction starts).
Proof.
  induction starts as [|i rest IH]; simpl.
  - auto with returns.
  - pose proof checkArbitrageLoop_returns. auto with returns.
Qed.

Lemma checkTriangularArbitrage_returns pairConfig direction :
  returns (checkTriangularArbitrage chain K pairConfig direction).
Proof. apply rotations_returns. Qed.

Lemma scanPairs_returns tokenPairs : returns (scanPairs chain K tokenPairs).
Proof.
  induction tokenPairs as [|pairConfig rest IH]; simpl.
  - auto with returns.
  - pose proof checkTriangularArbitrage_returns. auto 10 with returns.
Qed.

Lemma checkArbitrageOpportunities_returns tokenPairs :
  returns (checkArbitrageOpportunities chain K tokenPairs).
Proof.
  unfold checkArbitrageOpportunities. pose proof scanPairs_returns.
  auto with returns.
Qed.

(** A first hop whose quote is rejected makes the simulation fail. *)
Lemma calculateSwapOutputs_hop_throws (direction : bool) loan p1 p2 p3 (w : World E) e e1 :
  getAmountsOut chain (if direction then PancakeSwap else BiSwap) loan p1 (env w)
    = (Throw e, e1) ->
  calculateSwapOutputs chain direction loan p1 p2 p3 w = (Ok None, setEnv e1 w).
Proof.
  intros Hquote. unfold calculateSwapOutputs.
  assert (Hhop : quoteHop chain (if direction then PancakeSwap else BiSwap) loan p1 w
                 = (Ok None, setEnv e1 w)).
  { unfold quoteHop, tryCatch.
    by rewrite (bind_throw _ _ _ _ _ (call_eq _ _ _ _ Hquote)). }
  by rewrite (bind_ok _ _ _ _ _ Hhop).
Qed.

(** A loan amount whose first hop gives no quote leaves the best candidate
    as it was. *)
Lemma sweepStep_no_quote direction p1 p2 p3 details best loan (w w1 : World E) :
  calculateSwapOutputs chain direction loan p1 p2 p3 w = (Ok None, w1) ->
  sweepStep chain K direction p1 p2 p3 details best loan w = (Ok best, w1).
Proof. intros H. unfold sweepStep. by rewrite (bind_ok _ _ _ _ _ H). Qed.

(** A loan amount with a zero minimum output leaves the best candidate as
    it was, and the evaluator is not called. *)
Lemma sweepStep_zero_minimum direction p1 p2 p3 details best loan (w w1 : World E) outs :
  calculateSwapOutputs chain direction loan p1 p2 p3 w = (Ok (Some outs), w1) ->
  minAmountOut (amountOut1 outs) = 0%N \/ minAmountOut (amountOut2 outs) = 0%N \/
    minAmountOut (amountOut3 outs) = 0%N ->
  sweepStep chain K direction p1 p2 p3 details best loan w = (Ok best, w1).
Proof.
  intros H Hz. unfold sweepStep. rewrite (bind_ok _ _ _ _ _ H).
  replace ((minAmountOut (amountOut1 outs) =? 0)%N || (minAmountOut (amountOut2 outs) =? 0)%N
           || (minAmountOut (amountOut3 outs) =? 0)%N) with true; [done|].
  symmetry. rewrite !orb_true_iff, !N.eqb_eq. tauto.
Qed.

(** A loan amount whose evaluation is rejected leaves the best candidate as
    it was. *)
Lemma sweepStep_rejected direction p1 p2 p3 details best loan (w w1 w2 : World E) outs e :
  calculateSwapOutputs chain direction loan p1 p2 p3 w = (Ok (Some outs), w1) ->
  calculateProfit chain K
    (mkArbitrageData p1 p2 p3
       [minAmountOut (amountOut1 outs); minAmountOut (amountOut2 outs);
        minAmountOut (amountOut3 outs)] direction)
    loan direction details w1 = (Ok (Rejected e), w2) ->
  exists w', sweepStep chain K direction p1 p2 p3 details best loan w = (Ok best, w').
Proof.
  intros H Hp. unfold sweepStep. rewrite (bind_ok _ _ _ _ _ H).
  destruct (_ || _); [by eexists|].
  rewrite (bind_ok _ _ _ _ _ Hp). simpl. by eexists.
Qed.

(** A hop whose quote is rejected, or has fewer than two amounts, gives no
    output. *)
Lemma quoteHop_no_quote router amountIn path (w : World E) r e1 :
  getAmountsOut chain router amountIn path (env w) = (r, e1) ->
  PriceService.noQuote r ->
  quoteHop chain router amountIn path w = (Ok None, setEnv e1 w).
Proof.
  intros Hquote Hno. unfold quoteHop, tryCatch, bind, call, ret. rewrite Hquote.
  destruct r as [amounts|msg]; [|done]. simpl in Hno. by rewrite Hno.
Qed.

(** The simulation fails as soon as one of its three hops gives no
    output. *)
Lemma calculateSwapOutputs_first_hop (direction : bool) loan p1 p2 p3 (w w1 : World E) :
  quoteHop chain (if direction then PancakeSwap else BiSwap) loan p1 w = (Ok None, w1) ->
  calculateSwapOutputs chain direction loan p1 p2 p3 w = (Ok None, w1).
Proof. intros H1. unfold calculateSwapOutputs. by rewrite (bind_ok _ _ _ _ _ H1). Qed.

Lemma calculateSwapOutputs_second_hop (direction : bool) loan p1 p2 p3
    (w w1 w2 : World E) out1 :
  quoteHop chain (if direction then PancakeSwap else BiSwap) loan p1 w
    = (Ok (Some out1), w1) ->
  quoteHop chain (if direction then BiSwap else PancakeSwap) out1 p2 w1 = (Ok None, w2) ->
  calculateSwapOutputs chain direction loan p1 p2 p3 w = (Ok None, w2).
Proof.
  intros H1 H2. unfold calculateSwapOutputs.
  by rewrite (bind_ok _ _ _ _ _ H1), (bind_ok _ _ _ _ _ H2).
Qed.

Lemma calculateSwapOutputs_third_hop (direction : bool) loan p1 p2 p3
    (w w1 w2 w3 : World E) out1 out2 :
  quoteHop chain (if direction then PancakeSwap else BiSwap) loan p1 w
    = (Ok (Some out1), w1) ->
  quoteHop chain (if direction then BiSwap else PancakeSwap) out1 p2 w1
    = (Ok (Some out2), w2) ->
  quoteHop chain (if direction then PancakeSwap else BiSwap) out2 p3 w2 = (Ok None, w3) ->
  calculateSwapOutputs chain direction loan p1 p2 p3 w = (Ok None, w3).
Proof.
  intros H1 H2 H3. unfold calculateSwapOutputs.
  by rewrite (bind_ok _ _ _ _ _ H1), (bind_ok _ _ _ _ _ H2), (bind_ok _ _ _ _ _ H3).
Qed.

(** The sweep of a list of loan amounts is the sweep of its first part
    followed by the sweep of the rest, from the best candidate and the state
    that the first part left. *)
Lemma sweep_app direction p1 p2 p3 details before after :
  forall best0 best1 (w w1 : World E),
    sweep chain K direction p1 p2 p3 details best0 before w = (Ok best1, w1) ->
    sweep chain K direction p1 p2 p3 details best0 (before ++ after) w
      = sweep chain K direction p1 p2 p3 details best1 after w1.
Proof.
  induction before as [|loan rest IH]; intros best0 best1 w w1 Hrun; simpl in *.
  - by injection Hrun as <- <-.
  - apply bind_inv in Hrun as (best' & w' & Hstep & Hrun).
    rewrite (bind_ok _ _ _ _ _ Hstep). by apply IH.
Qed.

Lemma rotations_app pairConfig direction before after :
  forall (w w1 w2 : World E) found rest,
    rotations chain K pairConfig direction before w = (Ok found, w1) ->
    rotations chain K pairConfig direction after w1 = (Ok rest, w2) ->
    rotations chain K pairConfig direction (before ++ after) w = (Ok (found ++ rest), w2).
Proof.
  induction before as [|i starts IH]; intros w w1 w2 found rest Hbefore Hafter;
    simpl in *.
  - by injection Hbefore as <- <-.
  - apply bind_inv in Hbefore as (o & wa & Hloop & Hbefore).
    apply bind_inv in Hbefore as (others & wb & Hothers & Hbefore).
    injection Hbefore as <- <-.
    rewrite (bind_ok _ _ _ _ _ Hloop).
    rewrite (bind_ok _ _ _ _ _ (IH _ _ _ _ _ Hothers Hafter)).
    by destruct o.
Qed.

Lemma scanPairs_app before after :
  forall (w w1 w2 : World E) found rest,
    scanPairs chain K before w = (Ok found, w1) ->
    scanPairs chain K after w1 = (Ok rest, w2) ->
    scanPairs chain K (before ++ after) w = (Ok (found ++ rest), w2).
Proof.
  induction before as [|pairConfig pairs IH]; intros w w1 w2 found rest Hbefore Hafter;
    simpl in *.
  - by injection Hbefore as <- <-.
  - apply bind_inv in Hbefore as (l1 & wa & H1 & Hbefore).
    apply bind_inv in Hbefore as (l2 & wb & H2 & Hbefore).
    apply bind_inv in Hbefore as (others & wc & Hothers & Hbefore).
    injection Hbefore as <- <-.
    rewrite (bind_ok _ _ _ _ _ H1), (bind_ok _ _ _ _ _ H2).
    rewrite (bind_ok _ _ _ _ _ (IH _ _ _ _ _ Hothers Hafter)).
    unfold ret. by rewrite <- !app_assoc.
Qed.

(** A rotation whose test amounts cannot be converted is given up. *)
Lemma checkArbitrageLoop_unparsable pairConfig (a b c : string) (requested : bool)
    (w wA wB wC wG : World E) dA dB dC gap pair e :
  TokenService.getTokenDetails chain a w = (Ok dA, wA) ->
  TokenService.getTokenDetails chain b wA = (Ok dB, wB) ->
  TokenService.getTokenDetails chain c wB = (Ok dC, wC) ->
  checkPriceGap chain a b c dA wC = (Ok gap, wG) ->
  findFlashLoanPair (tokens pairConfig)
    (if chooseDirection requested gap then pancakeswapPairs pairConfig
     else biswapPairs pairConfig) a b = Some pair ->
  pair <> EmptyString ->
  mapRes (fun amount => parseUnits chain amount (decimals dA))
    match testAmounts pairConfig with
    | Some amounts => amounts
    | None => defaultTestAmounts (symbol dA)
    end = Throw e ->
  checkArbitrageLoop chain K pairConfig a b c requested w = (Ok None, wG).
Proof.
  intros HdA HdB HdC Hgap Hpair Hne Hloans. unfold checkArbitrageLoop, tryCatch.
  rewrite (bind_ok _ _ _ _ _ HdA), (bind_ok _ _ _ _ _ HdB), (bind_ok _ _ _ _ _ HdC).
  rewrite (bind_ok _ _ _ _ _ Hgap). cbv zeta. rewrite Hpair.
  rewrite bool_decide_eq_false_2 by done.
  unfold bind at 1. unfold liftRes at 1. by rewrite Hloans.
Qed.

(** C7: a scan never throws and returns a list, and a failure stops
    neither the sweep nor the scan.  A rejected oracle call gives a rejected
    result, which is not profitable; a hop whose quote is rejected, be it the
    first, the second or the third, makes the simulation of that loan amount
    fail; a loan amount that gets no quote, or whose evaluation is rejected,
    leaves the sweep with the best candidate it had, and the sweep goes on
    with the loan amounts that follow it; the check of one rotation never
    throws, a rotation whose test amounts cannot be converted is given up,
    and after a rotation that gave nothing the rotations that follow it are
    checked; after a triple that gave nothing the triples that follow it are
    scanned, and the scan returns what was found before and after it. *)
Theorem scan_never_throws :
  (forall tokenPairs (w : World E),
     exists opportunities w',
       checkArbitrageOpportunities chain K tokenPairs w = (Ok opportunities, w')) /\
  (forall data loan fromPancake details (w : World E) e e1,
     checkArbitrageProfitability chain data loan fromPancake (env w) = (Throw e, e1) ->
     calculateProfit chain K data loan fromPancake details w
       = (Ok (Rejected e), setEnv e1 w) /\
     isProfitable K (Rejected e) = false) /\
  (forall (direction : bool) loan p1 p2 p3 (w : World E) e e1,
     getAmountsOut chain (if direction then PancakeSwap else BiSwap) loan p1 (env w)
       = (Throw e, e1) ->
     calculateSwapOutputs chain direction loan p1 p2 p3 w = (Ok None, setEnv e1 w)) /\
  (forall direction p1 p2 p3 details best loan (w w1 : World E),
     calculateSwapOutputs chain direction loan p1 p2 p3 w = (Ok None, w1) ->
     sweepStep chain K direction p1 p2 p3 details best loan w = (Ok best, w1)) /\
  (forall direction p1 p2 p3 details best loan (w w1 w2 : World E) outs e,
     calculateSwapOutputs chain direction loan p1 p2 p3 w = (Ok (Some outs), w1) ->
     calculateProfit chain K
       (mkArbitrageData p1 p2 p3
          [minAmountOut (amountOut1 outs); minAmountOut (amountOut2 outs);
           minAmountOut (amountOut3 outs)] direction)
       loan direction details w1 = (Ok (Rejected e), w2) ->
     exists w', sweepStep chain K direction p1 p2 p3 details best loan w = (Ok best, w')) /\
  (forall direction p1 p2 p3 details best loans,
     returns (sweep chain K direction p1 p2 p3 details best loans)) /\
  (forall pairConfig a b c direction,
     returns (checkArbitrageLoop chain K pairConfig a b c direction)) /\
  (forall pairConfig direction,
     returns (checkTriangularArbitrage chain K pairConfig direction)) /\
  (forall router amountIn path (w : World E) r e1,
     getAmountsOut chain router amountIn path (env w) = (r, e1) ->
     PriceService.noQuote r ->
     quoteHop chain router amountIn path w = (Ok None, setEnv e1 w)) /\
  (forall (direction : bool) loan p1 p2 p3 (w w1 w2 w3 : World E) out1 out2,
     let first := if direction then PancakeSwap else BiSwap in
     let second := if direction then BiSwap else PancakeSwap in
     (quoteHop chain first loan p1 w = (Ok None, w1) ->
      calculateSwapOutputs chain direction loan p1 p2 p3 w = (Ok None, w1)) /\
     (quoteHop chain first loan p1 w = (Ok (Some out1), w1) ->
      quoteHop chain second out1 p2 w1 = (Ok None, w2) ->
      calculateSwapOutputs chain direction loan p1 p2 p3 w = (Ok None, w2)) /\
     (quoteHop chain first loan p1 w = (Ok (Some out1), w1) ->
      quoteHop chain second out1 p2 w1 = (Ok (Some out2), w2) ->
      quoteHop chain first out2 p3 w2 = (Ok None, w3) ->
      calculateSwapOutputs chain direction loan p1 p2 p3 w = (Ok None, w3))) /\
  (forall direction p1 p2 p3 details best0 best1 before loan after (w w1 w2 : World E),
     sweep chain K direction p1 p2 p3 details best0 before w = (Ok best1, w1) ->
     sweepStep chain K direction p1 p2 p3 details best1 loan w1 = (Ok best1, w2) ->
     sweep chain K direction p1 p2 p3 details best0 (before ++ loan :: after) w
       = sweep chain K direction p1 p2 p3 details best1 after w2) /\
  (forall pairConfig (a b c : string) (requested : bool) (w wA wB wC wG : World E)
          dA dB dC gap pair e,
     TokenService.getTokenDetails chain a w = (Ok dA, wA) ->
     TokenService.getTokenDetails chain b wA = (Ok dB, wB) ->
     TokenService.getTokenDetails chain c wB = (Ok dC, wC) ->
     checkPriceGap chain a b c dA wC = (Ok gap, wG) ->
     findFlashLoanPair (tokens pairConfig)
       (if chooseDirection requested gap then pancakeswapPairs pairConfig
        else biswapPairs pairConfig) a b = Some pair ->
     pair <> EmptyString ->
     mapRes (fun amount => parseUnits chain amount (decimals dA))
       match testAmounts pairConfig with
       | Some amounts => amounts
       | None => defaultTestAmounts (symbol dA)
       end = Throw e ->
     checkArbitrageLoop chain K pairConfig a b c requested w = (Ok None, wG)) /\
  (forall pairConfig direction before i after (w w1 w2 w3 : World E) found rest,
     rotations chain K pairConfig direction before w = (Ok found, w1) ->
     checkArbitrageLoop chain K pairConfig
       (tokenAt (tokens pairConfig) i) (tokenAt (tokens pairConfig) (i + 1))
       (tokenAt (tokens pairConfig) (i + 2)) direction w1 = (Ok None, w2) ->
     rotations chain K pairConfig direction after w2 = (Ok rest, w3) ->
     rotations chain K pairConfig direction (before ++ i :: after) w
       = (Ok (found ++ rest), w3)) /\
  (forall before pairConfig after (w w1 w2 w3 w4 : World E) found rest,
     scanPairs chain K before w = (Ok found, w1) ->
     checkTriangularArbitrage chain K pairConfig true w1 = (Ok [], w2) ->
     checkTriangularArbitrage chain K pairConfig false w2 = (Ok [], w3) ->
     scanPairs chain K after w3 = (Ok rest, w4) ->
     checkArbitrageOpportunities chain K (before ++ pairConfig :: after) w
       = (Ok (sortByProfit (found ++ rest)), w4)).
Proof.
  split; [intros; apply checkArbitrageOpportunities_returns|].
  split; [intros; split; [by apply calculateProfit_oracle_throws|done]|].
  split; [intros; by eapply calculateSwapOutputs_hop_throws|].
  split; [intros; by apply sweepStep_no_quote|].
  split; [intros; by eapply sweepStep_rejected|].
  split; [intros; apply sweep_returns|].
  split; [intros; apply checkArbitrageLoop_returns|].
  split; [intros; apply checkTriangularArbitrage_returns|].
  split; [intros; by eapply quoteHop_no_quote|].
  split.
  { intros direction loan p1 p2 p3 w w1 w2 w3 out1 out2 first second.
    subst first second. split; [|split].
    - apply calculateSwapOutputs_first_hop.
    - apply calculateSwapOutputs_second_hop.
    - apply calculateSwapOutputs_third_hop. }
  split.
  { intros direction p1 p2 p3 details best0 best1 before loan after w w1 w2 Hbefore Hstep.
    rewrite (sweep_app _ _ _ _ _ _ _ _ _ _ _ Hbefore). simpl.
    by rewrite (bind_ok _ _ _ _ _ Hstep). }
  split; [intros; by eapply checkArbitrageLoop_unparsable|].
  split.
  { intros pairConfig direction before i after w w1 w2 w3 found rest Hbefore Hloop Hafter.
    apply (rotations_app _ _ _ _ _ _ _ _ _ Hbefore). simpl.
    rewrite (bind_ok _ _ _ _ _ Hloop). by rewrite (bind_ok _ _ _ _ _ Hafter). }
  intros before pairConfig after w w1 w2 w3 w4 found rest Hbefore Htrue Hfalse Hafter.
  unfold checkArbitrageOpportunities.
  assert (Hscan : scanPairs chain K (before ++ pairConfig :: after) w
                  = (Ok (found ++ rest), w4)).
  { apply (scanPairs_app _ _ _ _ _ _ _ Hbefore). simpl.
    rewrite (bind_ok _ _ _ _ _ Htrue), (bind_ok _ _ _ _ _ Hfalse).
    by rewrite (bind_ok _ _ _ _ _ Hafter). }
  by rewrite (bind_ok _ _ _ _ _ Hscan).
Qed.

End ArbitrageCheckerReturns.

Lemma scan_never_throws_witness :
  (exists w',
     ArbitrageChecker.checkArbitrageOpportunities Scenario.quietChain Scenario.constants
       [Scenario.triple] Scenario.checkedWorld = (Ok [], w')) /\
  ProfitCalculator.calculateProfit Scenario.quietChain Scenario.constants
    Scenario.candidate Scenario.loan1000 true Scenario.busd Scenario.checkedWorld
    = (Ok (ProfitCalculator.Rejected "call revert exception"), Scenario.checkedWorld) /\
  (exists opportunities w',
     ArbitrageChecker.checkArbitrageOpportunities Examples.flakyChain Scenario.constants
       [Examples.unparsableTriple; Examples.twoAmountTriple]
       (Scenario.pricedWorld Scenario.defaultFees) = (Ok opportunities, w') /\
     length opportunities = 6%nat /\
     Forall (fun o => ArbitrageChecker.pairConfig o = Examples.twoAmountTriple /\
                      ArbitrageChecker.loanAmount o = 200000%N) opportunities).
Proof.
  destruct (scan_never_throws Scenario.quietChain Scenario.constants)
    as (Hscan & Horacle & _).
  split; [|split].
  - destruct (Hscan [Scenario.triple] Scenario.checkedWorld)
      as (opportunities & w' & Hrun).
    exists w'. rewrite Hrun. vm_compute in Hrun. congruence.
  - apply (Horacle Scenario.candidate Scenario.loan1000 true Scenario.busd
             Scenario.checkedWorld "call revert exception" 1000).
    reflexivity.
  - destruct (scan_never_throws Examples.flakyChain Scenario.constants)
      as (_ & _ & _ & _ & _ & _ & _ & _ & _ & _ & _ & _ & _ & Hgoes_on).
    set (w0 := Scenario.pricedWorld Scenario.defaultFees).
    set (w2 := (ArbitrageChecker.checkTriangularArbitrage Examples.flakyChain
                  Scenario.constants Examples.unparsableTriple true w0).2).
    set (w3 := (ArbitrageChecker.checkTriangularArbitrage Examples.flakyChain
                  Scenario.constants Examples.unparsableTriple false w2).2).
    destruct (ArbitrageChecker.scanPairs Examples.flakyChain Scenario.constants
                [Examples.twoAmountTriple] w3) as [found w4] eqn:Hafter.
    destruct found as [found|msg]; [|vm_compute in Hafter; discriminate Hafter].
    exists (ArbitrageChecker.sortByProfit ([] ++ found)), w4.
    split.
    + apply (Hgoes_on [] Examples.unparsableTriple [Examples.twoAmountTriple]
               w0 w0 w2 w3 w4 [] found eq_refl
               ltac:(vm_compute; reflexivity) ltac:(vm_compute; reflexivity) Hafter).
    + vm_compute in Hafter. injection Hafter as <- _.
      split; [vm_compute; reflexivity|].
      vm_compute. repeat constructor.
Defined.

(** ** The price gap and the direction *)

Section PriceGapFacts.
Import ProfitCalculator ArbitrageChecker.
Context {E : Type} (chain : Chain E) (K : Constants).

Lemma exactGap_fraction (p : positive) (b : N) :
  (exactGap (Npos p) b == (Z.abs (Z.pos p - Z.of_N b) * 100) # p)%Q.
Proof.
  unfold exactGap, Qeq, Qdiv, Qmult, Qinv, Qabs, Qminus, Qplus, Qopp, inject_Z. simpl.
  rewrite ?Z.mul_1_r, ?Pos.mul_1_r. reflexivity.
Qed.

Lemma percentageDiff_Z (p : positive) (b : N) :
  Z.of_N (percentageDiff (Npos p) b) = Z.abs (Z.pos p - Z.of_N b) * 100 / Z.pos p.
Proof.
  unfold percentageDiff. rewrite N2Z.inj_div, N2Z.inj_mul, Z2N.id by lia. reflexivity.
Qed.

(** The percentage of the code is the integer part of the exact gap: a
    whole number is below the one exactly when it is below the other. *)
Lemma percentageDiff_floor (a b : N) (k : Z) :
  (0 < a)%N ->
  (inject_Z k <= exactGap a b)%Q <-> k <= Z.of_N (percentageDiff a b).
Proof.
  intros Ha. destruct a as [|p]; [lia|].
  rewrite exactGap_fraction, percentageDiff_Z.
  unfold Qle, inject_Z. simpl. rewrite Z.mul_1_r.
  split; intros H.
  - apply Z.div_le_lower_bound; lia.
  - pose proof (Z.mul_div_le (Z.abs (Z.pos p - Z.of_N b) * 100) (Z.pos p) ltac:(lia)).
    nia.
Qed.

Lemma chooseDirection_reversed requested gap :
  chooseDirection requested gap = negb requested <-> (5 <= gap)%N.
Proof.
  unfold chooseDirection. destruct (N.leb_spec 5 gap); split; try done; try lia.
  by destruct requested.
Qed.

Lemma checkPriceGap_eq a b c details (w w1 w2 : World E) pancakePrice biswapPrice :
  checkTriangularPrice chain PancakeSwap (10 ^ N.of_nat (decimals details)) [a; b; c; a] w
    = (Ok pancakePrice, w1) ->
  checkTriangularPrice chain BiSwap (10 ^ N.of_nat (decimals details)) [a; b; c; a] w1
    = (Ok biswapPrice, w2) ->
  checkPriceGap chain a b c details w =
    (Ok match pancakePrice, biswapPrice with
        | Some pA, Some pB => if (pA =? 0)%N then 0%N else percentageDiff pA pB
        | _, _ => 0%N
        end, w2).
Proof.
  intros HA HB. unfold checkPriceGap, tryCatch.
  rewrite (bind_ok _ _ _ _ _ HA), (bind_ok _ _ _ _ _ HB).
  destruct pancakePrice as [pA|], biswapPrice as [pB|]; try done.
  by destruct (pA =? 0)%N.
Qed.

(** The direction that the loop uses after the price gap. *)
Lemma chooseDirection_used (requested used reversed : bool) (priceA priceB : N) :
  (0 < priceA)%N ->
  ((5 <= exactGap priceA priceB)%Q /\ used = negb requested /\ reversed = true) \/
  ((exactGap priceA priceB < 5)%Q /\ used = requested /\ reversed = false) ->
  chooseDirection requested (percentageDiff priceA priceB) = used /\
  negb (Bool.eqb requested used) = reversed.
Proof.
  intros Hpos Hcase.
  pose proof (percentageDiff_floor priceA priceB 5 Hpos) as Hfloor.
  change (inject_Z 5) with 5%Q in Hfloor. unfold chooseDirection.
  destruct Hcase as [(Hgap & -> & ->)|(Hgap & -> & ->)].
  - apply Hfloor in Hgap.
    replace (5 <=? percentageDiff priceA priceB)%N with true
      by (symmetry; apply N.leb_le; lia).
    by destruct requested.
  - replace (5 <=? percentageDiff priceA priceB)%N with false.
    + by destruct requested.
    + symmetry. apply N.leb_gt. apply N.lt_nge. intros Hle.
      apply Qlt_not_le in Hgap. apply Hgap, Hfloor. lia.
Qed.


End PriceGapFacts.


(** ** The opportunities returned by the scan *)

Section ScanResults.
Import ProfitCalculator ArbitrageChecker.
Context {E : Type} (chain : Chain E) (K : Constants).

Lemma isProfitable_threshold r :
  isProfitable K r = true ->
  exists b, r = Evaluated b /\
            (MIN_PROFIT_PERCENTAGE K <=? profitPercentage b)%float = true.
Proof.
  destruct r as [b|e]; simpl; [|done].
  intros H. apply andb_true_iff in H as [_ H]. by exists b.
Qed.

Lemma sweepStep_sound direction p1 p2 p3 details best loan (w w' : World E) best' :
  sweepStep chain K direction p1 p2 p3 details best loan w = (Ok best', w') ->
  bestSound chain K direction p1 p2 p3 best ->
  bestSound chain K direction p1 p2 p3 best'.
Proof.
  intros Hrun Hbest. unfold sweepStep in Hrun.
  apply bind_inv in Hrun as (result & w1 & Hswap & Hrun).
  destruct result as [outs|]; [|by injection Hrun as <- _].
  destruct (_ || _) eqn:Hzero; [by injection Hrun as <- _|].
  apply bind_inv in Hrun as (profitResult & w2 & Hprofit & Hrun).
  destruct (isProfitable K profitResult) eqn:Hok; simpl in Hrun;
    [|by injection Hrun as <- _].
  destruct (match bestProfitResult best with Some _ => _ | None => _ end);
    [|by injection Hrun as <- _].
  injection Hrun as <- _. unfold bestSound. simpl.
  split; [done|]. exists w, w1, outs. split; [done|]. split; [done|].
  apply orb_false_iff in Hzero as [Hzero Hz3].
  apply orb_false_iff in Hzero as [Hz1 Hz2].
  apply N.eqb_neq in Hz1, Hz2, Hz3. unfold minAmountOut in *.
  repeat (apply Forall_cons_2; [by apply N.neq_0_lt_0|]). apply Forall_nil_2.
Qed.

Lemma sweep_sound direction p1 p2 p3 details loans :
  forall best (w w' : World E) best',
    sweep chain K direction p1 p2 p3 details best loans w = (Ok best', w') ->
    bestSound chain K direction p1 p2 p3 best ->
    bestSound chain K direction p1 p2 p3 best'.
Proof.
  induction loans as [|loan rest IH]; intros best w w' best' Hrun Hbest; simpl in Hrun.
  - by injection Hrun as <- _.
  - apply bind_inv in Hrun as (best1 & w1 & Hstep & Hrun).
    eapply IH; [exact Hrun|]. by eapply sweepStep_sound.
Qed.

Lemma tryCatch_inv_some {S A} (m : M S (option A)) s a s' :
  tryCatch m (fun _ => ret None) s = (Ok (Some a), s') -> m s = (Ok (Some a), s').
Proof.
  unfold tryCatch. destruct (m s) as [[r|e] s1]; [done|]. unfold ret. congruence.
Qed.

(** An opportunity returned for one rotation: its fields come from the
    price gap, the chosen direction and the best candidate of the sweep. *)
Lemma checkArbitrageLoop_some pairConfig a b c requested (w w' : World E) o :
  checkArbitrageLoop chain K pairConfig a b c requested w = (Ok (Some o), w') ->
  oppDirection o = chooseDirection requested (priceGap o) /\
  directionReversed o = negb (Bool.eqb requested (oppDirection o)) /\
  (exists details w0 w1, checkPriceGap chain a b c details w0 = (Ok (priceGap o), w1)) /\
  accepted chain K o.
Proof.
  intros Hrun. apply tryCatch_inv_some in Hrun.
  apply bind_inv in Hrun as (dA & wA & HdA & Hrun).
  apply bind_inv in Hrun as (dB & wB & HdB & Hrun).
  apply bind_inv in Hrun as (dC & wC & HdC & Hrun).
  apply bind_inv in Hrun as (gap & wG & Hgap & Hrun).
  cbv zeta in Hrun.
  destruct (findFlashLoanPair _ _ _ _) as [pair|]; [|done].
  destruct (bool_decide (pair = EmptyString)); [done|].
  apply bind_inv in Hrun as (loans & wL & Hloans & Hrun).
  apply bind_inv in Hrun as (best & wS & Hsweep & Hrun).
  pose proof (sweep_sound _ _ _ _ _ _ _ _ _ _ Hsweep I) as Hbest.
  unfold bestSound in Hbest.
  destruct (bestProfitResult best) as [profit|]; [|done].
  destruct Hbest as (Hok & w0 & w1 & outs & Hswap & Hmins & Hpos).
  rewrite Hok in Hrun. injection Hrun as <- _. simpl.
  split; [done|]. split; [done|]. split; [by exists dA, wC, wG|].
  split; [by apply isProfitable_threshold|].
  by exists w0, w1, outs.
Qed.

Lemma rotations_sound pairConfig direction starts :
  forall (w w' : World E) opportunities,
    rotations chain K pairConfig direction starts w = (Ok opportunities, w') ->
    Forall (accepted chain K) opportunities.
Proof.
  induction starts as [|i rest IH]; intros w w' opportunities Hrun; simpl in Hrun.
  - injection Hrun as <- _. constructor.
  - apply bind_inv in Hrun as (o & w1 & Hloop & Hrun).
    apply bind_inv in Hrun as (others & w2 & Hrest & Hrun).
    injection Hrun as <- _. apply IH in Hrest.
    destruct o as [o|]; [|done].
    constructor; [|done]. by apply checkArbitrageLoop_some in Hloop as (_ & _ & _ & ?).
Qed.

Lemma scanPairs_sound tokenPairs :
  forall (w w' : World E) opportunities,
    scanPairs chain K tokenPairs w = (Ok opportunities, w') ->
    Forall (accepted chain K) opportunities.
Proof.
  induction tokenPairs as [|pairConfig rest IH]; intros w w' opportunities Hrun;
    simpl in Hrun.
  - injection Hrun as <- _. constructor.
  - apply bind_inv in Hrun as (l1 & w1 & H1 & Hrun).
    apply bind_inv in Hrun as (l2 & w2 & H2 & Hrun).
    apply bind_inv in Hrun as (l3 & w3 & H3 & Hrun).
    injection Hrun as <- _.
    apply rotations_sound in H1, H2. apply IH in H3.
    rewrite !Forall_app. done.
Qed.

(** Sorting keeps the opportunities: the sorted list is a permutation. *)
Lemma insertByProfit_Permutation o l : insertByProfit o l ≡ₚ o :: l.
Proof.
  induction l as [|o' l IH]; simpl; [done|].
  destruct (_ <? _)%float; [|done].
  rewrite IH. apply Permutation_swap.
Qed.

Lemma sortByProfit_Permutation l : sortByProfit l ≡ₚ l.
Proof.
  induction l as [|o l IH]; simpl; [done|].
  rewrite insertByProfit_Permutation. by rewrite IH.
Qed.

(** C2: every opportunity returned by the scanner has a profit percentage
    greater than or equal to the threshold, and its three minimum outputs are
    99 percent of the outputs of the three hops of one simulation of its loan
    amount and are strictly positive; a loan amount one of whose minimum
    outputs is zero leaves the sweep as it was, without an evaluation, and so
    is never returned. *)
Theorem scan_results_accepted :
  (forall tokenPairs (w w' : World E) opportunities,
     checkArbitrageOpportunities chain K tokenPairs w = (Ok opportunities, w') ->
     Forall (accepted chain K) opportunities) /\
  (forall direction p1 p2 p3 details best loan (w w1 : World E) outs,
     calculateSwapOutputs chain direction loan p1 p2 p3 w = (Ok (Some outs), w1) ->
     (amountOut1 outs * 99 / 100 = 0 \/ amountOut2 outs * 99 / 100 = 0 \/
      amountOut3 outs * 99 / 100 = 0)%N ->
     sweepStep chain K direction p1 p2 p3 details best loan w = (Ok best, w1)).
Proof.
  split.
  - intros tokenPairs w w' opportunities Hrun.
    unfold checkArbitrageOpportunities in Hrun.
    apply bind_inv in Hrun as (found & w1 & Hscan & Hrun).
    injection Hrun as <- _.
    rewrite sortByProfit_Permutation. by eapply scanPairs_sound.
  - intros. by eapply sweepStep_zero_minimum.
Qed.

End ScanResults.

Lemma scan_results_accepted_witness :
  exists opportunities w',
    ArbitrageChecker.checkArbitrageOpportunities Scenario.richChain Scenario.constants
      [Scenario.triple] (Scenario.pricedWorld Scenario.defaultFees)
      = (Ok opportunities, w') /\
    length opportunities = 6%nat /\
    Forall (ArbitrageChecker.accepted Scenario.richChain Scenario.constants) opportunities.
Proof.
  destruct (ArbitrageChecker.checkArbitrageOpportunities Scenario.richChain
              Scenario.constants [Scenario.triple]
              (Scenario.pricedWorld Scenario.defaultFees))
    as [[opportunities|e] w'] eqn:Hrun.
  - exists opportunities, w'. split; [reflexivity|]. split.
    + vm_compute in Hrun. injection Hrun as <- _. reflexivity.
    + destruct (scan_results_accepted Scenario.richChain Scenario.constants) as [Hall _].
      exact (Hall _ _ _ _ Hrun).
  - vm_compute in Hrun. discriminate.
Defined.

(** ** The scan coordinator *)

Section ArbitrageBotFacts.
Import ArbitrageBot.

Lemma started_singleFlight : singleFlight started.
Proof. right. split; [done|]. by eexists. Qed.

Lemma scheduledCheck_singleFlight cadence bot :
  singleFlight bot -> singleFlight (scheduledCheck cadence bot).
Proof.
  intros [[Hflag Hcycles]|[Hflag Hcycles]]; unfold scheduledCheck; rewrite Hflag.
  - right. simpl. rewrite Hcycles. split; [done|]. by eexists.
  - by right.
Qed.

Lemma settle_singleFlight i outcome bot :
  singleFlight bot -> singleFlight (settle i outcome bot).
Proof.
  intros Hbot. unfold settle.
  destruct (cycles bot !! i) as [cycle|] eqn:Hi; [|done].
  destruct Hbot as [[Hflag Hcycles]|[Hflag [c Hcycles]]].
  - by rewrite Hcycles in Hi.
  - rewrite Hcycles in Hi. destruct i as [|i]; [|done].
    destruct (continue cycle outcome) as [cycle'|].
    + right. simpl. rewrite Hflag, Hcycles. split; [done|]. by eexists.
    + left. simpl. by rewrite Hcycles.
Qed.

Lemma step_singleFlight bot event : singleFlight bot -> singleFlight (step bot event).
Proof.
  destruct event; simpl; [apply scheduledCheck_singleFlight | apply settle_singleFlight].
Qed.

Lemma fold_step_singleFlight events :
  forall bot, singleFlight bot -> singleFlight (fold_left step events bot).
Proof.
  induction events as [|event events IH]; intros bot Hbot; simpl; [done|].
  apply IH. by apply step_singleFlight.
Qed.

Lemma run_singleFlight events : singleFlight (run events).
Proof. apply fold_step_singleFlight, started_singleFlight. Qed.

(** C4: in every state that the bot reaches once [start()] has run, a
    trigger of either schedule that finds the flag set is skipped and changes
    nothing, and one that finds it clear sets it before its cycle; the
    startup scan is triggered once, by [start()], from the state of the
    constructor, where the flag is clear, and sets it before its cycle; a
    cycle that ends, on success or on failure, clears the flag.  Hence at
    most one cycle has been started and not ended, the flag is set exactly
    when there is one, and no two cycles, the startup scan included, are
    scanning at the same time. *)
Theorem scan_cycles_exclusive (events : list Event) :
  let bot := run events in
  (length (cycles bot) <= 1)%nat /\
  (length (scanning bot) <= 1)%nat /\
  (isRunning bot = true <-> cycles bot <> []) /\
  (forall cadence, isRunning bot = true -> scheduledCheck cadence bot = bot) /\
  (forall cadence, isRunning bot = false ->
     scheduledCheck cadence bot = mk true [mkCycle (Scheduled cadence) AwaitNetworkReady]) /\
  (forall i outcome cycle,
     cycles bot !! i = Some cycle -> continue cycle outcome = None ->
     settle i outcome bot = mk false []) /\
  (isRunning created = false /\ started = mk true [mkCycle Startup AwaitContractPaused]).
Proof.
  intros bot. pose proof (run_singleFlight events) as Hbot. fold bot in Hbot.
  destruct Hbot as [[Hflag Hcycles]|[Hflag [c Hcycles]]].
  - unfold scanning. rewrite Hflag, Hcycles. simpl.
    repeat split; try done; try lia.
    intros cadence _. unfold scheduledCheck. by rewrite Hflag, Hcycles.
  - unfold scanning. rewrite Hflag, Hcycles.
    split; [simpl; lia|]. split; [simpl; destruct (stage c); simpl; lia|].
    split; [done|]. split; [intros cadence _; unfold scheduledCheck; by rewrite Hflag|].
    split; [done|]. split; [|done].
    intros i outcome cycle Hi Hend. unfold settle. rewrite Hcycles in *.
    rewrite Hi, Hend. by destruct i.
Qed.

Lemma scan_cycles_exclusive_witness :
  let scanning := run [Settle 0 (Resolved false)] in
  isRunning scanning = true /\
  scheduledCheck HighPriority scanning = scanning /\
  scheduledCheck LowPriority scanning = scanning /\
  settle 0 Failed scanning = mk false [].
Proof.
  destruct (scan_cycles_exclusive [Settle 0 (Resolved false)])
    as (_ & _ & _ & Hskip & _ & Hend & _).
  split; [reflexivity|].
  split; [apply Hskip; reflexivity|].
  split; [apply Hskip; reflexivity|].
  apply (Hend 0%nat Failed (mkCycle Startup AwaitScan)); reflexivity.
Defined.

End ArbitrageBotFacts.

(** * Further properties of the code *)

(** ** The endpoint pool: invariants *)

Section PoolInvariants.
Import RPCManager.

Lemma wf_setHealthStatus m hs :
  wf m -> length hs = providersLength m -> wf (setHealthStatus hs m).
Proof. intros (Hfc & Hlu & Hhs & Hc) Hlen. by repeat split. Qed.

Lemma wf_setFailCounts m fc :
  wf m -> length fc = providersLength m -> wf (setFailCounts fc m).
Proof. intros (Hfc & Hlu & Hhs & Hc) Hlen. by repeat split. Qed.

Lemma wf_setCooldownTimers m ts : wf m -> wf (setCooldownTimers ts m).
Proof. intros (Hfc & Hlu & Hhs & Hc). by repeat split. Qed.

Lemma wf_setCurrentIndex m i :
  wf m -> (i < providersLength m)%nat -> wf (setCurrentIndex i m).
Proof. intros (Hfc & Hlu & Hhs & Hc) Hi. by repeat split. Qed.

Lemma reportSuccess_wf m : wf m -> wf (reportSuccess m).
Proof.
  intros Hwf. apply wf_setFailCounts; [done|].
  rewrite length_insert. by destruct Hwf.
Qed.

Lemma cooldownCallback_wf m : wf m -> wf (cooldownCallback m).
Proof.
  intros Hwf. pose proof Hwf as (Hfc & Hlu & Hhs & Hc). unfold cooldownCallback.
  apply wf_setFailCounts.
  - apply wf_setHealthStatus; [done|]. by rewrite length_insert.
  - by rewrite length_insert.
Qed.

Lemma reportFailure_wf cooldown m now : wf m -> wf (reportFailure cooldown m now).
Proof.
  intros Hwf. pose proof Hwf as (Hfc & Hlu & Hhs & Hc).
  assert (Hwf1 : wf (setFailCounts (alter S (currentIndex m) (failCounts m)) m)).
  { apply wf_setFailCounts; [done|]. by rewrite length_alter. }
  unfold reportFailure. cbv zeta.
  destruct (failCounts _ !! currentIndex m) as [c|]; [|done].
  destruct (3 <=? c)%nat; [|done].
  apply wf_setCurrentIndex.
  - apply wf_setCooldownTimers, wf_setHealthStatus; [done|].
    simpl. by rewrite length_insert.
  - apply Nat.mod_upper_bound. unfold providersLength in *. simpl. lia.
Qed.

Lemma fold_callbacks_wf {A} (due : list A) m :
  wf m -> wf (fold_left (fun acc _ => cooldownCallback acc) due m).
Proof.
  revert m. induction due as [|d due IH]; intros m Hwf; simpl; [done|].
  by apply IH, cooldownCallback_wf.
Qed.

Lemma runTimers_wf m now : wf m -> wf (runTimers m now).
Proof. intros Hwf. unfold runTimers. by apply fold_callbacks_wf, wf_setCooldownTimers. Qed.

Lemma probe_wf reachable i m : wf m -> wf (probe reachable i m).
Proof.
  intros Hwf. apply wf_setHealthStatus; [done|].
  rewrite length_insert. by destruct Hwf as (_ & _ & ? & _).
Qed.

Lemma probe_providersLength reachable i m :
  providersLength (probe reachable i m) = providersLength m.
Proof. done. Qed.

(** The turns of [_checkHealth] write the answers of the endpoints into the
    health flags, one after the other. *)
Lemma fold_probe reachable (indices : list nat) m :
  let m' := fold_left (fun acc i => probe (reachable i) i acc) indices m in
  healthStatus m' =
    fold_left (fun hs i => <[i := reachable i]> hs) indices (healthStatus m) /\
  rpcUrls m' = rpcUrls m /\ currentIndex m' = currentIndex m /\
  failCounts m' = failCounts m /\ lastUsed m' = lastUsed m /\
  cooldownTimers m' = cooldownTimers m.
Proof.
  revert m. induction indices as [|i rest IH]; intros m; simpl; [done|].
  destruct (IH (probe (reachable i) i m)) as (H1 & H2 & H3 & H4 & H5 & H6).
  by rewrite H1, H2, H3, H4, H5, H6.
Qed.

Lemma fold_insert_lookup (f : nat -> bool) (indices : list nat) (hs : list bool) i :
  fold_left (fun hs i => <[i := f i]> hs) indices hs !! i =
    if bool_decide (i ∈ indices) then (fun _ => f i) <$> hs !! i else hs !! i.
Proof.
  revert hs. induction indices as [|j rest IH]; intros hs; simpl; [done|].
  rewrite IH. destruct (decide (i = j)) as [->|Hne].
  - rewrite (bool_decide_eq_true_2 (j ∈ j :: rest)) by (apply elem_of_cons; by left).
    destruct (decide (j < length hs)%nat) as [Hlt|Hge].
    + rewrite list_lookup_insert_eq by done.
      apply lookup_lt_is_Some in Hlt as [x ->]. by destruct (bool_decide _).
    + rewrite list_insert_ge by lia.
      rewrite (lookup_ge_None_2 hs j) by lia. by destruct (bool_decide _).
  - rewrite list_lookup_insert_ne by done.
    destruct (bool_decide (i ∈ rest)) eqn:Hin.
    + apply bool_decide_eq_true in Hin.
      rewrite (bool_decide_eq_true_2 (i ∈ j :: rest)); [done|apply elem_of_cons; by right].
    + apply bool_decide_eq_false in Hin.
      rewrite (bool_decide_eq_false_2 (i ∈ j :: rest)); [done|].
      by intros [?|?]%elem_of_cons.
Qed.

Lemma _checkHealth_wf reachable m : wf m -> wf (_checkHealth reachable m).
Proof.
  intros Hwf. unfold _checkHealth.
  generalize (seq 0 (providersLength m)). intros indices. revert m Hwf.
  induction indices as [|i rest IH]; intros m Hwf; simpl; [done|].
  by apply IH, probe_wf.
Qed.

(** X1: every method of the pool keeps the object well formed: the three
    arrays keep one slot for each endpoint and the selected index stays
    inside the pool, so that no later read of a slot gives [undefined]. *)
Theorem pool_methods_keep_wf (m : t) (now cooldown : Z) (reachable : nat -> bool) :
  wf m ->
  wf (getProvider m now).2 /\
  wf (reportFailure cooldown m now) /\
  wf (reportSuccess m) /\
  wf (cooldownCallback m) /\
  wf (runTimers m now) /\
  wf (_checkHealth reachable m).
Proof.
  intros Hwf. split; [|split; [|split; [|split; [|split]]]].
  - by destruct (getProvider_returns m now Hwf) as (_ & _ & _ & ?).
  - by apply reportFailure_wf.
  - by apply reportSuccess_wf.
  - by apply cooldownCallback_wf.
  - by apply runTimers_wf.
  - by apply _checkHealth_wf.
Qed.

Lemma pool_methods_keep_wf_witness :
  wf busyPool /\ wf (reportFailure 60000 busyPool 1000).
Proof.
  assert (Hwf : wf busyPool) by (unfold wf; vm_compute; repeat split; lia).
  split; [exact Hwf|].
  exact (proj1 (proj2 (pool_methods_keep_wf busyPool 1000 60000 (fun _ => true) Hwf))).
Defined.

Lemma usable_out_of_range m now j :
  wf m -> (providersLength m <= j)%nat -> usable m now j = false.
Proof.
  intros (_ & _ & Hhs & _) Hj. unfold usable.
  rewrite (lookup_ge_None_2 (healthStatus m) j) by lia. done.
Qed.

(** X2: the limit of one use in 500 ms.  When two calls of [getProvider]
    that are at most 500 ms apart, with nothing else touching the pool
    between them, return the same endpoint, that endpoint is the primary one
    and the second call found no endpoint that met the three conditions. *)
Theorem getProvider_rate_limit (m : t) (now now' : Z) :
  wf m ->
  now' - now <= 500 ->
  let first := getProvider m now in
  let second := getProvider first.2 now' in
  second.1 = first.1 ->
  first.1 = 0%nat /\ forall j, usable first.2 now' j = false.
Proof.
  intros Hwf Hclose first second Hsame.
  destruct (getProvider_returns m now Hwf) as (Hlt & Hcur & Hlast & Hwf1).
  fold first in Hlt, Hcur, Hlast, Hwf1.
  assert (Hblocked : usable first.2 now' first.1 = false).
  { unfold usable. rewrite Hlast.
    destruct (healthStatus first.2 !! first.1) as [h|]; [|done].
    destruct (failCounts first.2 !! first.1) as [c|]; [|done].
    replace (500 <? now' - now) with false by (symmetry; apply Z.ltb_ge; lia).
    by rewrite andb_false_r. }
  subst second. unfold getProvider in Hsame.
  rewrite Hcur, Hblocked in Hsame.
  destruct (List.find (usable first.2 now') (rotation first.2)) as [idx|] eqn:Hfind;
    simpl in Hsame.
  - apply find_some in Hfind as [_ Hu]. congruence.
  - split; [done|]. intros j.
    destruct (decide (j < providersLength first.2)%nat) as [Hj|Hj].
    + exact (find_none _ _ Hfind j (rotation_complete _ j Hwf1 Hj)).
    + apply usable_out_of_range; [done|lia].
Qed.

Lemma getProvider_rate_limit_witness :
  (getProvider Examples.pacedPool 1000).1 = 0%nat /\
  forall j, usable (getProvider Examples.pacedPool 1000).2 1200 j = false.
Proof.
  assert (Hwf : wf Examples.pacedPool) by (unfold wf; vm_compute; repeat split; lia).
  assert (Hgap : 1200 - 1000 <= 500) by lia.
  exact (getProvider_rate_limit Examples.pacedPool 1000 1200 Hwf Hgap eq_refl).
Defined.

(** X3: an endpoint that does not meet the three conditions is never
    returned while some endpoint of the pool meets them; this holds for an
    endpoint marked unhealthy, for one with three failures and for one used
    less than 500 ms ago alike. *)
Theorem getProvider_skips_unusable (m : t) (now : Z) (i j : nat) :
  wf m ->
  usable m now i = false ->
  usable m now j = true ->
  (getProvider m now).1 <> i.
Proof.
  intros Hwf Hi Hj. unfold getProvider.
  destruct (usable m now (currentIndex m)) eqn:Hcur; simpl.
  - intros <-. congruence.
  - destruct (List.find (usable m now) (rotation m)) as [idx|] eqn:Hfind; simpl.
    + apply find_some in Hfind as [_ Hu]. intros <-. congruence.
    + pose proof (usable_lt m now j Hwf Hj) as Hlt.
      pose proof (find_none _ _ Hfind j (rotation_complete m j Hwf Hlt)).
      congruence.
Qed.

Lemma getProvider_skips_unusable_witness :
  (getProvider busyPool 1000).1 <> 1%nat.
Proof.
  assert (Hwf : wf busyPool) by (unfold wf; vm_compute; repeat split; lia).
  exact (getProvider_skips_unusable busyPool 1000 1 2 Hwf eq_refl eq_refl).
Defined.

(** A failure that leaves the count below three only increments it. *)
Lemma reportFailure_below cooldown m now c :
  failCounts m !! currentIndex m = Some c ->
  (c + 1 < 3)%nat ->
  reportFailure cooldown m now =
    setFailCounts (alter S (currentIndex m) (failCounts m)) m.
Proof.
  intros Hc Hlt. unfold reportFailure. cbv zeta.
  change (failCounts (setFailCounts ?fc m)) with fc.
  cbn [failCounts setFailCounts].
  rewrite list_lookup_alter_eq, Hc. cbn [fmap option_fmap option_map].
  replace (3 <=? S c)%nat with false by (symmetry; apply Nat.leb_gt; lia).
  done.
Qed.

(** X4: the failures that mark an endpoint are failures in a row: after a
    success, two further failures on the selected endpoint leave the health
    flags, the selected index and the timers as they were, and the failure
    count of the endpoint is two. *)
Theorem reportSuccess_restarts_count (m : t) (cooldown t1 t2 : Z) :
  wf m ->
  let m' := reportFailure cooldown (reportFailure cooldown (reportSuccess m) t1) t2 in
  healthStatus m' = healthStatus m /\
  currentIndex m' = currentIndex m /\
  cooldownTimers m' = cooldownTimers m /\
  failCounts m' !! currentIndex m = Some 2%nat.
Proof.
  intros (Hfc & Hlu & Hhs & Hc). unfold providersLength in *.
  assert (Hcur : (currentIndex m < length (failCounts m))%nat) by lia.
  assert (H0 : failCounts (reportSuccess m) !! currentIndex (reportSuccess m)
               = Some 0%nat).
  { apply list_lookup_insert_eq. done. }
  rewrite (reportFailure_below cooldown (reportSuccess m) t1 0 H0) by lia.
  set (m1 := setFailCounts _ (reportSuccess m)).
  assert (H1 : failCounts m1 !! currentIndex m1 = Some 1%nat).
  { subst m1. cbn [failCounts setFailCounts currentIndex].
    rewrite list_lookup_alter_eq. by rewrite H0. }
  rewrite (reportFailure_below cooldown m1 t2 1 H1) by lia.
  cbn [healthStatus currentIndex cooldownTimers failCounts setFailCounts].
  split; [done|]. split; [done|]. split; [done|].
  rewrite list_lookup_alter_eq. by rewrite H1.
Qed.

Lemma reportSuccess_restarts_count_witness :
  healthStatus (reportFailure 60000 (reportFailure 60000 (reportSuccess busyPool) 0) 0)
    = healthStatus busyPool.
Proof.
  assert (Hwf : wf busyPool) by (unfold wf; vm_compute; repeat split; lia).
  exact (proj1 (reportSuccess_restarts_count busyPool 60000 0 0 Hwf)).
Defined.

(** X5: [_checkHealth] overwrites the health flag of every endpoint with the
    answer of its probe and changes nothing else.  A probe that succeeds
    therefore clears the flag set by three failures, but not the failure
    count: the endpoint stays out of the selection. *)
Theorem checkHealth_overwrites_flags (m : t) (reachable : nat -> bool) :
  wf m ->
  let m' := _checkHealth reachable m in
  (forall i, (i < providersLength m)%nat ->
     healthStatus m' !! i = Some (reachable i)) /\
  failCounts m' = failCounts m /\
  currentIndex m' = currentIndex m /\
  lastUsed m' = lastUsed m /\
  cooldownTimers m' = cooldownTimers m /\
  (forall i c now, failCounts m !! i = Some c -> (3 <= c)%nat ->
     usable m' now i = false).
Proof.
  intros (Hfc & Hlu & Hhs & Hc) m'. subst m'. unfold _checkHealth.
  destruct (fold_probe reachable (seq 0 (providersLength m)) m)
    as (H1 & H2 & H3 & H4 & H5 & H6).
  cbv zeta in H1.
  split; [|split; [done|split; [done|split; [done|split; [done|]]]]].
  - intros i Hi. rewrite H1, fold_insert_lookup.
    rewrite bool_decide_eq_true_2 by (apply elem_of_seq; lia).
    assert (Hlt : (i < length (healthStatus m))%nat) by lia.
    by apply lookup_lt_is_Some in Hlt as [x ->].
  - intros i c now Hcount Hthree. unfold usable. rewrite H4, Hcount.
    replace (c <? 3)%nat with false by (symmetry; apply Nat.ltb_ge; lia).
    destruct (healthStatus _ !! i) as [h|]; [|done].
    destruct (lastUsed _ !! i); [|done].
    by rewrite andb_false_r.
Qed.

Lemma checkHealth_overwrites_flags_witness :
  healthStatus (_checkHealth (fun _ => true) busyPool) !! 0%nat = Some true /\
  usable (_checkHealth (fun _ => true) busyPool) 1000 0 = false.
Proof.
  assert (Hwf : wf busyPool) by (unfold wf; vm_compute; repeat split; lia).
  destruct (checkHealth_overwrites_flags busyPool (fun _ => true) Hwf)
    as (Hflags & _ & _ & _ & _ & Hblocked).
  split.
  - apply Hflags. vm_compute. lia.
  - apply (Hblocked 0%nat 3%nat 1000); [reflexivity | lia].
Defined.

(** X6: the defect of the cooldown in any pool of two or more endpoints.
    When the third failure in a row has been reported on the selected
    endpoint and the cooldown has elapsed with nothing else touching the
    pool, the endpoint that failed is still unhealthy with three failures,
    and the flag and the count that the callback has written are those of
    the endpoint selected after it. *)
Theorem cooldown_resets_successor (m : t) (cooldown now : Z) :
  wf m ->
  (2 <= providersLength m)%nat ->
  cooldownTimers m = [] ->
  failCounts m !! currentIndex m = Some 2%nat ->
  let next := ((currentIndex m + 1) mod providersLength m)%nat in
  let m' := runTimers (reportFailure cooldown m now) (now + cooldown) in
  healthStatus m' !! currentIndex m = Some false /\
  failCounts m' !! currentIndex m = Some 3%nat /\
  next <> currentIndex m /\
  healthStatus m' !! next = Some true /\
  failCounts m' !! next = Some 0%nat /\
  cooldownTimers m' = [].
Proof.
  intros Hwf Hn Hts H2 next.
  destruct (reportFailure_third cooldown m now Hwf H2) as (Hh & Hf & Hc & Ht & Hwf').
  pose proof Hwf as (_ & _ & _ & Hcur).
  pose proof (next_index_differs _ _ Hcur Hn) as Hne.
  destruct Hwf' as (Hfc' & _ & Hhs' & Hc').
  simpl. unfold runTimers. rewrite Ht, Hts. simpl.
  rewrite filter_cons_True by lia. rewrite filter_cons_False by lia.
  rewrite !filter_nil. simpl. rewrite Hc. fold next.
  fold next in Hne. rewrite Hc in Hc'. fold next in Hc'.
  split; [by rewrite list_lookup_insert_ne|].
  split; [by rewrite list_lookup_insert_ne|].
  split; [done|].
  split; [apply list_lookup_insert_eq; lia|].
  split; [apply list_lookup_insert_eq; lia|done].
Qed.

Lemma cooldown_resets_successor_witness :
  healthStatus
    (runTimers (reportFailure 60000 Examples.strainedPool 0) (0 + 60000)) !! 0%nat
    = Some false.
Proof.
  assert (Hwf : wf Examples.strainedPool) by (unfold wf; vm_compute; repeat split; lia).
  assert (Hn : (2 <= providersLength Examples.strainedPool)%nat) by (vm_compute; lia).
  exact (proj1 (cooldown_resets_successor Examples.strainedPool 60000 0 Hwf Hn
                  eq_refl eq_refl)).
Defined.

End PoolInvariants.

(** ** The endpoint pool: the gas price with retries *)

Section PoolGasPrice.
Import RPCManager.
Context {E : Type} (rpc : Endpoints E).
Context (RPC_RETRY_COUNT : nat) (RPC_COOLDOWN_MS : Z).

(** One attempt: the selection, the request and the report of the
    success. *)
Lemma attempt_eq (s : t * E) :
  let now := (clock rpc s.2).1 in
  let e1 := (clock rpc s.2).2 in
  let idx := (getProvider s.1 now).1 in
  let m1 := (getProvider s.1 now).2 in
  catchNull
    (let* idx := selectProvider rpc in
     let* gasPrice := raceGasPrice rpc idx in
     modify (fun s => (reportSuccess s.1, s.2)) ;;;
     ret gasPrice) s =
  match requestGasPrice rpc idx e1 with
  | (Ok p, e2) => (Ok (Some p), (reportSuccess m1, e2))
  | (Throw _, e2) => (Ok None, (m1, e2))
  end.
Proof.
  unfold catchNull, bind, selectProvider, raceGasPrice, modify, ret. simpl.
  destruct (clock rpc s.2) as [now e1]. simpl.
  destruct (getProvider s.1 now) as [idx m1]. simpl.
  destruct (requestGasPrice rpc idx e1) as [[p|msg] e2]; done.
Qed.

(** X7: [getGasPrice()] of the pool never throws.  With a retry count of
    zero it returns [undefined]; with any other retry count it returns a
    price, which is the answer of an endpoint or else the default of
    5 gwei; and it leaves the pool well formed. *)
Theorem pool_getGasPrice_answers (s : t * E) :
  exists r s',
    getGasPrice rpc RPC_RETRY_COUNT RPC_COOLDOWN_MS s = (Ok r, s') /\
    match r with
    | None => RPC_RETRY_COUNT = 0%nat
    | Some p =>
        (0 < RPC_RETRY_COUNT)%nat /\
        (p = defaultGasPrice \/
         exists idx e e', requestGasPrice rpc idx e = (Ok p, e'))
    end /\
    (wf s.1 -> wf s'.1).
Proof.
  assert (Hloop : forall remaining (s : t * E),
    exists r s',
      retryGasPrice rpc RPC_RETRY_COUNT RPC_COOLDOWN_MS remaining s = (Ok r, s') /\
      match r with
      | None => remaining = 0%nat
      | Some p =>
          (0 < remaining)%nat /\
          (p = defaultGasPrice \/
           exists idx e e', requestGasPrice rpc idx e = (Ok p, e'))
      end /\
      (wf s.1 -> wf s'.1)).
  { clear s. intros remaining.
    induction remaining as [|remaining IH]; intros s.
    - exists None, s. done.
    - cbn [retryGasPrice]. unfold bind at 1. rewrite attempt_eq. cbv zeta.
      destruct (clock rpc s.2) as [now e1] eqn:Hclock. cbn [fst snd].
      pose proof (getProvider_returns s.1 now) as Hsel.
      destruct (getProvider s.1 now) as [idx m1]. cbn [fst snd] in *.
      destruct (requestGasPrice rpc idx e1) as [[p|msg] e2] eqn:Hrequest.
      + exists (Some p), (reportSuccess m1, e2). split; [done|]. split.
        * split; [lia|]. right. by exists idx, e1, e2.
        * intros Hwf. cbn [fst]. apply reportSuccess_wf. by apply Hsel.
      + unfold bind at 1. unfold recordFailure. cbn [fst snd].
        destruct (clock rpc e2) as [now2 e3].
        destruct (RPC_RETRY_COUNT - remaining <? RPC_RETRY_COUNT)%nat eqn:Hmore.
        * unfold bind at 1, modify. cbn [fst snd].
          destruct (IH (reportFailure RPC_COOLDOWN_MS m1 now2,
                        sleep rpc (waitTime (RPC_RETRY_COUNT - remaining)) e3))
            as (r & s' & Hrun & Hr & Hwf').
          exists r, s'. split; [done|].
          apply Nat.ltb_lt in Hmore. split.
          -- destruct r as [p|]; [|lia]. destruct Hr as [_ Hr]. split; [lia|done].
          -- intros Hwf. apply Hwf'. cbn [fst]. apply reportFailure_wf. by apply Hsel.
        * exists (Some defaultGasPrice), (reportFailure RPC_COOLDOWN_MS m1 now2, e3).
          split; [done|]. split.
          -- split; [lia|]. by left.
          -- intros Hwf. cbn [fst]. apply reportFailure_wf. by apply Hsel.
  }
  apply Hloop.
Qed.

(** X8: when every request of the gas price fails, [getGasPrice()] of the
    pool gives up and returns the default of 5 gwei, whatever the retry
    count, provided it is not zero. *)
Theorem pool_getGasPrice_default (s : t * E) :
  (forall idx e, exists msg e', requestGasPrice rpc idx e = (Throw msg, e')) ->
  (0 < RPC_RETRY_COUNT)%nat ->
  exists s',
    getGasPrice rpc RPC_RETRY_COUNT RPC_COOLDOWN_MS s = (Ok (Some defaultGasPrice), s').
Proof.
  intros Hdead Hpos.
  assert (Hloop : forall remaining, (0 < remaining)%nat ->
    forall s : t * E,
      exists s',
        retryGasPrice rpc RPC_RETRY_COUNT RPC_COOLDOWN_MS remaining s
          = (Ok (Some defaultGasPrice), s')).
  { clear s Hpos. intros remaining.
    induction remaining as [|remaining IH]; intros Hpos s; [lia|].
    cbn [retryGasPrice]. unfold bind at 1. rewrite attempt_eq. cbv zeta.
    destruct (clock rpc s.2) as [now e1]. cbn [fst snd].
    destruct (getProvider s.1 now) as [idx m1]. cbn [fst snd].
    destruct (Hdead idx e1) as (msg & e2 & ->).
    unfold bind at 1. unfold recordFailure. cbn [fst snd].
    destruct (clock rpc e2) as [now2 e3].
    destruct (RPC_RETRY_COUNT - remaining <? RPC_RETRY_COUNT)%nat eqn:Hmore.
    - unfold bind at 1, modify. cbn [fst snd].
      destruct remaining as [|remaining'].
      + rewrite Nat.sub_0_r, Nat.ltb_irrefl in Hmore. done.
      + apply IH. lia.
    - by eexists.
  }
  by apply Hloop.
Qed.

End PoolGasPrice.

Lemma pool_getGasPrice_answers_witness :
  exists s',
    RPCManager.getGasPrice Examples.deadEndpoints 0 60000 (RPCManager.freshPool, 0)
      = (Ok None, s').
Proof.
  destruct (pool_getGasPrice_answers Examples.deadEndpoints 0 60000
              (RPCManager.freshPool, 0)) as (r & s' & Hrun & Hr & _).
  destruct r as [p|].
  - destruct Hr as [Hpos _]. lia.
  - exists s'. exact Hrun.
Defined.

Lemma pool_getGasPrice_default_witness :
  exists s',
    RPCManager.getGasPrice Examples.deadEndpoints 3 60000 (RPCManager.freshPool, 0)
      = (Ok (Some 5000000000%N), s') /\ s'.2 = 3000.
Proof.
  destruct (pool_getGasPrice_default Examples.deadEndpoints 3 60000
              (RPCManager.freshPool, 0)) as (s' & Hrun).
  - intros idx e. exists "timeout", e. reflexivity.
  - lia.
  - exists s'. split; [exact Hrun|].
    vm_compute in Hrun. injection Hrun as <-. reflexivity.
Defined.

(** ** The network condition monitor *)

Section NetworkHealthFacts.
Import NetworkService.
Context {E : Type} (chain : Chain E) (MAX_GAS_PRICE_GWEI : float).

(** The check when the sample fails. *)
Lemma checkNetworkHealth_failed (w : World E) msg e1 :
  providerGetGasPrice chain (env w) = (Throw msg, e1) ->
  let h := networkHealth w in
  let attempts := (failedAttempts h + 1)%nat in
  checkNetworkHealth chain MAX_GAS_PRICE_GWEI w =
    (Ok false,
     setNetworkHealth
       (mkNetworkHealth (lastCheckTime h)
          (if (3 <=? attempts)%nat then false else isHealthy h)
          attempts (gasPrice h))
       (setEnv e1 w)).
Proof.
  intros Hsample. unfold checkNetworkHealth, tryCatch.
  rewrite (bind_throw _ _ _ _ _ (call_eq _ _ _ _ Hsample)).
  unfold bind, modify, get, ret. cbn -[Nat.leb Nat.add].
  destruct (3 <=? failedAttempts (networkHealth w) + 1)%nat; done.
Qed.

(** The check when the sample is answered. *)
Lemma checkNetworkHealth_sampled (w : World E) p e1 now e2 :
  providerGetGasPrice chain (env w) = (Ok p, e1) ->
  dateNow chain e1 = (now, e2) ->
  let h := networkHealth w in
  let high := (MAX_GAS_PRICE_GWEI <? formatUnits chain p 9)%float in
  checkNetworkHealth chain MAX_GAS_PRICE_GWEI w =
    (Ok (negb high),
     setNetworkHealth
       (mkNetworkHealth now (negb high)
          (if high then failedAttempts h else 0%nat) p)
       (setEnv e2 w)).
Proof.
  intros Hsample Hnow. unfold checkNetworkHealth, tryCatch.
  rewrite (bind_ok _ _ _ _ _ (call_eq _ _ _ _ Hsample)).
  unfold bind at 1. unfold callTotal. simpl. rewrite Hnow.
  unfold bind, modify, get, ret. simpl.
  destruct (MAX_GAS_PRICE_GWEI <? formatUnits chain p 9)%float; done.
Qed.

(** X9: the verdict of a health check whose sample is answered.  A price
    at or below the ceiling marks the network healthy and clears the count
    of failed checks; a price above the ceiling marks it unhealthy and
    leaves the count as it was.  In both cases the price and the time are
    stored. *)
Theorem checkNetworkHealth_verdict (w : World E) p e1 now e2 :
  providerGetGasPrice chain (env w) = (Ok p, e1) ->
  dateNow chain e1 = (now, e2) ->
  exists verdict w',
    checkNetworkHealth chain MAX_GAS_PRICE_GWEI w = (Ok verdict, w') /\
    verdict = negb (MAX_GAS_PRICE_GWEI <? formatUnits chain p 9)%float /\
    isHealthy (networkHealth w') = verdict /\
    failedAttempts (networkHealth w') =
      (if verdict then 0%nat else failedAttempts (networkHealth w)) /\
    gasPrice (networkHealth w') = p /\
    lastCheckTime (networkHealth w') = now.
Proof.
  intros Hsample Hnow.
  eexists _, _. split; [exact (checkNetworkHealth_sampled w p e1 now e2 Hsample Hnow)|].
  simpl. by destruct (MAX_GAS_PRICE_GWEI <? formatUnits chain p 9)%float.
Qed.

(** X10: three health checks in a row whose samples all fail mark the
    network unhealthy, whatever its state before; each of them returns
    [false], and the stored price and the time of the last check are left
    as they were. *)
Theorem three_failed_checks_mark_unhealthy (w : World E) :
  (forall e, exists msg e', providerGetGasPrice chain e = (Throw msg, e')) ->
  exists w3,
    (checkNetworkHealth chain MAX_GAS_PRICE_GWEI ;;;
     checkNetworkHealth chain MAX_GAS_PRICE_GWEI ;;;
     checkNetworkHealth chain MAX_GAS_PRICE_GWEI) w = (Ok false, w3) /\
    isHealthy (networkHealth w3) = false /\
    failedAttempts (networkHealth w3) = (failedAttempts (networkHealth w) + 3)%nat /\
    gasPrice (networkHealth w3) = gasPrice (networkHealth w) /\
    lastCheckTime (networkHealth w3) = lastCheckTime (networkHealth w).
Proof.
  intros Hdead.
  destruct (Hdead (env w)) as (msg1 & e1 & H1).
  pose proof (checkNetworkHealth_failed w msg1 e1 H1) as Hrun1. cbv zeta in Hrun1.
  set (w1 := setNetworkHealth _ (setEnv e1 w)) in Hrun1.
  destruct (Hdead (env w1)) as (msg2 & e2 & H2).
  pose proof (checkNetworkHealth_failed w1 msg2 e2 H2) as Hrun2. cbv zeta in Hrun2.
  set (w2 := setNetworkHealth _ (setEnv e2 w1)) in Hrun2.
  destruct (Hdead (env w2)) as (msg3 & e3 & H3).
  pose proof (checkNetworkHealth_failed w2 msg3 e3 H3) as Hrun3. cbv zeta in Hrun3.
  set (w3 := setNetworkHealth _ (setEnv e3 w2)) in Hrun3.
  exists w3. split.
  - unfold bind. by rewrite Hrun1, Hrun2, Hrun3.
  - subst w3 w2 w1. cbn -[Nat.leb Nat.add].
    replace (3 <=? failedAttempts (networkHealth w) + 1 + 1 + 1)%nat with true
      by (symmetry; apply Nat.leb_le; lia).
    repeat split; try done. lia.
Qed.

(** X11: [isNetworkReadyForArbitrage] returns the stored verdict, not the
    result of the check it has just run.  When the last check is more than
    five minutes old, the network is marked healthy, fewer than two failed
    checks are counted and the sample fails, it answers [true], and the time
    of the last check is left as it was. *)
Theorem ready_after_failed_recheck (w : World E) now e1 msg e2 :
  dateNow chain (env w) = (now, e1) ->
  300000 < now - lastCheckTime (networkHealth w) ->
  providerGetGasPrice chain e1 = (Throw msg, e2) ->
  isHealthy (networkHealth w) = true ->
  (failedAttempts (networkHealth w) < 2)%nat ->
  exists w',
    isNetworkReadyForArbitrage chain MAX_GAS_PRICE_GWEI w = (Ok true, w') /\
    lastCheckTime (networkHealth w') = lastCheckTime (networkHealth w) /\
    failedAttempts (networkHealth w') = (failedAttempts (networkHealth w) + 1)%nat.
Proof.
  intros Hnow Hstale Hsample Hhealthy Hfew.
  unfold isNetworkReadyForArbitrage.
  rewrite (bind_ok _ _ _ _ _ (callTotal_eq _ _ _ _ Hnow)).
  unfold get at 1. unfold bind at 1. cbn [networkHealth setEnv].
  replace (5 * 60 * 1000 <? now - lastCheckTime (networkHealth w)) with true
    by (symmetry; apply Z.ltb_lt; lia).
  pose proof (checkNetworkHealth_failed (setEnv e1 w) msg e2 Hsample) as Hrun.
  cbv zeta in Hrun. cbn [networkHealth setEnv] in Hrun.
  unfold bind. rewrite Hrun. unfold get, ret. cbn [networkHealth setNetworkHealth isHealthy].
  replace (3 <=? failedAttempts (networkHealth w) + 1)%nat with false
    by (symmetry; apply Nat.leb_gt; lia).
  rewrite Hhealthy. eexists. split; [reflexivity|]. done.
Qed.

(** X12: the price stored by a health check is served for two minutes.
    After a check whose sample [p] was answered at time [now], whatever the
    verdict, a gas price query made less than two minutes later asks the
    provider nothing.  It returns [p] for a multiplier that is not greater
    than one; for a multiplier greater than one whose hundredfold, rounded
    down, is below 9007199254740991 it returns the integer quotient by 100 of
    [p] times that integer; and for a multiplier greater than one whose
    hundredfold is infinite or rounds down to 9007199254740991 or more it
    returns [p] without the buffer. *)
Theorem checked_price_is_served (w : World E) p e1 now e2 (m : float) later e3 :
  providerGetGasPrice chain (env w) = (Ok p, e1) ->
  dateNow chain e1 = (now, e2) ->
  dateNow chain e2 = (later, e3) ->
  later - now < 120000 ->
  exists verdict w1,
    checkNetworkHealth chain MAX_GAS_PRICE_GWEI w = (Ok verdict, w1) /\
    ((1 <? m)%float = false ->
       getGasPrice chain m w1 = (Ok p, setEnv e3 w1)) /\
    (forall k, (1 <? m)%float = true ->
       mathFloor (m * 100) = Some k -> k < 9007199254740991 ->
       getGasPrice chain m w1 = (Ok (p * Z.to_N k / 100)%N, setEnv e3 w1)) /\
    ((1 <? m)%float = true ->
     mathFloor (m * 100) = None \/
     (exists k, mathFloor (m * 100) = Some k /\ 9007199254740991 <= k) ->
       getGasPrice chain m w1 = (Ok p, setEnv e3 w1)).
Proof.
  intros Hsample Hnow Hlater Hage.
  eexists _, _. split; [exact (checkNetworkHealth_sampled w p e1 now e2 Hsample Hnow)|].
  set (w1 := setNetworkHealth _ (setEnv e2 w)).
  assert (Hcached : forall m',
    getGasPrice chain m' w1 =
      tryCatch
        (if (1 <? m')%float then liftRes (withBuffer p m') else ret p)
        (fun _ => let* w := get in ret (gasPrice (networkHealth w)))
        (setEnv e3 w1)).
  { intros m'. apply (getGasPrice_cached chain w1 m' later e3); [done|].
    subst w1. simpl. lia. }
  split; [|split].
  - intros Hm. rewrite Hcached, Hm. done.
  - intros k Hm Hk Hsafe. rewrite Hcached, Hm. unfold tryCatch, liftRes.
    by rewrite (withBuffer_safe _ _ _ Hm Hk Hsafe).
  - intros Hm Hunsafe. rewrite Hcached, Hm. unfold tryCatch, liftRes.
    destruct (withBuffer_unsafe p m Hunsafe) as [msg ->]. done.
Qed.

(** X13: a gas price query never changes the verdict on the network, the
    count of failed checks or the time of the last check.  A price that the
    query samples is therefore not served from the store by the next query:
    the store stays as old as the last health check. *)
Theorem getGasPrice_keeps_health (w : World E) (m : float) :
  let w' := (getGasPrice chain m w).2 in
  isHealthy (networkHealth w') = isHealthy (networkHealth w) /\
  failedAttempts (networkHealth w') = failedAttempts (networkHealth w) /\
  lastCheckTime (networkHealth w') = lastCheckTime (networkHealth w).
Proof.
  destruct (dateNow chain (env w)) as [now e1] eqn:Hnow.
  destruct (Z_lt_le_dec (now - lastCheckTime (networkHealth w)) 120000) as [Hage|Hage].
  - rewrite (getGasPrice_cached chain w m now e1 Hnow Hage).
    unfold tryCatch, liftRes, bind, get, ret.
    destruct (1 <? m)%float; [|done].
    destruct (withBuffer _ _); done.
  - destruct (providerGetGasPrice chain e1) as [[p|msg] e2] eqn:Hsample;
      rewrite (getGasPrice_sampled chain w m now e1 _ e2 Hnow Hage Hsample); [|done].
    unfold tryCatch, liftRes, bind, get, ret.
    destruct (1 <? m)%float; [|done].
    destruct (withBuffer _ _); done.
Qed.

End NetworkHealthFacts.

Lemma checkNetworkHealth_verdict_witness :
  exists w',
    NetworkService.checkNetworkHealth Examples.gweiChain 10 Examples.lateWorld
      = (Ok true, w') /\
    gasPrice (networkHealth w') = 5000000000%N.
Proof.
  destruct (checkNetworkHealth_verdict Examples.gweiChain 10 Examples.lateWorld
              5000000000 1000000 1000000 1000000 eq_refl eq_refl)
    as (verdict & w' & Hrun & Hverdict & _ & _ & Hprice & _).
  exists w'. split; [|exact Hprice].
  rewrite Hrun, Hverdict. reflexivity.
Defined.

Lemma three_failed_checks_mark_unhealthy_witness :
  exists w3,
    (NetworkService.checkNetworkHealth Scenario.quietChain 10 ;;;
     NetworkService.checkNetworkHealth Scenario.quietChain 10 ;;;
     NetworkService.checkNetworkHealth Scenario.quietChain 10) Examples.lateWorld
      = (Ok false, w3) /\
    isHealthy (networkHealth w3) = false.
Proof.
  destruct (three_failed_checks_mark_unhealthy Scenario.quietChain 10 Examples.lateWorld)
    as (w3 & Hrun & Hflag & _).
  - intros e. exists "timeout", e. reflexivity.
  - exists w3. split; [exact Hrun | exact Hflag].
Defined.

Lemma ready_after_failed_recheck_witness :
  exists w',
    NetworkService.isNetworkReadyForArbitrage Scenario.quietChain 10 Examples.lateWorld
      = (Ok true, w').
Proof.
  destruct (ready_after_failed_recheck Scenario.quietChain 10 Examples.lateWorld
              1000000 1000000 "timeout" 1000000 eq_refl)
    as (w' & Hrun & _).
  - vm_compute. reflexivity.
  - reflexivity.
  - reflexivity.
  - vm_compute. lia.
  - exists w'. exact Hrun.
Defined.

Lemma checked_price_is_served_witness :
  exists verdict w1,
    NetworkService.checkNetworkHealth Examples.gweiChain 10 Examples.lateWorld
      = (Ok verdict, w1) /\
    NetworkService.getGasPrice Examples.gweiChain ProfitCalculator.gasBuffer w1
      = (Ok 5500000000%N, w1).
Proof.
  destruct (checked_price_is_served Examples.gweiChain 10 Examples.lateWorld
              5000000000 1000000 1000000 1000000 ProfitCalculator.gasBuffer
              1000000 1000000 eq_refl eq_refl eq_refl)
    as (verdict & w1 & Hrun & _ & Hbuffered & _).
  - lia.
  - exists verdict, w1. split; [exact Hrun|].
    rewrite (Hbuffered 110 eq_refl eq_refl); [|lia].
    vm_compute in Hrun. injection Hrun as _ <-. reflexivity.
Defined.

(** ** Reference prices, token metadata and fee parameters: the stores *)

Section StoreFacts.
Import PriceService.
Context {E : Type} (chain : Chain E) (K : Constants).

(** [updateBnbPrice] never throws and returns the reference rate that
    is stored when it ends.  Either the quote gave a price, which is stored
    with the time read after it, or the rate and its time are left as they
    were; nothing else of the services changes. *)
Lemma updateBnbPrice_all_or_nothing (w : World E) :
  exists p w',
    updateBnbPrice chain K w = (Ok p, w') /\
    p = bnbPrice w' /\
    priceCache w' = priceCache w /\ networkHealth w' = networkHealth w /\
    feeParameters w' = feeParameters w /\ tokenCache w' = tokenCache w /\
    ((bnbPrice w' = bnbPrice w /\ lastUpdated w' = lastUpdated w) \/
     (exists amounts a e1 now e2,
        getAmountsOut chain PancakeSwap (10 ^ 18)%N [WBNB K; BUSD K] (env w)
          = (Ok amounts, e1) /\
        amounts !! 1%nat = Some a /\
        dateNow chain e1 = (now, e2) /\
        bnbPrice w' = formatUnits chain a 18 /\ lastUpdated w' = now)).
Proof.
  unfold updateBnbPrice, tryCatch, bind, call, callTotal, modify, get, ret, throw.
  destruct (getAmountsOut chain PancakeSwap (10 ^ 18)%N [WBNB K; BUSD K] (env w))
    as [[amounts|msg] e1] eqn:Hquote; cbn [env setEnv].
  - destruct (amounts !! 1%nat) as [a|] eqn:Ha; cbn [env setEnv setBnbPrice].
    + destruct (dateNow chain e1) as [now e2] eqn:Hnow.
      eexists _, _. split; [reflexivity|]. cbn.
      repeat (split; [done|]). right. by exists amounts, a, e1, now, e2.
    + eexists _, _. split; [reflexivity|]. cbn.
      repeat (split; [done|]). by left.
  - eexists _, _. split; [reflexivity|]. cbn.
    repeat (split; [done|]). by left.
Qed.

Lemma refreshBnbPriceIfStale_keeps_cache (C : gmap string CacheEntry) :
  preserves (fun w : World E => priceCache w = C) (refreshBnbPriceIfStale chain K).
Proof.
  unfold refreshBnbPriceIfStale, updateBnbPrice. auto 15 with preserves.
Qed.

(** X14: a price obtained from a quote is served from the cache.  When the
    cache has no entry for a token before a call of [getTokenPriceUSD] and
    has one after it, that entry holds the price returned; and a second
    call, made less than five minutes after the time stamp of the entry,
    returns the same price and asks the routers nothing. *)
Theorem quoted_price_is_cached (t : string) (d : nat) (w w1 : World E) p c :
  priceCache w !! t = None ->
  getTokenPriceUSD chain K t d w = (Ok p, w1) ->
  priceCache w1 !! t = Some c ->
  price c = p /\
  forall later e,
    dateNow chain (env w1) = (later, e) ->
    later - timestamp c < 300000 ->
    getTokenPriceUSD chain K t d w1 = (Ok p, setEnv e w1).
Proof.
  intros Hmiss Hrun Hc.
  assert (Hprice : price c = p).
  { pose proof (cachedPrice_absent chain t w Hmiss) as Habsent.
    destruct (isStablecoin K t) eqn:Hs.
    { rewrite (getTokenPriceUSD_stable chain K t d w w Habsent Hs) in Hrun.
      injection Hrun as _ <-. congruence. }
    destruct (decide (t = WBNB K)) as [->|Hn].
    { destruct (refreshBnbPriceIfStale_returns chain K w) as ([] & w2 & Hr).
      rewrite (getTokenPriceUSD_native chain K d w w w2 Habsent Hs Hr) in Hrun.
      injection Hrun as _ <-.
      pose proof (refreshBnbPriceIfStale_keeps_cache (priceCache w) w (Ok tt) w2 Hr
                    eq_refl) as Hkeep.
      rewrite Hkeep in Hc. congruence. }
    destruct (getAmountsOut chain PancakeSwap (10 ^ N.of_nat d) [t; BUSD K] (env w))
      as [r1 e2] eqn:Hq1.
    assert (Hcase1 : (exists l a, r1 = Ok l /\ l !! 1%nat = Some a) \/ noQuote r1).
    { destruct r1 as [l|msg]; [|by right].
      destruct (l !! 1%nat) as [a|] eqn:Ha; [left; by exists l, a|by right]. }
    destruct Hcase1 as [(l & a & -> & Ha)|Hno1].
    { destruct (dateNow chain e2) as [now e3] eqn:Hnow.
      rewrite (getTokenPriceUSD_one_hop chain K t d w w l a e2 now e3
                 Habsent Hs Hn Hq1 Ha Hnow) in Hrun.
      injection Hrun as <- <-. cbn in Hc.
      rewrite lookup_insert_eq in Hc. by injection Hc as <-. }
    destruct (getAmountsOut chain PancakeSwap (10 ^ N.of_nat d) [t; WBNB K] e2)
      as [r2 e3] eqn:Hq2.
    assert (Hcase2 : (exists l b, r2 = Ok l /\ l !! 1%nat = Some b) \/ noQuote r2).
    { destruct r2 as [l|msg]; [|by right].
      destruct (l !! 1%nat) as [b|] eqn:Hb; [left; by exists l, b|by right]. }
    destruct Hcase2 as [(l & b & -> & Hb)|Hno2].
    { destruct (refreshBnbPriceIfStale_returns chain K (setEnv e3 w)) as ([] & w2 & Hr).
      destruct (dateNow chain (env w2)) as [now e4] eqn:Hnow.
      rewrite (getTokenPriceUSD_two_hop chain K t d w w w2 r1 e2 l b e3 now e4
                 Habsent Hs Hn Hq1 Hno1 Hq2 Hb Hr Hnow) in Hrun.
      injection Hrun as <- <-. cbn in Hc.
      rewrite lookup_insert_eq in Hc. by injection Hc as <-. }
    rewrite (getTokenPriceUSD_unpriced chain K t d w w r1 e2 r2 e3
               Habsent Hs Hn Hq1 Hno1 Hq2 Hno2) in Hrun.
    injection Hrun as _ <-. cbn in Hc. congruence. }
  split; [exact Hprice|].
  intros later e Hlater Hfresh. apply getTokenPriceUSD_hit.
  rewrite (cachedPrice_present chain t w1 c later e Hc Hlater).
  replace (later - timestamp c <? 300000) with true
    by (symmetry; apply Z.ltb_lt; lia).
  by rewrite Hprice.
Qed.

(** X15: token details that were read from the contract are served from the
    cache.  A call of [getTokenDetails] for a token with no entry either
    stores the details it returns, after which the same call returns them
    again and changes nothing, or returns the default of 18 decimals and the
    symbol UNKNOWN and stores nothing. *)
Theorem token_details_are_cached (t : string) (w w1 : World E) details :
  tokenCache w !! t = None ->
  TokenService.getTokenDetails chain t w = (Ok details, w1) ->
  (tokenCache w1 !! t = Some details /\
   TokenService.getTokenDetails chain t w1 = (Ok details, w1)) \/
  (details = mkTokenDetails t 18 "UNKNOWN" "Unknown Token" /\
   tokenCache w1 = tokenCache w).
Proof.
  intros Hmiss Hrun. unfold TokenService.getTokenDetails in Hrun.
  unfold get at 1 in Hrun. unfold bind at 1 in Hrun. rewrite Hmiss in Hrun.
  unfold tryCatch, bind, call, modify, ret in Hrun.
  destruct (tokenDecimals chain t (env w)) as [[decimals|msg] e1];
    cbn [env setEnv] in Hrun.
  - destruct (tokenSymbol chain t e1) as [[symbol|msg] e2]; cbn [env setEnv] in Hrun.
    + left.
      assert (Hstored : exists name e3,
                details = mkTokenDetails t decimals symbol name /\
                w1 = setTokenCache (<[t := details]> (tokenCache w)) (setEnv e3 w)).
      { destruct (tokenName chain t e2) as [[name|msg] e3];
          injection Hrun as <- <-; eexists _, _; done. }
      destruct Hstored as (name & e3 & -> & ->).
      assert (Hhit : tokenCache
                (setTokenCache
                   (<[t := mkTokenDetails t decimals symbol name]> (tokenCache w))
                   (setEnv e3 w)) !! t = Some (mkTokenDetails t decimals symbol name))
        by apply lookup_insert_eq.
      split; [exact Hhit|].
      unfold TokenService.getTokenDetails. unfold get at 1. unfold bind at 1.
      by rewrite Hhit.
    + right. by injection Hrun as <- <-.
  - right. by injection Hrun as <- <-.
Qed.

Import ProfitCalculator.

(** X16: [updateFeeParameters] never throws and replaces the four fee
    parameters together or not at all: when one of the four reads fails, the
    stored parameters are all left as they were. *)
Theorem updateFeeParameters_all_or_nothing (w : World E) :
  exists w',
    updateFeeParameters chain w = (Ok tt, w') /\
    bnbPrice w' = bnbPrice w /\ lastUpdated w' = lastUpdated w /\
    priceCache w' = priceCache w /\ networkHealth w' = networkHealth w /\
    tokenCache w' = tokenCache w /\
    (feeParameters w' = feeParameters w \/
     exists pn e1 pd e2 bn e3 bd e4,
       contractFee chain PancakeSwapFeeNumerator (env w) = (Ok pn, e1) /\
       contractFee chain PancakeSwapFeeDenominator e1 = (Ok pd, e2) /\
       contractFee chain BiswapFeeNumerator e2 = (Ok bn, e3) /\
       contractFee chain BiswapFeeDenominator e3 = (Ok bd, e4) /\
       feeParameters w' = mkFeeParameters pn pd bn bd).
Proof.
  unfold updateFeeParameters, tryCatch, bind, call, modify, ret.
  destruct (contractFee chain PancakeSwapFeeNumerator (env w)) as [[pn|msg] e1] eqn:H1;
    cbn [env setEnv];
    [|eexists; split; [reflexivity|]; cbn; repeat (split; [done|]); by left].
  destruct (contractFee chain PancakeSwapFeeDenominator e1) as [[pd|msg] e2] eqn:H2;
    cbn [env setEnv];
    [|eexists; split; [reflexivity|]; cbn; repeat (split; [done|]); by left].
  destruct (contractFee chain BiswapFeeNumerator e2) as [[bn|msg] e3] eqn:H3;
    cbn [env setEnv];
    [|eexists; split; [reflexivity|]; cbn; repeat (split; [done|]); by left].
  destruct (contractFee chain BiswapFeeDenominator e3) as [[bd|msg] e4] eqn:H4;
    cbn [env setEnv];
    [|eexists; split; [reflexivity|]; cbn; repeat (split; [done|]); by left].
  eexists. split; [reflexivity|]. cbn. repeat (split; [done|]).
  right. by exists pn, e1, pd, e2, bn, e3, bd, e4.
Qed.

(** X17: on a result of [calculateProfit], the accept flag alone decides
    [isProfitable]: the flag of an evaluated result is the comparison of
    its percentage with the threshold, which [isProfitable] repeats, and a
    rejected result is refused. *)
Theorem isProfitable_is_accept_flag data loan (fromPancake : bool) details
    (w w' : World E) r :
  calculateProfit chain K data loan fromPancake details w = (Ok r, w') ->
  isProfitable K r =
    match r with
    | Evaluated b => isProfit b
    | Rejected _ => false
    end /\
  forall b, r = Evaluated b ->
    isProfit b = (MIN_PROFIT_PERCENTAGE K <=? profitPercentage b)%float.
Proof.
  intros Hrun.
  assert (Hflag : forall b, r = Evaluated b ->
            isProfit b = (MIN_PROFIT_PERCENTAGE K <=? profitPercentage b)%float).
  { intros b ->.
    destruct (checkArbitrageProfitability chain data loan fromPancake (env w))
      as [[l|msg] e1] eqn:Hcall.
    - destruct (decide (length l = 3%nat)) as [Hlen|Hlen].
      + destruct l as [|p [|f [|u [|x l]]]]; try done. clear Hlen.
        destruct (getGasPrice_returns chain gasBuffer (setEnv e1 w)) as (g & w1 & Hg).
        destruct (convertToUSD_returns chain K u (address details) (decimals details) w1)
          as (pu & w2 & Hp).
        destruct (convertToUSD_returns chain K loan (address details) (decimals details) w2)
          as (lu & w3 & Hl).
        rewrite (calculateProfit_steps chain K _ _ _ _ _ _ _ _ _ _ _ _ _ _ _
                   Hcall Hg Hp Hl) in Hrun.
        destruct (_ =? _)%N; [done|]. by injection Hrun as <- _.
      + by rewrite (calculateProfit_bad_length chain K _ _ _ _ _ _ _ Hcall Hlen) in Hrun.
    - by rewrite (calculateProfit_oracle_throws chain K _ _ _ _ _ _ _ Hcall) in Hrun. }
  split; [|exact Hflag].
  destruct r as [b|msg]; [|done]. simpl.
  rewrite <- (Hflag b eq_refl). by destruct (isProfit b).
Qed.

End StoreFacts.

Section StoreExamples.
Import Scenario.

Lemma quoted_price_is_cached_witness :
  exists p w1,
    PriceService.getTokenPriceUSD thinChain constants "CAKE" 18 (pricedWorld defaultFees)
      = (Ok p, w1) /\
    PriceService.getTokenPriceUSD thinChain constants "CAKE" 18 w1 = (Ok p, w1).
Proof.
  destruct (PriceService.getTokenPriceUSD thinChain constants "CAKE" 18
              (pricedWorld defaultFees)) as [[p|msg] w1] eqn:Hrun;
    [|vm_compute in Hrun; discriminate].
  destruct (priceCache w1 !! "CAKE") as [c|] eqn:Hc.
  - destruct (quoted_price_is_cached thinChain constants "CAKE" 18
                (pricedWorld defaultFees) w1 p c eq_refl Hrun Hc) as [_ Hserve].
    exists p, w1. split; [reflexivity|].
    vm_compute in Hrun. injection Hrun as <- <-.
    vm_compute in Hc. injection Hc as <-.
    apply (Hserve 1000 1000); [reflexivity | vm_compute; reflexivity].
  - vm_compute in Hrun. injection Hrun as <- <-. vm_compute in Hc. discriminate.
Defined.

Lemma token_details_are_cached_witness :
  exists details w1,
    TokenService.getTokenDetails thinChain "CAKE" (pricedWorld defaultFees)
      = (Ok details, w1) /\
    TokenService.getTokenDetails thinChain "CAKE" w1 = (Ok details, w1).
Proof.
  destruct (TokenService.getTokenDetails thinChain "CAKE" (pricedWorld defaultFees))
    as [[details|msg] w1] eqn:Hrun; [|vm_compute in Hrun; discriminate].
  destruct (token_details_are_cached thinChain "CAKE" (pricedWorld defaultFees) w1
              details eq_refl Hrun) as [[_ Hagain]|[Hdefault _]].
  - exists details, w1. split; [reflexivity | exact Hagain].
  - vm_compute in Hrun. injection Hrun as <- _. discriminate.
Defined.

Lemma isProfitable_is_accept_flag_witness :
  exists r w',
    ProfitCalculator.calculateProfit richChain constants candidate loan1000 true busd
      (pricedWorld defaultFees) = (Ok r, w') /\
    ProfitCalculator.isProfitable constants r = true.
Proof.
  destruct (ProfitCalculator.calculateProfit richChain constants candidate loan1000 true
              busd (pricedWorld defaultFees)) as [[r|msg] w'] eqn:Hrun;
    [|vm_compute in Hrun; discriminate].
  destruct (isProfitable_is_accept_flag richChain constants candidate loan1000 true busd
              (pricedWorld defaultFees) w' r Hrun) as [Hflag _].
  exists r, w'. split; [reflexivity|].
  rewrite Hflag. vm_compute in Hrun. injection Hrun as <- _. reflexivity.
Defined.

End StoreExamples.

(** ** The order of the profit percentages *)

Section FloatOrderFacts.
Import FloatOrder.

Lemma SFltb_rankLt x y : SFltb x y = true <-> rankLt x y.
Proof.
  unfold SFltb, rankLt, lexLt.
  destruct x as [sx|sx| |sx mx ex], y as [sy|sy| |sy my ey]; simpl;
    try destruct sx; try destruct sy; simpl;
    try rewrite Pos.compare_cont_spec; simpl;
    try (destruct (Z.compare_spec ex ey); simpl);
    try (destruct (Pos.compare_spec mx my); simpl);
    (split; [intros Hlt; try discriminate Hlt; lia | intros Hlt; try reflexivity; lia]).
Qed.

Lemma SFleb_rankLe x y : SFleb x y = true <-> rankLe x y.
Proof.
  unfold SFleb, rankLe, lexLt.
  destruct x as [sx|sx| |sx mx ex], y as [sy|sy| |sy my ey]; simpl;
    try destruct sx; try destruct sy; simpl;
    try rewrite Pos.compare_cont_spec; simpl;
    try (destruct (Z.compare_spec ex ey); simpl);
    try (destruct (Pos.compare_spec mx my); simpl);
    (split; [intros Hle; try discriminate Hle; lia | intros Hle; try reflexivity; lia]).
Qed.

Lemma ltb_rankLt (x y : float) :
  (x <? y)%float = true <-> rankLt (Prim2SF x) (Prim2SF y).
Proof. rewrite FloatAxioms.ltb_spec. apply SFltb_rankLt. Qed.

Lemma leb_rankLe (x y : float) :
  (x <=? y)%float = true <-> rankLe (Prim2SF x) (Prim2SF y).
Proof. rewrite FloatAxioms.leb_spec. apply SFleb_rankLe. Qed.

(** A number that some number is below is not NaN. *)
Lemma leb_ranked (m x : float) :
  (m <=? x)%float = true -> exists a, rank (Prim2SF x) = Some a.
Proof.
  intros H. apply leb_rankLe in H. unfold rankLe in H.
  destruct (rank (Prim2SF m)); [|done].
  destruct (rank (Prim2SF x)) as [a|]; [by exists a|done].
Qed.

Lemma ltb_leb (x y : float) : (x <? y)%float = true -> (x <=? y)%float = true.
Proof.
  intros H. apply ltb_rankLt in H. apply leb_rankLe.
  unfold rankLt, rankLe, lexLt in *.
  destruct (rank (Prim2SF x)) as [[[a1 a2] a3]|]; [|done].
  destruct (rank (Prim2SF y)) as [[[b1 b2] b3]|]; [|done].
  simpl in *. lia.
Qed.

Lemma not_ltb_leb (x y : float) a b :
  rank (Prim2SF x) = Some a -> rank (Prim2SF y) = Some b ->
  (x <? y)%float = false -> (y <=? x)%float = true.
Proof.
  intros Hx Hy H. apply leb_rankLe. unfold rankLe. rewrite Hx, Hy.
  intros Hlt. apply not_true_iff_false in H. apply H.
  apply ltb_rankLt. unfold rankLt. by rewrite Hx, Hy.
Qed.

Lemma leb_trans (x y z : float) :
  (x <=? y)%float = true -> (y <=? z)%float = true -> (x <=? z)%float = true.
Proof.
  intros H1 H2. apply leb_rankLe in H1, H2. apply leb_rankLe.
  unfold rankLe, lexLt in *.
  destruct (rank (Prim2SF x)) as [[[a1 a2] a3]|]; [|done].
  destruct (rank (Prim2SF y)) as [[[b1 b2] b3]|]; [|done].
  destruct (rank (Prim2SF z)) as [[[c1 c2] c3]|]; [|done].
  simpl in *. lia.
Qed.

End FloatOrderFacts.

(** ** The scanner: the shape and the order of its results *)

Section ScanShape.
Import ProfitCalculator ArbitrageChecker FloatOrder.
Context {E : Type} (chain : Chain E) (K : Constants).

Lemma find_pred_ext {A} (f g : A -> bool) (l : list A) :
  (forall x, f x = g x) -> List.find f l = List.find g l.
Proof.
  intros Hfg. induction l as [|x l IH]; simpl; [done|].
  rewrite Hfg, IH. done.
Qed.

(** The flash-loan pair of two tokens does not depend on the order in
    which the two tokens are given. *)
Lemma findFlashLoanPair_symmetric (tokens : list (string * string))
    (pairs : list ((string * string) * string)) (a b : string) :
  findFlashLoanPair tokens pairs a b = findFlashLoanPair tokens pairs b a.
Proof.
  unfold findFlashLoanPair. f_equal. apply find_pred_ext.
  intros [[token1 token2] pairAddress]. simpl. apply orb_comm.
Qed.

(** X18: a rotation whose two first tokens have no flash-loan pair on the
    exchange of the direction chosen after the price gap, or have the empty
    string as pair, is given up right after the price gap: no loan amount is
    simulated or evaluated, and the state is the one the price gap query
    left. *)
Theorem rotation_without_pair_is_skipped pairConfig (a b c : string) (requested : bool)
    (w wA wB wC wG : World E) dA dB dC gap :
  TokenService.getTokenDetails chain a w = (Ok dA, wA) ->
  TokenService.getTokenDetails chain b wA = (Ok dB, wB) ->
  TokenService.getTokenDetails chain c wB = (Ok dC, wC) ->
  checkPriceGap chain a b c dA wC = (Ok gap, wG) ->
  let pairs :=
    if chooseDirection requested gap then pancakeswapPairs pairConfig
    else biswapPairs pairConfig in
  (findFlashLoanPair (tokens pairConfig) pairs a b = None \/
   findFlashLoanPair (tokens pairConfig) pairs a b = Some EmptyString) ->
  checkArbitrageLoop chain K pairConfig a b c requested w = (Ok None, wG).
Proof.
  intros HdA HdB HdC Hgap pairs Hpair. unfold checkArbitrageLoop, tryCatch.
  rewrite (bind_ok _ _ _ _ _ HdA), (bind_ok _ _ _ _ _ HdB), (bind_ok _ _ _ _ _ HdC).
  rewrite (bind_ok _ _ _ _ _ Hgap). cbv zeta. fold pairs.
  destruct Hpair as [->| ->]; [done|].
  by rewrite bool_decide_eq_true_2.
Qed.

(** The run of [checkArbitrageLoop] that returns an opportunity, step by
    step. *)
Ltac loop_inversion Hrun :=
  apply tryCatch_inv_some in Hrun;
  apply bind_inv in Hrun as (dA & wA & HdA & Hrun);
  apply bind_inv in Hrun as (dB & wB & HdB & Hrun);
  apply bind_inv in Hrun as (dC & wC & HdC & Hrun);
  apply bind_inv in Hrun as (gap & wG & Hgap & Hrun);
  cbv zeta in Hrun;
  destruct (findFlashLoanPair _ _ _ _) as [pair|] eqn:Hpair; [|done];
  destruct (bool_decide (pair = EmptyString)) eqn:Hempty; [done|];
  apply bind_inv in Hrun as (loans & wL & Hloans & Hrun);
  apply bind_inv in Hrun as (best & wS & Hsweep & Hrun);
  destruct (bestProfitResult best) as [profit|] eqn:Hbest; [|done];
  destruct (isProfitable _ profit) eqn:Hok; [|done];
  injection Hrun as <- _.

(** X19: the fields of an opportunity agree with one another.  Its three
    paths are the three hops of its rotation; the direction passed to the
    contract is the direction of the opportunity; the direction is the
    requested one, reversed exactly when the price gap is five percent or
    more, and the opportunity says so; and its flash-loan pair is not the
    empty string and is the pair configured for its two first tokens on the
    exchange of its own direction, not of the requested one. *)
Theorem opportunity_fields_agree pairConfig (a b c : string) (requested : bool)
    (w w' : World E) o :
  checkArbitrageLoop chain K pairConfig a b c requested w = (Ok (Some o), w') ->
  (ArbitrageChecker.pairConfig o = pairConfig /\
   tokenA o = a /\ tokenB o = b /\ tokenC o = c) /\
  (path1 (arbitrageData o) = [a; b] /\ path2 (arbitrageData o) = [b; c] /\
   path3 (arbitrageData o) = [c; a]) /\
  direction (arbitrageData o) = oppDirection o /\
  oppDirection o = xorb requested (directionReversed o) /\
  directionReversed o = (5 <=? priceGap o)%N /\
  flashLoanPair o <> EmptyString /\
  findFlashLoanPair (tokens pairConfig)
    (if oppDirection o then pancakeswapPairs pairConfig else biswapPairs pairConfig)
    a b = Some (flashLoanPair o).
Proof.
  intros Hrun. loop_inversion Hrun. cbn.
  split; [done|]. split; [done|]. split; [done|].
  split; [|split; [|split]].
  - unfold chooseDirection. by destruct (5 <=? gap)%N, requested.
  - unfold chooseDirection. by destruct (5 <=? gap)%N, requested.
  - by apply bool_decide_eq_false in Hempty.
  - done.
Qed.

Lemma checkArbitrageLoop_rotation pairConfig (a b c : string) (requested : bool)
    (w w' : World E) o :
  checkArbitrageLoop chain K pairConfig a b c requested w = (Ok (Some o), w') ->
  ArbitrageChecker.pairConfig o = pairConfig /\
  tokenA o = a /\ tokenB o = b /\ tokenC o = c.
Proof. intros Hrun. loop_inversion Hrun. done. Qed.

(** An opportunity found for a configured triple: its tokens are three
    consecutive tokens of the triple, counted cyclically. *)
Lemma rotations_shape pairConfig direction starts :
  forall (w w' : World E) opportunities,
    rotations chain K pairConfig direction starts w = (Ok opportunities, w') ->
    (length opportunities <= length starts)%nat /\
    Forall (fun o =>
              ArbitrageChecker.pairConfig o = pairConfig /\
              exists i, i ∈ starts /\
                tokenA o = tokenAt (tokens pairConfig) i /\
                tokenB o = tokenAt (tokens pairConfig) (i + 1) /\
                tokenC o = tokenAt (tokens pairConfig) (i + 2))
           opportunities.
Proof.
  induction starts as [|i rest IH]; intros w w' opportunities Hrun; simpl in Hrun.
  - injection Hrun as <- _. split; [done|constructor].
  - apply bind_inv in Hrun as (o & w1 & Hloop & Hrun).
    apply bind_inv in Hrun as (others & w2 & Hrest & Hrun).
    injection Hrun as <- _. apply IH in Hrest as [Hlen Hall].
    assert (Hall' : Forall (fun o =>
              ArbitrageChecker.pairConfig o = pairConfig /\
              exists j, j ∈ i :: rest /\
                tokenA o = tokenAt (tokens pairConfig) j /\
                tokenB o = tokenAt (tokens pairConfig) (j + 1) /\
                tokenC o = tokenAt (tokens pairConfig) (j + 2)) others).
    { eapply Forall_impl; [exact Hall|].
      intros x (Hp & j & Hj & Hx). split; [done|]. exists j.
      split; [|done]. apply elem_of_cons. by right. }
    destruct o as [o|]; simpl.
    + split; [lia|]. constructor; [|done].
      apply checkArbitrageLoop_rotation in Hloop as (Hp & Ha & Hb & Hc).
      split; [done|]. exists i. split; [|done]. apply elem_of_cons. by left.
    + split; [lia|done].
Qed.

(** X20: the scan finds at most one opportunity for each rotation of each
    configured triple in each of the two directions, and every opportunity
    it returns belongs to a scanned triple and runs through three
    consecutive tokens of it, counted cyclically. *)
Theorem scan_opportunities_are_rotations tokenPairs (w w' : World E) opportunities :
  checkArbitrageOpportunities chain K tokenPairs w = (Ok opportunities, w') ->
  (length opportunities
     <= 2 * sum_list ((fun p => length (tokens p)) <$> tokenPairs))%nat /\
  Forall (fun o =>
            ArbitrageChecker.pairConfig o ∈ tokenPairs /\
            exists i, (i < length (tokens (ArbitrageChecker.pairConfig o)))%nat /\
              tokenA o = tokenAt (tokens (ArbitrageChecker.pairConfig o)) i /\
              tokenB o = tokenAt (tokens (ArbitrageChecker.pairConfig o)) (i + 1) /\
              tokenC o = tokenAt (tokens (ArbitrageChecker.pairConfig o)) (i + 2))
         opportunities.
Proof.
  intros Hrun. unfold checkArbitrageOpportunities in Hrun.
  apply bind_inv in Hrun as (found & w1 & Hscan & Hrun).
  injection Hrun as <- _.
  rewrite sortByProfit_Permutation. clear w'.
  revert w w1 found Hscan.
  induction tokenPairs as [|pairConfig rest IH]; intros w w1 found Hscan;
    simpl in Hscan.
  - injection Hscan as <- _. split; [simpl; lia|constructor].
  - apply bind_inv in Hscan as (l1 & wa & H1 & Hscan).
    apply bind_inv in Hscan as (l2 & wb & H2 & Hscan).
    apply bind_inv in Hscan as (l3 & wc & H3 & Hscan).
    injection Hscan as <- _.
    apply rotations_shape in H1 as [Hlen1 Hall1].
    apply rotations_shape in H2 as [Hlen2 Hall2].
    apply IH in H3 as [Hlen3 Hall3].
    rewrite length_seq in Hlen1, Hlen2.
    split.
    + rewrite !length_app. cbn [fmap list_fmap sum_list sum_list_with].
      simpl in *. lia.
    + assert (Hhere : forall l,
        Forall (fun o =>
                  ArbitrageChecker.pairConfig o = pairConfig /\
                  exists i, i ∈ seq 0 (length (tokens pairConfig)) /\
                    tokenA o = tokenAt (tokens pairConfig) i /\
                    tokenB o = tokenAt (tokens pairConfig) (i + 1) /\
                    tokenC o = tokenAt (tokens pairConfig) (i + 2)) l ->
        Forall (fun o =>
                  ArbitrageChecker.pairConfig o ∈ pairConfig :: rest /\
                  exists i, (i < length (tokens (ArbitrageChecker.pairConfig o)))%nat /\
                    tokenA o = tokenAt (tokens (ArbitrageChecker.pairConfig o)) i /\
                    tokenB o = tokenAt (tokens (ArbitrageChecker.pairConfig o)) (i + 1) /\
                    tokenC o = tokenAt (tokens (ArbitrageChecker.pairConfig o)) (i + 2))
               l).
      { intros l Hl. eapply Forall_impl; [exact Hl|].
        intros x (-> & i & Hi & Hx). split; [apply elem_of_cons; by left|].
        exists i. split; [|done]. apply elem_of_seq in Hi. lia. }
      rewrite !Forall_app. split; [by apply Hhere|]. split; [by apply Hhere|].
      eapply Forall_impl; [exact Hall3|].
      intros x (Hp & Hx). split; [|done]. apply elem_of_cons. by right.
Qed.

(** An accepted opportunity has a profit percentage that is a number. *)
Lemma accepted_ranked o :
  accepted chain K o ->
  exists a, rank (Prim2SF (percentageOf (profitResult o))) = Some a.
Proof.
  intros [(b & -> & Hb) _]. simpl. by apply leb_ranked in Hb.
Qed.

Lemma insertByProfit_descending o l :
  Forall (fun x => exists a, rank (Prim2SF (percentageOf (profitResult x))) = Some a)
    (o :: l) ->
  descending l -> descending (insertByProfit o l).
Proof.
  induction l as [|o' rest IH]; intros Hranked Hsorted.
  - simpl. split; [constructor|done].
  - apply Forall_cons_1 in Hranked as [[ao Ho] Hranked].
    pose proof Hranked as Hranked'.
    apply Forall_cons_1 in Hranked' as [[ao' Ho'] Hrest].
    destruct Hsorted as [Hbelow Hsorted].
    simpl. destruct (_ <? _)%float eqn:Hlt.
    + split.
      * rewrite insertByProfit_Permutation. apply Forall_cons_2; [|done].
        by apply ltb_leb.
      * apply IH; [|done]. apply Forall_cons_2; [by exists ao|done].
    + split; [|by split].
      assert (Hoo' : (percentageOf (profitResult o') <=?
                      percentageOf (profitResult o))%float = true)
        by (by eapply not_ltb_leb).
      apply Forall_cons_2; [done|].
      eapply Forall_impl; [exact Hbelow|].
      intros x Hx. cbv beta in Hx. by eapply leb_trans.
Qed.

Lemma sortByProfit_descending l :
  Forall (fun x => exists a, rank (Prim2SF (percentageOf (profitResult x))) = Some a) l ->
  descending (sortByProfit l).
Proof.
  induction l as [|o l IH]; intros Hranked; simpl; [done|].
  apply Forall_cons_1 in Hranked as [Ho Hranked].
  apply insertByProfit_descending; [|by apply IH].
  apply Forall_cons_2; [done|]. by rewrite sortByProfit_Permutation.
Qed.

(** X21: the scan returns its opportunities in descending order of profit
    percentage: no opportunity of the list has a lower percentage than one
    that comes after it. *)
Theorem scan_results_descending tokenPairs (w w' : World E) opportunities :
  checkArbitrageOpportunities chain K tokenPairs w = (Ok opportunities, w') ->
  descending opportunities.
Proof.
  intros Hrun. unfold checkArbitrageOpportunities in Hrun.
  apply bind_inv in Hrun as (found & w1 & Hscan & Hrun).
  injection Hrun as <- _.
  apply sortByProfit_descending.
  eapply Forall_impl; [by eapply scanPairs_sound|].
  intros o Ho. by apply accepted_ranked.
Qed.

End ScanShape.

Section ScanShapeExamples.
Import ArbitrageChecker Scenario.

Lemma rotation_without_pair_is_skipped_witness :
  exists w',
    checkArbitrageLoop richChain constants Examples.lonelyTriple "BUSD" "USDT" "WBNB"
      false (pricedWorld defaultFees) = (Ok None, w').
Proof.
  eexists.
  eapply (rotation_without_pair_is_skipped richChain constants Examples.lonelyTriple
            "BUSD" "USDT" "WBNB" false (pricedWorld defaultFees)).
  - reflexivity.
  - reflexivity.
  - reflexivity.
  - reflexivity.
  - left. reflexivity.
Defined.

Lemma opportunity_fields_agree_witness :
  exists o w',
    checkArbitrageLoop richChain constants triple "BUSD" "USDT" "WBNB" true
      (pricedWorld defaultFees) = (Ok (Some o), w') /\
    flashLoanPair o = "0x7EFaEf62fDdCCa950418312c6C91Aef321375A00" /\
    path3 (arbitrageData o) = ["WBNB"; "BUSD"].
Proof.
  destruct (checkArbitrageLoop richChain constants triple "BUSD" "USDT" "WBNB" true
              (pricedWorld defaultFees)) as [[[o|]|msg] w'] eqn:Hrun;
    [|vm_compute in Hrun; discriminate|vm_compute in Hrun; discriminate].
  destruct (opportunity_fields_agree richChain constants triple "BUSD" "USDT" "WBNB"
              true (pricedWorld defaultFees) w' o Hrun)
    as (_ & (_ & _ & Hpath3) & _ & _ & _ & _ & _).
  exists o, w'. split; [reflexivity|]. split; [|exact Hpath3].
  vm_compute in Hrun. injection Hrun as <- _. reflexivity.
Defined.

Lemma scan_opportunities_are_rotations_witness :
  exists opportunities w',
    checkArbitrageOpportunities richChain constants [triple] (pricedWorld defaultFees)
      = (Ok opportunities, w') /\
    (length opportunities <= 6)%nat.
Proof.
  destruct (checkArbitrageOpportunities richChain constants [triple]
              (pricedWorld defaultFees)) as [[opportunities|msg] w'] eqn:Hrun;
    [|vm_compute in Hrun; discriminate].
  exists opportunities, w'. split; [reflexivity|].
  exact (proj1 (scan_opportunities_are_rotations richChain constants [triple]
                  (pricedWorld defaultFees) w' opportunities Hrun)).
Defined.

Lemma scan_results_descending_witness :
  exists opportunities w',
    checkArbitrageOpportunities richChain constants [triple] (pricedWorld defaultFees)
      = (Ok opportunities, w') /\
    descending opportunities.
Proof.
  destruct (checkArbitrageOpportunities richChain constants [triple]
              (pricedWorld defaultFees)) as [[opportunities|msg] w'] eqn:Hrun;
    [|vm_compute in Hrun; discriminate].
  exists opportunities, w'. split; [reflexivity|].
  exact (scan_results_descending richChain constants [triple]
           (pricedWorld defaultFees) w' opportunities Hrun).
Defined.

End ScanShapeExamples.

(** ** The connection service *)

Section ProviderServiceFacts.
Import ProviderService.
Context {E : Type} (network : Network E).
Context (BSC_RPC_URL : string) (BACKUP_RPC_URLS : list string).

Lemma connect_eq (target : Target) (s : t * E) :
  connect network target s =
    ((getNetwork network target s.2).1,
     (setProvider (Some target) s.1, (getNetwork network target s.2).2)).
Proof.
  unfold connect, update, bind, modify, ask. simpl.
  by destruct (getNetwork network target s.2) as [[[]|msg] e'].
Qed.

(** The loop over the backup URLs: it answers with the first backup that
    connects, and when none connects it throws and leaves the provider of
    the last backup in the field. *)
Lemma tryBackups_outcome (backupUrls : list string) :
  forall s : t * E,
    match tryBackups network backupUrls s with
    | (Ok target, s') =>
        provider s'.1 = Some target /\ target ∈ Url <$> backupUrls /\
        failedAttempts s'.1 = failedAttempts s.1 /\
        exists e, (getNetwork network target e).1 = Ok tt
    | (Throw msg, s') =>
        msg = "Could not connect to any RPC node" /\
        provider s'.1 =
          match last backupUrls with
          | Some url => Some (Url url)
          | None => provider s.1
          end /\
        failedAttempts s'.1 = failedAttempts s.1
    end.
Proof.
  induction backupUrls as [|backupUrl rest IH]; intros s.
  - done.
  - cbn [tryBackups]. unfold tryCatch, bind at 1. rewrite connect_eq.
    destruct (getNetwork network (Url backupUrl) s.2) as [[[]|msg] e'] eqn:Hnet;
      cbn [fst snd].
    + unfold ret. cbn [fst snd setProvider provider failedAttempts].
      split; [done|]. split; [apply elem_of_cons; by left|]. split; [done|].
      exists s.2. by rewrite Hnet.
    + specialize (IH (setProvider (Some (Url backupUrl)) s.1, e')).
      destruct (tryBackups network rest _) as [[target|msg'] s'].
      * destruct IH as (Hp & Hin & Hf & He). split; [done|].
        split; [apply elem_of_cons; by right|]. split; [done|done].
      * destruct IH as (Hm & Hp & Hf). split; [done|]. split; [|done].
        rewrite Hp. destruct rest as [|url rest']; [done|].
        rewrite last_cons_cons.
        destruct (last (url :: rest')) eqn:Hlast; [done|].
        by apply last_None in Hlast.
Qed.

(** X22: [initialize()] answers with an endpoint, the primary one or a
    backup, that answered the network request, and stores its provider.
    When no endpoint answers it throws, but the field then holds the
    provider of the last endpoint tried, so that [getProvider()] called
    afterwards returns that provider without any request. *)
Theorem initialize_outcome (s : t * E) :
  match initialize network BSC_RPC_URL BACKUP_RPC_URLS s with
  | (Ok target, s') =>
      provider s'.1 = Some target /\
      target ∈ Url <$> (BSC_RPC_URL :: BACKUP_RPC_URLS) /\
      failedAttempts s'.1 = failedAttempts s.1 /\
      exists e, (getNetwork network target e).1 = Ok tt
  | (Throw msg, s') =>
      msg = "Could not connect to any RPC node" /\
      provider s'.1 = Some (Url (List.last BACKUP_RPC_URLS BSC_RPC_URL)) /\
      getProvider network BSC_RPC_URL BACKUP_RPC_URLS s'
        = (Ok (Url (List.last BACKUP_RPC_URLS BSC_RPC_URL)), s')
  end.
Proof.
  unfold initialize, tryCatch, bind at 1. rewrite connect_eq.
  destruct (getNetwork network (Url BSC_RPC_URL) s.2) as [[[]|msg] e'] eqn:Hnet;
    cbn [fst snd].
  - unfold ret. cbn [fst snd setProvider provider failedAttempts].
    split; [done|]. split; [apply elem_of_cons; by left|]. split; [done|].
    exists s.2. by rewrite Hnet.
  - pose proof (tryBackups_outcome BACKUP_RPC_URLS
                  (setProvider (Some (Url BSC_RPC_URL)) s.1, e')) as Hloop.
    destruct (tryBackups network BACKUP_RPC_URLS _) as [[target|msg'] s'].
    + destruct Hloop as (Hp & Hin & Hf & He). split; [done|].
      split; [apply elem_of_cons; by right|]. split; [done|done].
    + destruct Hloop as (Hm & Hp & Hf). split; [done|].
      assert (Hlast : provider s'.1
                      = Some (Url (List.last BACKUP_RPC_URLS BSC_RPC_URL))).
      { rewrite Hp. cbn [fst provider setProvider].
        clear. induction BACKUP_RPC_URLS as [|u [|u' rest] IH]; [done|done|].
        rewrite last_cons_cons. exact IH. }
      split; [exact Hlast|].
      unfold getProvider, get, bind. by rewrite Hlast.
Qed.

(** X23: the endpoint that [reconnect()] tries is fixed by the count of
    failed attempts: the primary endpoint for the first three attempts in a
    row, then the backups in turn, over and over.  The call stores the
    provider of that endpoint whether it answers or not; it resets the count
    when the endpoint answers and keeps the incremented count when it does
    not; and it never throws. *)
Theorem reconnect_schedule (s : t * E) :
  let attempt := (failedAttempts s.1 + 1)%nat in
  let target := reconnectTarget BSC_RPC_URL BACKUP_RPC_URLS attempt in
  reconnect network BSC_RPC_URL BACKUP_RPC_URLS s =
    match getNetwork network target s.2 with
    | (Ok _, e') => (Ok true, (mk (Some target) 0, e'))
    | (Throw _, e') => (Ok false, (mk (Some target) attempt, e'))
    end /\
  ((attempt <= 3)%nat -> target = Url BSC_RPC_URL) /\
  (forall j url, BACKUP_RPC_URLS !! j = Some url ->
     forall round,
       reconnectTarget BSC_RPC_URL BACKUP_RPC_URLS
         (4 + j + round * length BACKUP_RPC_URLS) = Url url).
Proof.
  intros attempt target. split; [|split].
  - unfold reconnect, update, tryCatch, bind at 1, modify. cbn [fst snd].
    unfold bind at 1, get. unfold bind at 1. rewrite connect_eq.
    cbn [fst snd failedAttempts setFailedAttempts setProvider provider].
    fold attempt. fold target.
    destruct (getNetwork network target s.2) as [[[]|msg] e']; done.
  - intros Hfew. subst target. unfold reconnectTarget.
    by replace (attempt <=? 3)%nat with true by (symmetry; apply Nat.leb_le; lia).
  - intros j url Hj round. unfold reconnectTarget.
    replace (4 + j + round * length BACKUP_RPC_URLS <=? 3)%nat with false
      by (symmetry; apply Nat.leb_gt; lia).
    replace (4 + j + round * length BACKUP_RPC_URLS - 4)%nat
      with (j + round * length BACKUP_RPC_URLS)%nat by lia.
    rewrite Nat.Div0.mod_add.
    rewrite Nat.mod_small by (by apply lookup_lt_Some in Hj).
    by rewrite Hj.
Qed.

End ProviderServiceFacts.

Lemma reconnect_schedule_witness :
  ProviderService.reconnectTarget "https://bsc-dataseed.binance.org/"
    ["https://bsc-dataseed1.defibit.io/"; "https://bsc-dataseed1.ninicoin.io/"] 7
  = ProviderService.Url "https://bsc-dataseed1.ninicoin.io/".
Proof.
  destruct (reconnect_schedule Examples.deafNetwork "https://bsc-dataseed.binance.org/"
              ["https://bsc-dataseed1.defibit.io/"; "https://bsc-dataseed1.ninicoin.io/"]
              (ProviderService.created, tt)) as (_ & _ & Hturn).
  exact (Hturn 1%nat "https://bsc-dataseed1.ninicoin.io/" eq_refl 1%nat).
Defined.

(** ** The BiSwap pair table and the two schedules *)

Section ConfigurationFacts.
Import Pairs.

(** X24: [findBiswapPairAddress] does not depend on the order of the two
    symbols, and an address it returns is the address of an entry of the
    table that names the two symbols, whether the entry is enabled or
    not. *)
Theorem findBiswapPairAddress_symmetric (a b : string) :
  findBiswapPairAddress a b = findBiswapPairAddress b a /\
  forall pairAddress, findBiswapPairAddress a b = Some pairAddress ->
    exists p, p ∈ BISWAP_PAIRS /\ Pairs.pairAddress p = pairAddress /\
      ((symbolA p = a /\ symbolB p = b) \/ (symbolA p = b /\ symbolB p = a)).
Proof.
  split.
  - unfold findBiswapPairAddress, findPairAddress. f_equal.
    apply find_pred_ext. intros p. apply orb_comm.
  - intros pairAddress Hfound. unfold findBiswapPairAddress, findPairAddress in Hfound.
    destruct (List.find _ BISWAP_PAIRS) as [p|] eqn:Hfind; [|done].
    injection Hfound as <-. apply find_some in Hfind as [Hin Hp].
    exists p. split; [by apply list_elem_of_In|]. split; [done|].
    apply orb_true_iff in Hp as [Hp|Hp]; apply andb_true_iff in Hp as [H1 H2];
      apply bool_decide_eq_true in H1, H2; auto.
Qed.

Lemma findBiswapPairAddress_symmetric_witness :
  findBiswapPairAddress "BUSD" "WBNB"
    = Some "0xaCAac9311b0096E04Dfe96b6D87dec867d3883Dc".
Proof.
  destruct (findBiswapPairAddress_symmetric "BUSD" "WBNB") as [Hsym _].
  rewrite Hsym. reflexivity.
Defined.

End ConfigurationFacts.

(** ** The statistics and the executor *)

Section ExecutorFacts.
Import ProfitCalculator ArbitrageChecker FileManager ArbitrageExecutor.
Context {E : Type} (chain : Chain E) (K : Constants).
Context (contract : Contract E) (disk : Disk E).

Lemma tradesByPair_recordTrade pairName profitUSD gasCostUSD (success : bool) p :
  tradesByPair (recordTrade pairName profitUSD gasCostUSD success p) =
    (tradesByPair p + if success then 1 else 0)%N.
Proof.
  unfold recordTrade, tradesByPair. destruct success; cbn [profitByPair]; [|lia].
  destruct (profitByPair p !! pairName) as [entry|] eqn:Hentry; cbn [default trades].
  - rewrite <- insert_delete_eq.
    rewrite map_fold_insert_L; [|intros; lia|apply lookup_delete_eq].
    rewrite (map_fold_delete_L _ _ pairName entry (profitByPair p)); [|intros; lia|done].
    unfold id. cbn [trades]. lia.
  - rewrite map_fold_insert_L; [unfold id; cbn [trades]; lia|intros; lia|done].
Qed.

Lemma savePerformanceStats_eq (s : FileManager.t * E) :
  exists date e',
    savePerformanceStats disk s =
      (Ok tt,
       (setPerformanceStats
          (let p := performanceStats s.1 in
           mkPerformanceStats (totalProfit p) (totalFees p) (successfulTrades p)
             (failedTrades p) (startDate p) date (profitByPair p)) s.1,
        e')).
Proof.
  unfold savePerformanceStats, tryCatch.
  destruct (toISOString disk s.2) as [date e].
  destruct (writeStatsFile disk _ e) as [[[]|msg] e'] eqn:Hwrite;
    exists date, e'; done.
Qed.

(** X26: [updatePerformanceStats] never throws, even when the file cannot
    be written, and counts every trade once: a success adds one to the
    successful trades and to the trades of its pair, a failure adds one to
    the failed trades and leaves the profits as they were.  Statistics in
    which the trades of the pairs add up to the successful trades, as in
    those the constructor builds, stay so. *)
Theorem updatePerformanceStats_counts pairName profitUSD gasCostUSD (success : bool)
    (s : FileManager.t * E) :
  exists s',
    updatePerformanceStats disk pairName profitUSD gasCostUSD success s = (Ok tt, s') /\
    executionHistory s'.1 = executionHistory s.1 /\
    let p := performanceStats s.1 in
    let p' := performanceStats s'.1 in
    successfulTrades p' = (successfulTrades p + if success then 1 else 0)%N /\
    failedTrades p' = (failedTrades p + if success then 0 else 1)%N /\
    tradesByPair p' = (tradesByPair p + if success then 1 else 0)%N /\
    (success = false ->
       totalProfit p' = totalProfit p /\ profitByPair p' = profitByPair p) /\
    (tradesByPair p = successfulTrades p -> tradesByPair p' = successfulTrades p') /\
    forall date, tradesByPair (initialStats date) = successfulTrades (initialStats date).
Proof.
  unfold updatePerformanceStats, bind at 1, modify.
  destruct (savePerformanceStats_eq
              (setPerformanceStats
                 (recordTrade pairName profitUSD gasCostUSD success (performanceStats s.1))
                 s.1, s.2)) as (date & e' & ->).
  eexists. split; [reflexivity|]. cbn [fst snd]. split; [done|].
  cbn [performanceStats setPerformanceStats].
  pose proof (tradesByPair_recordTrade pairName profitUSD gasCostUSD success
                (performanceStats s.1)) as Htrades.
  unfold tradesByPair in *. cbn [profitByPair successfulTrades failedTrades totalProfit].
  unfold recordTrade in *. destruct success;
    cbn [profitByPair successfulTrades failedTrades totalProfit] in *.
  - split; [done|]. split; [lia|]. split; [done|]. split; [done|].
    split; [lia|done].
  - split; [lia|]. split; [done|]. split; [done|]. split; [done|].
    split; [lia|done].
Qed.

Lemma inWorld_eq {A} (m : M (World E) A) (s : Runtime E) :
  inWorld m s = ((m (services s)).1, mkRuntime (m (services s)).2 (fileManager s)).
Proof. unfold inWorld. by destruct (m (services s)). Qed.

Lemma inFiles_eq {A} (m : M (FileManager.t * E) A) (s : Runtime E) :
  inFiles m s =
    ((m (fileManager s, env (services s))).1,
     mkRuntime (setEnv (m (fileManager s, env (services s))).2.2 (services s))
       (m (fileManager s, env (services s))).2.1).
Proof. unfold inFiles. by destruct (m (fileManager s, env (services s))). Qed.

Lemma addExecutionRecord_eq record (s : FileManager.t * E) :
  exists e',
    addExecutionRecord disk record s =
      (Ok tt, (setExecutionHistory (executionHistory s.1 ++ [record]) s.1, e')).
Proof.
  unfold addExecutionRecord, bind, modify, saveExecutionHistory, tryCatch. cbn [fst snd].
  destruct (writeHistoryFile disk _ s.2) as [[[]|msg] e']; exists e'; done.
Qed.

Lemma convertWBNBtoBNB_returns : returns (convertWBNBtoBNB contract).
Proof. unfold convertWBNBtoBNB. auto with returns. Qed.

(** The end of the [try] block: one record is appended and one trade is
    counted, and the value returned is the status of the receipt unless a
    log line throws on a missing field of the profit result. *)
Lemma recordExecution_outcome o gasPrice receipt (s : Runtime E) :
  exists r s' record,
    recordExecution contract disk o gasPrice receipt s = (r, s') /\
    executionHistory (fileManager s') = executionHistory (fileManager s) ++ [record] /\
    succeeded record = (status receipt =? 1) /\
    (let p := performanceStats (fileManager s) in
     let p' := performanceStats (fileManager s') in
     successfulTrades p' = (successfulTrades p + if (status receipt =? 1)%Z then 1 else 0)%N /\
     failedTrades p' = (failedTrades p + if (status receipt =? 1)%Z then 0 else 1)%N /\
     (tradesByPair p = successfulTrades p -> tradesByPair p' = successfulTrades p')) /\
    (r = Ok (status receipt =? 1) \/ exists msg, r = Throw msg) /\
    (forall b, profitResult o = Evaluated b -> r = Ok (status receipt =? 1)).
Proof.
  unfold recordExecution. cbv zeta.
  unfold bind at 1. rewrite inWorld_eq. unfold callTotal at 1 2.
  destruct (toISOString disk (env (services s))) as [timestamp e1]. cbn [fst snd].
  set (record := mkExecutionRecord timestamp _ _ _ _ _ _ _ _ _).
  unfold bind at 1. rewrite inFiles_eq. cbn [fileManager services env setEnv].
  destruct (addExecutionRecord_eq record (fileManager s, e1)) as (e2 & ->).
  cbn [fst snd].
  unfold bind at 1. rewrite inFiles_eq. cbn [fileManager services env setEnv].
  destruct (updatePerformanceStats_counts (symbol (tokenADetails o))
              (field ProfitCalculator.profitUSD (profitResult o))
              (field ProfitCalculator.gasCostUSD (profitResult o))
              (status receipt =? 1)
              (setExecutionHistory (executionHistory (fileManager s) ++ [record])
                 (fileManager s), e2))
    as (s3 & -> & Hhistory & Hsucc & Hfail & _ & _ & Hsum & _).
  cbn [fst snd] in *. cbn [performanceStats setExecutionHistory] in Hsucc, Hfail, Hsum.
  set (s3' := mkRuntime _ s3.1).
  assert (Hdone : forall r (s' : Runtime E),
    (fileManager s' = s3.1) ->
    (r = Ok (status receipt =? 1) \/ exists msg, r = Throw msg) ->
    (forall b, profitResult o = Evaluated b -> r = Ok (status receipt =? 1)) ->
    exists r0 s0 record0,
      (r, s') = (r0, s0) /\
      executionHistory (fileManager s0) = executionHistory (fileManager s) ++ [record0] /\
      succeeded record0 = (status receipt =? 1) /\
      (let p := performanceStats (fileManager s) in
       let p' := performanceStats (fileManager s0) in
       successfulTrades p' = (successfulTrades p + if (status receipt =? 1)%Z then 1 else 0)%N /\
       failedTrades p' = (failedTrades p + if (status receipt =? 1)%Z then 0 else 1)%N /\
       (tradesByPair p = successfulTrades p -> tradesByPair p' = successfulTrades p')) /\
      (r0 = Ok (status receipt =? 1) \/ exists msg, r0 = Throw msg) /\
      (forall b, profitResult o = Evaluated b -> r0 = Ok (status receipt =? 1))).
  { intros r s' Hfiles Hr Hev. exists r, s', record. split; [done|].
    rewrite Hfiles. split; [by rewrite Hhistory|]. split; [done|].
    split; [|by split]. cbv zeta. split; [done|]. split; [done|done]. }
  assert (Hlog : exists r (s4 : Runtime E),
    (if status receipt =? 1 then
       toFixed (field ProfitCalculator.profitUSD (profitResult o)) ;;;
       if bool_decide (symbol (tokenADetails o) = "WBNB") then
         inWorld (convertWBNBtoBNB contract) ;;; ret tt
       else ret tt
     else ret tt) s3' = (r, s4) /\
    fileManager s4 = s3.1 /\
    (forall b, profitResult o = Evaluated b -> r = Ok tt)).
  { destruct (status receipt =? 1); [|by eexists _, _].
    destruct (profitResult o) as [b|msg]; cbn [field toFixed]; [|by eexists _, _].
    unfold bind at 1, ret at 1.
    destruct (bool_decide (symbol (tokenADetails o) = "WBNB")); [|by eexists _, _].
    unfold bind. rewrite inWorld_eq.
    destruct (convertWBNBtoBNB_returns (services s3')) as (converted & w4 & ->).
    by eexists _, _. }
  destruct Hlog as (r & s4 & Hlog & Hfiles & Hev).
  unfold bind at 1. rewrite Hlog.
  destruct r as [[]|msg].
  - destruct (profitResult o) as [b|msg] eqn:Hprofit; cbn [field toFixed].
    + apply Hdone; [done|by left|done].
    + apply Hdone; [done|right; by eexists|done].
  - apply Hdone; [done|right; by eexists|].
    intros b Hb. by specialize (Hev b Hb).
Qed.

Lemma tryCatch_bind_eq {S A B} (m : M S A) (k : A -> M S B) h (s : S) :
  tryCatch (bind m k) h s =
    match m s with
    | (Ok a, s1) => tryCatch (k a) h s1
    | (Throw e, s1) => h e s1
    end.
Proof. unfold tryCatch, bind. by destruct (m s) as [[a|msg] s1]. Qed.

(** The part of the [try] block that follows the authorisation: the test
    of the pause flag, the gas price, the transaction and its record. *)
Lemma execution_from_pause o (s0 s : Runtime E) :
  fileManager s = fileManager s0 ->
  exists b s',
    tryCatch
      (let* isPaused := inWorld (isContractPaused contract) in
       if isPaused then ret false
       else
         let* gasPrice := inWorld (NetworkService.getGasPrice chain gasBuffer) in
         let* receipt :=
           inWorld (call (executeFlashLoan contract (flashLoanPair o) (loanAmount o)
                            (arbitrageData o) (oppDirection o) (GAS_LIMIT K) gasPrice)) in
         recordExecution contract disk o gasPrice receipt)
      (fun _ => ret false) s = (Ok b, s') /\
    ((b = false /\ fileManager s' = fileManager s0) \/
     recorded o (fileManager s0) (fileManager s') b).
Proof.
  intros Hfiles. unfold tryCatch.
  unfold bind at 1. rewrite inWorld_eq; cbn [services fileManager].
  destruct (isContractPaused contract (services s)) as [[isPaused|msg] w1];
    cbn [fst snd]; [|eexists _, _; split; [reflexivity|by left]].
  destruct isPaused; [eexists _, _; split; [reflexivity|by left]|].
  unfold bind at 1. rewrite inWorld_eq; cbn [services fileManager].
  destruct (NetworkService.getGasPrice chain gasBuffer w1) as [[gasPrice|msg] w2];
    cbn [fst snd]; [|eexists _, _; split; [reflexivity|by left]].
  unfold bind at 1. rewrite inWorld_eq; cbn [services fileManager].
  destruct (call (executeFlashLoan contract (flashLoanPair o) (loanAmount o)
                    (arbitrageData o) (oppDirection o) (GAS_LIMIT K) gasPrice) w2)
    as [[receipt|msg] w3]; cbn [fst snd];
    [|eexists _, _; split; [reflexivity|by left]].
  destruct (recordExecution_outcome o gasPrice receipt (mkRuntime w3 (fileManager s)))
    as (r & s' & record & -> & Hhistory & Hstatus & (Hsucc & Hfail & Hsum) & Hr & Hev).
  cbn [fileManager] in *. rewrite Hfiles in *.
  assert (Hrecorded : forall b,
    (b = true -> r = Ok true) ->
    (forall bd, profitResult o = Evaluated bd -> r = Ok b) ->
    recorded o (fileManager s0) (fileManager s') b).
  { intros b Htrue Hevaluated. exists record. split; [done|].
    rewrite Hstatus. split.
    - intros Hb. specialize (Htrue Hb). destruct Hr as [Hr|[msg Hr]]; congruence.
    - split.
      + intros bd Hbd. specialize (Hev bd Hbd). specialize (Hevaluated bd Hbd).
        congruence.
      + done. }
  destruct r as [b|msg].
  - exists b, s'. split; [done|]. right. apply Hrecorded; [congruence|done].
  - exists false, s'. split; [done|]. right. apply Hrecorded; [done|].
    intros bd Hbd. by specialize (Hev bd Hbd).
Qed.

(** X27: [executeArbitrage] never throws.  Either it returns [false] and
    leaves the history and the statistics as they were, or a transaction was
    mined and the file manager holds one more record and one more trade; it
    returns [true] only when the status of that record is a success. *)
Theorem executeArbitrage_outcome (o : Opportunity) (s : Runtime E) :
  exists b s',
    executeArbitrage chain K contract disk o s = (Ok b, s') /\
    ((b = false /\ fileManager s' = fileManager s) \/
     recorded o (fileManager s) (fileManager s') b).
Proof.
  unfold executeArbitrage. cbv zeta.
  destruct (bool_decide (flashLoanPair o = EmptyString)
            || negb (isAddress contract (flashLoanPair o))) eqn:Hpair;
    [unfold tryCatch, ret; eexists _, _; split; [reflexivity|by left]|].
  destruct (loanAmount o =? 0)%N eqn:Hloan;
    [unfold tryCatch, ret; eexists _, _; split; [reflexivity|by left]|].
  destruct (negb (pathValid contract (path1 (arbitrageData o)))
            || negb (pathValid contract (path2 (arbitrageData o)))
            || negb (pathValid contract (path3 (arbitrageData o)))) eqn:Hpaths;
    [unfold tryCatch, ret; eexists _, _; split; [reflexivity|by left]|].
  rewrite tryCatch_bind_eq. rewrite inWorld_eq; cbn [services fileManager].
  destruct (isPairAuthorized contract (flashLoanPair o) (oppDirection o) (services s))
    as [[isAuthorized|msg] w1]; cbn [fst snd];
    [|eexists _, _; split; [reflexivity|by left]].
  rewrite tryCatch_bind_eq. destruct isAuthorized.
  - unfold ret at 1. cbn [negb].
    by apply (execution_from_pause o s (mkRuntime w1 (fileManager s))).
  - rewrite inWorld_eq; cbn [services fileManager].
    destruct (authorizePair contract (flashLoanPair o) (oppDirection o) w1)
      as [[authSuccess|msg] w2]; cbn [fst snd];
      [|eexists _, _; split; [reflexivity|by left]].
    destruct authSuccess; cbn [negb].
    + by apply (execution_from_pause o s (mkRuntime w2 (fileManager s))).
    + unfold tryCatch, ret. eexists _, _. split; [reflexivity|by left].
Qed.

Lemma tryCatch_bind_cong {S A B} (m : M S A) (k1 k2 : A -> M S B) h (s : S) :
  (forall a s1, m s = (Ok a, s1) -> tryCatch (k1 a) h s1 = tryCatch (k2 a) h s1) ->
  tryCatch (bind m k1) h s = tryCatch (bind m k2) h s.
Proof.
  intros Hk. unfold tryCatch, bind in *.
  destruct (m s) as [[a|msg] s1]; [|done]. by apply Hk.
Qed.

(** X28: a paused contract blocks the execution.  When the contract
    answers that it is paused, or does not answer the question, at every
    request, [executeArbitrage] returns [false], leaves the history and the
    statistics as they were and does not reach the flash-arbitrage entry
    point: the run is the same whatever that entry point would do. *)
Theorem paused_contract_blocks_execution (o : Opportunity) (s : Runtime E) f :
  (forall e, exists e',
     paused contract e = (Ok true, e') \/ exists msg, paused contract e = (Throw msg, e')) ->
  exists s',
    executeArbitrage chain K contract disk o s = (Ok false, s') /\
    fileManager s' = fileManager s /\
    executeArbitrage chain K (withExecuteFlashLoan f contract) disk o s = (Ok false, s').
Proof.
  intros Hpaused.
  assert (Hflag : forall w, exists w', isContractPaused contract w = (Ok true, w')).
  { intros w. unfold isContractPaused, tryCatch, call.
    destruct (Hpaused (env w)) as (e' & [-> | [msg ->]]); by eexists. }
  assert (Hsame : executeArbitrage chain K (withExecuteFlashLoan f contract) disk o s =
                  executeArbitrage chain K contract disk o s).
  { unfold executeArbitrage. cbv zeta.
    change (isAddress (withExecuteFlashLoan f contract)) with (isAddress contract).
    change (pathValid (withExecuteFlashLoan f contract)) with (pathValid contract).
    change (isPairAuthorized (withExecuteFlashLoan f contract))
      with (isPairAuthorized contract).
    change (authorizePair (withExecuteFlashLoan f contract)) with (authorizePair contract).
    change (isContractPaused (withExecuteFlashLoan f contract))
      with (isContractPaused contract).
    destruct (bool_decide (flashLoanPair o = EmptyString)
              || negb (isAddress contract (flashLoanPair o))); [done|].
    destruct (loanAmount o =? 0)%N; [done|].
    destruct (negb (pathValid contract (path1 (arbitrageData o)))
              || negb (pathValid contract (path2 (arbitrageData o)))
              || negb (pathValid contract (path3 (arbitrageData o)))); [done|].
    apply tryCatch_bind_cong. intros isAuthorized s1 _.
    apply tryCatch_bind_cong. intros authSuccess s2 _.
    destruct (negb authSuccess); [done|].
    unfold tryCatch, bind. rewrite inWorld_eq.
    destruct (Hflag (services s2)) as (w' & ->). done. }
  rewrite Hsame.
  assert (Hmain : exists s',
            executeArbitrage chain K contract disk o s = (Ok false, s') /\
            fileManager s' = fileManager s).
  { unfold executeArbitrage. cbv zeta.
    assert (Hblocked : forall s2 : Runtime E, fileManager s2 = fileManager s ->
      exists s',
        tryCatch
          (let* isPaused := inWorld (isContractPaused contract) in
           if isPaused then ret false
           else
             let* gasPrice := inWorld (NetworkService.getGasPrice chain gasBuffer) in
             let* receipt :=
               inWorld (call (executeFlashLoan contract (flashLoanPair o) (loanAmount o)
                                (arbitrageData o) (oppDirection o) (GAS_LIMIT K)
                                gasPrice)) in
             recordExecution contract disk o gasPrice receipt)
          (fun _ => ret false) s2 = (Ok false, s') /\
        fileManager s' = fileManager s).
    { intros s2 Hs2. rewrite tryCatch_bind_eq, inWorld_eq.
      destruct (Hflag (services s2)) as (w' & ->). cbn [fst snd].
      eexists. split; [reflexivity|done]. }
    destruct (bool_decide (flashLoanPair o = EmptyString)
              || negb (isAddress contract (flashLoanPair o)));
      [eexists; split; [reflexivity|done]|].
    destruct (loanAmount o =? 0)%N; [eexists; split; [reflexivity|done]|].
    destruct (negb (pathValid contract (path1 (arbitrageData o)))
              || negb (pathValid contract (path2 (arbitrageData o)))
              || negb (pathValid contract (path3 (arbitrageData o))));
      [eexists; split; [reflexivity|done]|].
    rewrite tryCatch_bind_eq. rewrite inWorld_eq; cbn [services fileManager].
    destruct (isPairAuthorized contract (flashLoanPair o) (oppDirection o) (services s))
      as [[isAuthorized|msg] w1]; cbn [fst snd];
      [|eexists; split; [reflexivity|done]].
    rewrite tryCatch_bind_eq. destruct isAuthorized.
    - unfold ret at 1. cbn [negb]. by apply Hblocked.
    - rewrite inWorld_eq; cbn [services fileManager].
      destruct (authorizePair contract (flashLoanPair o) (oppDirection o) w1)
        as [[authSuccess|msg] w2]; cbn [fst snd];
        [|eexists; split; [reflexivity|done]].
      destruct authSuccess; cbn [negb];
        [by apply Hblocked|eexists; split; [reflexivity|done]]. }
  destruct Hmain as (s' & Hrun & Hfiles). exists s'. by rewrite Hrun.
Qed.

End ExecutorFacts.

(** ** The scan coordinator: the scan and the execution of the best result *)

Section BotExecution.
Import ProfitCalculator ArbitrageChecker FileManager ArbitrageExecutor ArbitrageBot.
Import FloatOrder.
Context {E : Type} (chain : Chain E) (K : Constants).
Context (contract : Contract E) (disk : Disk E).

Lemma executeArbitrage_returns o : returns (executeArbitrage chain K contract disk o).
Proof. unfold executeArbitrage. auto with returns. Qed.

(** The log of the first opportunities changes nothing, and it ends
    normally when every profit result was evaluated. *)
Lemma log_lines_eq (l : list Opportunity) (s : Runtime E) :
  exists r,
    foldr
      (fun opp rest =>
         toFixed (field ProfitCalculator.netProfitUSD (profitResult opp)) ;;;
         toFixed (field ProfitCalculator.profitPercentage (profitResult opp)) ;;;
         rest)
      (ret tt) l s = (r, s) /\
    (Forall (fun o => exists b, profitResult o = Evaluated b) l -> r = Ok tt).
Proof.
  induction l as [|o l IH]; cbn [foldr].
  - by exists (Ok tt).
  - destruct IH as (r & Hr & Hall).
    destruct (profitResult o) as [b|msg] eqn:Hprofit; cbn [field toFixed].
    + exists r. split.
      * rewrite <- Hr. reflexivity.
      * intros Hl. apply Forall_cons_1 in Hl as [_ Hl]. by apply Hall.
    + eexists. split; [reflexivity|].
      intros Hl. apply Forall_cons_1 in Hl as [[b Hb] _]. congruence.
Qed.

(** X29: with the execution disabled, [checkAndExecuteArbitrage] only
    scans.  It never throws, it leaves the services as the scan left them
    and it leaves the history and the statistics untouched, whatever the
    scan found and whatever the contract would answer. *)
Theorem disabled_execution_only_scans (pairsToCheck : list PairConfig) (s : Runtime E) :
  checkAndExecuteArbitrage chain K contract disk false pairsToCheck s =
    (Ok tt,
     mkRuntime (checkArbitrageOpportunities chain K pairsToCheck (services s)).2
       (fileManager s)).
Proof.
  unfold checkAndExecuteArbitrage. rewrite tryCatch_bind_eq, inWorld_eq.
  destruct (checkArbitrageOpportunities chain K pairsToCheck (services s))
    as [[opportunities|msg] w1]; cbn [fst snd]; [|done].
  destruct opportunities as [|o rest]; [done|].
  cbv zeta. rewrite tryCatch_bind_eq.
  destruct (log_lines_eq (take 3 (sortByProfit (o :: rest)))
              (mkRuntime w1 (fileManager s))) as (r & -> & _).
  by destruct r as [[]|msg].
Qed.

Lemma leb_refl (x : float) a :
  rank (Prim2SF x) = Some a -> (x <=? x)%float = true.
Proof.
  intros Hx. apply leb_rankLe. unfold rankLe, lexLt. rewrite Hx.
  destruct a as [[a1 a2] a3]. simpl. lia.
Qed.

(** X30: with the execution enabled, [checkAndExecuteArbitrage] executes
    one opportunity of a scan that found some, and that opportunity has the
    highest profit percentage of all: the state it leaves is the state that
    [executeArbitrage] leaves when run on that opportunity after the scan.
    It never throws. *)
Theorem best_opportunity_is_executed (pairsToCheck : list PairConfig) (s : Runtime E)
    opportunities w1 :
  checkArbitrageOpportunities chain K pairsToCheck (services s) = (Ok opportunities, w1) ->
  opportunities <> [] ->
  exists best executed s',
    best ∈ opportunities /\
    Forall (fun o => (percentageOf (profitResult o) <=?
                      percentageOf (profitResult best))%float = true) opportunities /\
    executeArbitrage chain K contract disk best (mkRuntime w1 (fileManager s))
      = (Ok executed, s') /\
    checkAndExecuteArbitrage chain K contract disk true pairsToCheck s = (Ok tt, s').
Proof.
  intros Hscan Hsome.
  assert (Haccepted : Forall (accepted chain K) opportunities).
  { unfold checkArbitrageOpportunities in Hscan.
    apply bind_inv in Hscan as (found & w0 & Hfound & Hscan).
    injection Hscan as <- _. rewrite sortByProfit_Permutation.
    by eapply scanPairs_sound. }
  assert (Hranked : Forall (fun x => exists a,
            rank (Prim2SF (percentageOf (profitResult x))) = Some a) opportunities).
  { eapply Forall_impl; [exact Haccepted|]. intros o Ho. by eapply accepted_ranked. }
  pose proof (sortByProfit_descending opportunities Hranked) as Hsorted.
  pose proof (sortByProfit_Permutation opportunities) as Hperm.
  destruct (sortByProfit opportunities) as [|best rest] eqn:Hsort.
  { symmetry in Hperm. apply Permutation_nil_r in Hperm. done. }
  destruct (executeArbitrage_returns best (mkRuntime w1 (fileManager s)))
    as (executed & s' & Hexecute).
  exists best, executed, s'.
  assert (Hbest : best ∈ opportunities).
  { rewrite <- Hperm. apply elem_of_cons. by left. }
  split; [exact Hbest|]. split; [|split; [exact Hexecute|]].
  - rewrite <- Hperm. destruct Hsorted as [Hbelow _].
    apply Forall_cons_2; [|done].
    rewrite Forall_forall in Hranked. destruct (Hranked best Hbest) as [a Ha].
    by eapply leb_refl.
  - unfold checkAndExecuteArbitrage. rewrite tryCatch_bind_eq, inWorld_eq.
    rewrite Hscan. cbn [fst snd].
    destruct opportunities as [|o others]; [done|].
    cbv zeta. rewrite Hsort. rewrite tryCatch_bind_eq.
    destruct (log_lines_eq (take 3 (best :: rest)) (mkRuntime w1 (fileManager s)))
      as (r & -> & Hlog).
    rewrite Hlog.
    + cbn [negb]. unfold tryCatch, bind. by rewrite Hexecute.
    + apply Forall_take. rewrite Hperm.
      eapply Forall_impl; [exact Haccepted|].
      intros x [(b & Hb & _) _]. by exists b.
Qed.

End BotExecution.

Section ExecutionExamples.
Import ArbitrageChecker FileManager ArbitrageExecutor ArbitrageBot Scenario Examples.

Lemma updatePerformanceStats_counts_witness :
  exists s',
    updatePerformanceStats disk "WBNB" (Some 8%float) (Some 2%float) false
      (fileManager runtime, 0) = (Ok tt, s') /\
    profitByPair (performanceStats s'.1) = ∅.
Proof.
  destruct (updatePerformanceStats_counts disk "WBNB" (Some 8%float) (Some 2%float)
              false (fileManager runtime, 0))
    as (s' & Hrun & _ & _ & _ & _ & Hfailed & _).
  exists s'. split; [exact Hrun|].
  destruct (Hfailed eq_refl) as [_ Hpairs]. rewrite Hpairs. reflexivity.
Defined.

Lemma executeArbitrage_outcome_witness :
  exists o w1 s',
    checkArbitrageLoop mainnetChain mainnet mainnetTriple busdAddress usdtAddress
      wbnbAddress true (services runtime) = (Ok (Some o), w1) /\
    executeArbitrage mainnetChain mainnet (contractWith false) disk o
      (mkRuntime w1 (fileManager runtime)) = (Ok true, s') /\
    length (executionHistory (fileManager s')) = 1%nat.
Proof.
  destruct (checkArbitrageLoop mainnetChain mainnet mainnetTriple busdAddress
              usdtAddress wbnbAddress true (services runtime))
    as [[[o|]|msg] w1] eqn:Hloop;
    [|vm_compute in Hloop; discriminate|vm_compute in Hloop; discriminate].
  destruct (executeArbitrage_outcome mainnetChain mainnet (contractWith false) disk
              o (mkRuntime w1 (fileManager runtime))) as (b & s' & Hrun & _).
  exists o, w1, s'. split; [reflexivity|].
  vm_compute in Hloop. injection Hloop as <- <-.
  vm_compute in Hrun. injection Hrun as <- <-.
  split; reflexivity.
Defined.

Lemma paused_contract_blocks_execution_witness :
  exists s',
    executeArbitrage mainnetChain mainnet (contractWith true) disk unevaluated runtime
      = (Ok false, s') /\
    fileManager s' = fileManager runtime.
Proof.
  destruct (paused_contract_blocks_execution mainnetChain mainnet (contractWith true) disk
              unevaluated runtime
              (fun _ _ _ _ _ _ now => (Throw "nonce too low", now)))
    as (s' & Hrun & Hfiles & _).
  - intros e. exists e. left. reflexivity.
  - exists s'. split; [exact Hrun | exact Hfiles].
Defined.

Lemma best_opportunity_is_executed_witness :
  exists s',
    checkAndExecuteArbitrage mainnetChain mainnet (contractWith false) disk true
      [mainnetTriple] runtime = (Ok tt, s') /\
    length (executionHistory (fileManager s')) = 1%nat /\
    successfulTrades (performanceStats (fileManager s')) = 1%N.
Proof.
  destruct (checkArbitrageOpportunities mainnetChain mainnet [mainnetTriple]
              (services runtime))
    as [[opportunities|msg] w1] eqn:Hscan; [|vm_compute in Hscan; discriminate].
  assert (Hsome : opportunities <> []).
  { intros ->. vm_compute in Hscan. discriminate. }
  destruct (best_opportunity_is_executed mainnetChain mainnet (contractWith false) disk
              [mainnetTriple] runtime opportunities w1 Hscan Hsome)
    as (best & executed & s' & _ & _ & _ & Hrun).
  exists s'. split; [exact Hrun|].
  vm_compute in Hrun. injection Hrun as <-. split; reflexivity.
Defined.

End ExecutionExamples.

(** ** The scan coordinator: the guards of a scheduled scan *)

Section ScheduledScan.
Import ArbitrageChecker FileManager ArbitrageExecutor ArbitrageBot.
Context {E : Type} (chain : Chain E) (K : Constants).
Context (contract : Contract E) (disk : Disk E).
Context (EXECUTION_ENABLED : bool) (MAX_GAS_PRICE_GWEI : float).

Lemma checkAndExecuteArbitrage_returns pairsToCheck :
  returns (checkAndExecuteArbitrage chain K contract disk EXECUTION_ENABLED pairsToCheck).
Proof. unfold checkAndExecuteArbitrage. auto with returns. Qed.

Lemma isContractPaused_unanswered (w : World E) msg e1 :
  paused contract (env w) = (Throw msg, e1) ->
  isContractPaused contract w = (Ok true, setEnv e1 w).
Proof. intros H. unfold isContractPaused, tryCatch, call. by rewrite H. Qed.

(** A triple that is not of the priority of a schedule is not among the
    triples that the schedule scans. *)
Lemma scheduledPairs_other_priority cadence before pair after :
  match cadence with
  | HighPriority => priority pair <> 1%nat
  | LowPriority => (priority pair <= 1)%nat
  end ->
  scheduledPairs cadence (before ++ pair :: after) = scheduledPairs cadence (before ++ after).
Proof.
  intros Hother.
  destruct cadence; unfold scheduledPairs, highPriorityPairs, lowerPriorityPairs;
    rewrite !List.filter_app; cbn [List.filter].
  - by replace (priority pair =? 1)%nat with false by (symmetry; apply Nat.eqb_neq; lia).
  - by replace (1 <? priority pair)%nat with false by (symmetry; apply Nat.ltb_ge; lia).
Qed.

(** X25: the scan of a schedule is guarded.  The callback of a schedule
    never throws out of its [try] block.  When the network is not ready it
    does nothing after the test of the network; when the contract answers
    that it is paused, or does not answer the question, it does nothing after
    that test: no triple is scanned, nothing is executed, and the history and
    the statistics stay as they were.  Otherwise it runs
    [checkAndExecuteArbitrage] on the triples of its own priority and on no
    other: the five-minute schedule on those of priority 1, the
    fifteen-minute schedule on those of a priority above 1, so that a triple
    of another priority in the configuration changes nothing of the run. *)
Theorem scheduled_scan_is_guarded (cadence : Cadence) (TOKEN_PAIRS : list PairConfig)
    (s : Runtime E) (ready : bool) (w1 : World E) :
  NetworkService.isNetworkReadyForArbitrage chain MAX_GAS_PRICE_GWEI (services s)
    = (Ok ready, w1) ->
  let scan :=
    scheduledScan chain K contract disk EXECUTION_ENABLED MAX_GAS_PRICE_GWEI cadence in
  (exists s', scan TOKEN_PAIRS s = (Ok tt, s')) /\
  (ready = false -> scan TOKEN_PAIRS s = (Ok tt, mkRuntime w1 (fileManager s))) /\
  (ready = true ->
   (forall w2, isContractPaused contract w1 = (Ok true, w2) ->
      scan TOKEN_PAIRS s = (Ok tt, mkRuntime w2 (fileManager s))) /\
   (forall msg e1, paused contract (env w1) = (Throw msg, e1) ->
      scan TOKEN_PAIRS s = (Ok tt, mkRuntime (setEnv e1 w1) (fileManager s))) /\
   (forall w2, isContractPaused contract w1 = (Ok false, w2) ->
      scan TOKEN_PAIRS s =
        checkAndExecuteArbitrage chain K contract disk EXECUTION_ENABLED
          match cadence with
          | HighPriority =>
              List.filter (fun pair => (priority pair =? 1)%nat) TOKEN_PAIRS
          | LowPriority =>
              List.filter (fun pair => (1 <? priority pair)%nat) TOKEN_PAIRS
          end
          (mkRuntime w2 (fileManager s)))) /\
  (forall before pair after,
     match cadence with
     | HighPriority => priority pair <> 1%nat
     | LowPriority => (priority pair <= 1)%nat
     end ->
     scan (before ++ pair :: after) s = scan (before ++ after) s).
Proof.
  intros Hready scan.
  assert (Hstart : forall pairs,
    scan pairs s =
      if negb ready then (Ok tt, mkRuntime w1 (fileManager s))
      else
        tryCatch
          (let* isPaused := inWorld (isContractPaused contract) in
           if isPaused then ret tt
           else checkAndExecuteArbitrage chain K contract disk EXECUTION_ENABLED
                  (scheduledPairs cadence pairs))
          (fun _ => ret tt) (mkRuntime w1 (fileManager s))).
  { intros pairs. subst scan. unfold scheduledScan.
    unfold tryCatch at 1. unfold bind at 1. rewrite inWorld_eq, Hready. cbn [fst snd].
    by destruct ready. }
  assert (Hpaused : forall pairs isPaused w2,
    ready = true -> isContractPaused contract w1 = (Ok isPaused, w2) ->
    scan pairs s =
      if isPaused then (Ok tt, mkRuntime w2 (fileManager s))
      else checkAndExecuteArbitrage chain K contract disk EXECUTION_ENABLED
             (scheduledPairs cadence pairs) (mkRuntime w2 (fileManager s))).
  { intros pairs isPaused w2 -> Hpause. rewrite Hstart. cbn [negb].
    unfold tryCatch at 1. unfold bind at 1. rewrite inWorld_eq.
    cbn [services fileManager]. rewrite Hpause. cbn [fst snd].
    destruct isPaused; [done|].
    by destruct (checkAndExecuteArbitrage_returns (scheduledPairs cadence pairs)
                   (mkRuntime w2 (fileManager s))) as ([] & s' & ->). }
  split; [|split; [|split]].
  - destruct ready.
    + destruct (isContractPaused contract w1) as [[isPaused|msg] w2] eqn:Hpause.
      * rewrite (Hpaused TOKEN_PAIRS isPaused w2 eq_refl eq_refl).
        destruct isPaused; [by eexists|].
        destruct (checkAndExecuteArbitrage_returns (scheduledPairs cadence TOKEN_PAIRS)
                    (mkRuntime w2 (fileManager s))) as ([] & s' & ->).
        by eexists.
      * unfold isContractPaused, tryCatch in Hpause.
        destruct (call (paused contract) w1) as [[b|msg'] w']; discriminate Hpause.
    + rewrite Hstart. by eexists.
  - intros ->. by rewrite Hstart.
  - intros Hr. split; [|split].
    + intros w2 Hpause. by rewrite (Hpaused TOKEN_PAIRS true w2 Hr Hpause).
    + intros msg e1 Hpause.
      by rewrite (Hpaused TOKEN_PAIRS true (setEnv e1 w1) Hr
                    (isContractPaused_unanswered w1 msg e1 Hpause)).
    + intros w2 Hpause. rewrite (Hpaused TOKEN_PAIRS false w2 Hr Hpause).
      by destruct cadence.
  - intros before pair after Hother. rewrite !Hstart.
    by rewrite (scheduledPairs_other_priority cadence before pair after Hother).
Qed.

End ScheduledScan.

Lemma scheduled_scan_is_guarded_witness :
  ArbitrageBot.scheduledScan Examples.mainnetChain Examples.mainnet
    (Examples.contractWith true) Examples.disk true 10 ArbitrageBot.HighPriority
    [Examples.mainnetTriple] Examples.runtime = (Ok tt, Examples.runtime) /\
  exists s',
    ArbitrageBot.scheduledScan Examples.mainnetChain Examples.mainnet
      (Examples.contractWith false) Examples.disk true 10 ArbitrageBot.HighPriority
      [Examples.mainnetTriple] Examples.runtime = (Ok tt, s') /\
    length (FileManager.executionHistory (fileManager s')) = 1%nat.
Proof.
  split.
  - destruct (scheduled_scan_is_guarded Examples.mainnetChain Examples.mainnet
                (Examples.contractWith true) Examples.disk true 10
                ArbitrageBot.HighPriority [Examples.mainnetTriple] Examples.runtime
                true (services Examples.runtime) eq_refl)
      as (_ & _ & Hguard & _).
    destruct (Hguard eq_refl) as (Hpaused & _).
    exact (Hpaused (services Examples.runtime) eq_refl).
  - destruct (scheduled_scan_is_guarded Examples.mainnetChain Examples.mainnet
                (Examples.contractWith false) Examples.disk true 10
                ArbitrageBot.HighPriority [Examples.mainnetTriple] Examples.runtime
                true (services Examples.runtime) eq_refl)
      as (_ & _ & Hguard & _).
    destruct (Hguard eq_refl) as (_ & _ & Hscan).
    rewrite (Hscan (services Examples.runtime) eq_refl).
    destruct (ArbitrageBot.checkAndExecuteArbitrage Examples.mainnetChain
                Examples.mainnet (Examples.contractWith false) Examples.disk true
                (List.filter (fun pair => (ArbitrageChecker.priority pair =? 1)%nat)
                   [Examples.mainnetTriple])
                (mkRuntime (services Examples.runtime) (fileManager Examples.runtime)))
      as [r s'] eqn:Hrun.
    vm_compute in Hrun. injection Hrun as <- <-.
    eexists. split; reflexivity.
Defined.
